(** * TokenizeRWATemplate: wallet adapter, pinning relay and amount codec

    A shallow embedding of the pieces of the repository that carry logic:

    - [Js]: the fragment of the JavaScript string and array library the
      sources call (strings are sequences of UTF-16 code units);
    - [Amount]: [formatAmount] / [parseAmount] of
      [utils/web3auth/web3authIntegration.ts];
    - [Wallet]: [createWeb3AuthSigner] and the state function of the
      [useUnifiedWallet] hook;
    - [Relay]: the Express server (CORS origin callback, [/health],
      [/api/pin-image]) in its two variants;
    - [Integration], [Hooks], [WalletHelpers]: the rest of
      web3authIntegration.ts and the hooks built on it;
    - [Config], [Provider]: the Web3Auth singleton of web3authConfig.ts and
      the provider component's state machine.
*)

From Stdlib Require Import String Ascii ZArith NArith List Bool Lia Sorted.
Import ListNotations.

(** ** Completions: a call returns normally or throws [new Error(msg)] *)

Inductive Completion (A : Type) : Type :=
| Normal (a : A)
| Throw (msg : list N).
Arguments Normal {A} a.
Arguments Throw {A} msg.

(* ================================================================== *)
(** ** The JavaScript library fragment                                 *)
(* ================================================================== *)

Module Js.

(** A JS string is a sequence of UTF-16 code units. *)
Definition jsstring := list N.

(** String literals of the sources (all ASCII). *)
Definition lit (s : string) : jsstring :=
  map N_of_ascii (list_ascii_of_string s).

Fixpoint String_eqb (a b : jsstring) : bool :=
  match a, b with
  | [], [] => true
  | x :: a', y :: b' => N.eqb x y && String_eqb a' b'
  | _, _ => false
  end.

(** [!s] on a string: only the empty string is falsy. *)
Definition is_empty (s : jsstring) : bool :=
  match s with [] => true | _ => false end.

(** [a || b] on strings. *)
Definition or_else (a b : jsstring) : jsstring :=
  if is_empty a then b else a.

(** ECMAScript WhiteSpace and LineTerminator code points, as stripped by
    [String.prototype.trim]. *)
Definition isWhiteSpace (c : N) : bool :=
  (existsb (N.eqb c)
     [9; 10; 11; 12; 13; 32; 160; 5760; 8232; 8233; 8239; 8287; 12288; 65279]
   || ((8192 <=? c) && (c <=? 8202)))%N.

Fixpoint trimStart (s : jsstring) : jsstring :=
  match s with
  | c :: s' => if isWhiteSpace c then trimStart s' else s
  | [] => []
  end.

Definition trimEnd (s : jsstring) : jsstring := rev (trimStart (rev s)).

Definition trim (s : jsstring) : jsstring := trimEnd (trimStart s).

Definition len (s : jsstring) : Z := Z.of_nat (length s).

(** [s.padStart(target, c)] and [s.padEnd(target, c)] with a one-unit filler. *)
Definition padStart (s : jsstring) (target : Z) (fill : N) : jsstring :=
  if (target <=? len s)%Z then s
  else repeat fill (Z.to_nat (target - len s)) ++ s.

Definition padEnd (s : jsstring) (target : Z) (fill : N) : jsstring :=
  if (target <=? len s)%Z then s
  else s ++ repeat fill (Z.to_nat (target - len s)).

(** Relative index of [slice]: negative counts from the end, both clamped. *)
Definition relIndex (n k : Z) : Z :=
  if (k <? 0)%Z then Z.max (n + k) 0 else Z.min k n.

Definition slice (s : jsstring) (start stop : Z) : jsstring :=
  let from := relIndex (len s) start in
  let to := relIndex (len s) stop in
  firstn (Z.to_nat (to - from)) (skipn (Z.to_nat from) s).

(** [s.slice(start)]: the end defaults to the length. *)
Definition sliceFrom (s : jsstring) (start : Z) : jsstring :=
  slice s start (len s).

(** [s.split(sep)] for a one-unit separator: never the empty array. *)
Fixpoint split (sep : N) (s : jsstring) : list jsstring :=
  match s with
  | [] => [[]]
  | c :: s' =>
      if (c =? sep)%N then [] :: split sep s'
      else match split sep s' with
           | h :: t => (c :: h) :: t
           | [] => [[c]]
           end
  end.

(** [s.endsWith(suffix)]. *)
Definition endsWith (s suffix : jsstring) : bool :=
  String_eqb (skipn (length s - length suffix) s) suffix
  && (length suffix <=? length s)%nat.

(** [arr.includes(x)] on an array of strings. *)
Definition includes (arr : list jsstring) (x : jsstring) : bool :=
  existsb (String_eqb x) arr.

(** *** Decimal numerals *)

Definition isDigit (c : N) : bool := ((48 <=? c) && (c <=? 57))%N.

Fixpoint digitsAux (fuel : nat) (n : N) (acc : jsstring) : jsstring :=
  let acc' := (48 + n mod 10)%N :: acc in
  match fuel with
  | O => acc'
  | S f => if (n / 10 =? 0)%N then acc' else digitsAux f (n / 10)%N acc'
  end.

(** Decimal rendering of a natural number; the number of bits bounds the
    number of decimal digits. *)
Definition N_toString (n : N) : jsstring :=
  digitsAux (N.to_nat (N.size n)) n [].

(** [z.toString()] for a bigint (and for an integral number in the safe
    range). *)
Definition BigInt_toString (z : Z) : jsstring :=
  if (z <? 0)%Z then 45%N :: N_toString (Z.abs_N z) else N_toString (Z.to_N z).

Definition digitsValue (s : jsstring) : N :=
  fold_left (fun a c => (10 * a + (c - 48))%N) s 0%N.

(** [BigInt(s)] on a string of decimal digits, the only shape [parseAmount]
    passes to it; every other string is a [SyntaxError] here. *)
Definition BigInt_ofString (s : jsstring) : option Z :=
  if forallb isDigit s then Some (Z.of_N (digitsValue s)) else None.

End Js.

(* ================================================================== *)
(** ** Amount formatting and parsing (web3authIntegration.ts)          *)
(* ================================================================== *)

Module Amount.
Import Js.

(** The [amount] argument of [formatAmount], typed [bigint | number].  The
    function reads it through [amount.toString()] only, so a number is
    carried as what [Number.prototype.toString] prints for it: the plain
    decimal digits for a safe integer, an exponent form from 10^21 on
    ([1e21] prints as [1e+21]), a fraction point for a non-integral number
    ([1.5]), a sign for a negative one, [NaN], [Infinity]. *)
Inductive AmountValue : Type :=
| BigIntAmount (z : Z)
| NumberAmount (printed : jsstring).

(** [amount.toString()]. *)
Definition toString (amount : AmountValue) : jsstring :=
  match amount with
  | BigIntAmount z => BigInt_toString z
  | NumberAmount printed => printed
  end.

(** [formatAmount(amount, decimals)]. *)
Definition formatAmount (amount : AmountValue) (decimals : Z) : jsstring :=
  let amountStr := toString amount in
  let decimalPoints := decimals in
  if (len amountStr <=? decimalPoints)%Z then
    lit "0." ++ padStart amountStr decimalPoints 48
  else
    let integerPart := slice amountStr 0 (- decimalPoints) in
    let decimalPart := sliceFrom amountStr (- decimalPoints) in
    integerPart ++ lit "." ++ decimalPart.

Fixpoint spanDigits (s : jsstring) : jsstring * jsstring :=
  match s with
  | c :: s' =>
      if isDigit c then let (d, r) := spanDigits s' in (c :: d, r)
      else ([], s)
  | [] => ([], [])
  end.

(** The test [/^\d+(\.\d+)?$/.test(s)]. *)
Definition amountPattern_test (s : jsstring) : bool :=
  let (i, rest) := spanDigits s in
  negb (is_empty i)
  && match rest with
     | [] => true
     | c :: f => (c =? 46)%N && negb (is_empty f) && forallb isDigit f
     end.

(** [parseAmount(amount, decimals)]. *)
Definition parseAmount (amount : jsstring) (decimals : Z) : Completion Z :=
  let trimmed := trim amount in
  if is_empty trimmed then Throw (lit "Amount is required")
  else if negb (amountPattern_test trimmed) then
    Throw (lit "Invalid amount format")
  else
    let parts := split 46 trimmed in
    let integerPart := nth 0 parts (lit "0") in
    let decimalPart := nth 1 parts [] in
    if (len decimalPart >? decimals)%Z then
      Throw (lit "Too many decimal places (maximum "
             ++ BigInt_toString decimals ++ lit ")")
    else
      let paddedDecimal := padEnd decimalPart decimals 48 in
      let combined := integerPart ++ paddedDecimal in
      match BigInt_ofString combined with
      | Some z => Normal z
      | None => Throw (lit "Cannot convert to a BigInt")
      end.

(** The spec's wording: an unsigned decimal numeral is a non-empty run of
    digits, optionally followed by a point and a non-empty run of digits. *)
Definition digitRun (s : jsstring) : Prop :=
  s <> [] /\ Forall (fun c => isDigit c = true) s.

Definition unsignedDecimal (s : jsstring) : Prop :=
  exists i, digitRun i /\ (s = i \/ exists f, digitRun f /\ s = i ++ 46%N :: f).

End Amount.

(* ================================================================== *)
(** ** The unified wallet hook (hooks/useUnifiedWallet and
       utils/web3auth/web3authIntegration.ts)                          *)
(* ================================================================== *)

Module Wallet.
Import Js.

(** What the [secretKey] property of an account holds at run time: a
    [Uint8Array], a plain array of numbers, or anything else. *)
Inductive KeyMaterial : Type :=
| KeyBytes (bytes : list N)
| KeyArray (numbers : list Z)
| KeyOther.

(** [AlgorandAccountFromWeb3Auth], restricted to the properties read here. *)
Record AlgorandAccount : Type := {
  address : jsstring;
  secretKey : KeyMaterial
}.

(** An [algosdk.TransactionSigner]: either the basic account signer built
    from an address and a secret key, or the opaque signer function a
    browser wallet hands out. *)
Inductive TransactionSigner (Ext : Type) : Type :=
| BasicAccountSigner (addr : jsstring) (sk : list N)
| WalletSigner (f : Ext).
Arguments BasicAccountSigner {Ext} addr sk.
Arguments WalletSigner {Ext} f.

(** [Uint8Array.from(numbers)]: every element is reduced modulo 256. *)
Definition Uint8Array_from (numbers : list Z) : list N :=
  map (fun z => Z.to_N (z mod 256)) numbers.

Definition invalidKeyMessage : jsstring :=
  lit "Web3Auth secretKey is not a Uint8Array (or number[]). Cannot sign transactions.".

(** [createWeb3AuthSigner(account)]. *)
Definition createWeb3AuthSigner {Ext : Type} (account : AlgorandAccount)
  : Completion (TransactionSigner Ext) :=
  let sk := secretKey account in
  let addr := address account in
  match sk with
  | KeyBytes b => Normal (BasicAccountSigner addr b)
  | KeyArray a => Normal (BasicAccountSigner addr (Uint8Array_from a))
  | KeyOther => Throw invalidKeyMessage
  end.

(** ['web3auth' | 'traditional' | null]. *)
Inductive WalletType : Type := web3auth | traditional.

(** The value of [useWeb3Auth()], restricted to the properties read by the
    hook.  [UserInfo] and [Fn] (the login / logout callbacks) are opaque. *)
Module Web3AuthContext.
Record Web3AuthContextType (UserInfo Fn : Type) : Type := {
  isConnected : bool;
  algorandAccount : option AlgorandAccount;
  isLoading : bool;
  error : option jsstring;
  userInfo : option UserInfo;
  login : Fn;
  logout : Fn
}.
Arguments isConnected {UserInfo Fn} _.
Arguments algorandAccount {UserInfo Fn} _.
Arguments isLoading {UserInfo Fn} _.
Arguments error {UserInfo Fn} _.
Arguments userInfo {UserInfo Fn} _.
Arguments login {UserInfo Fn} _.
Arguments logout {UserInfo Fn} _.
End Web3AuthContext.

(** The value of [useWallet()], restricted to the properties read by the
    hook.  [Ext] (the signer function), [Wallets] and [W] are opaque; the
    hook hands [transactionSigner] on as it is, whatever it holds. *)
Module WalletContext.
Record UseWallet (Ext Wallets W : Type) : Type := {
  activeAddress : option jsstring;
  transactionSigner : Ext;
  wallets : Wallets;
  activeWallet : option W
}.
Arguments activeAddress {Ext Wallets W} _.
Arguments transactionSigner {Ext Wallets W} _.
Arguments wallets {Ext Wallets W} _.
Arguments activeWallet {Ext Wallets W} _.
End WalletContext.

(** [UnifiedWalletState]. *)
Module Unified.
Record web3authPart (UserInfo Fn : Type) : Type := {
  algorandAccount : option AlgorandAccount;
  userInfo : option UserInfo;
  login : Fn;
  logout : Fn
}.
Arguments algorandAccount {UserInfo Fn} _.
Arguments userInfo {UserInfo Fn} _.
Arguments login {UserInfo Fn} _.
Arguments logout {UserInfo Fn} _.

Record traditionalPart (Wallets W : Type) : Type := {
  wallets : Wallets;
  activeWallet : option W
}.
Arguments wallets {Wallets W} _.
Arguments activeWallet {Wallets W} _.

Record UnifiedWalletState (UserInfo Fn Ext Wallets W : Type) : Type := {
  activeAddress : option jsstring;
  signer : option (TransactionSigner Ext);
  walletType : option WalletType;
  isConnected : bool;
  isLoading : bool;
  error : option jsstring;
  web3auth : web3authPart UserInfo Fn;
  traditional : traditionalPart Wallets W
}.
Arguments activeAddress {UserInfo Fn Ext Wallets W} _.
Arguments signer {UserInfo Fn Ext Wallets W} _.
Arguments walletType {UserInfo Fn Ext Wallets W} _.
Arguments isConnected {UserInfo Fn Ext Wallets W} _.
Arguments isLoading {UserInfo Fn Ext Wallets W} _.
Arguments error {UserInfo Fn Ext Wallets W} _.
Arguments web3auth {UserInfo Fn Ext Wallets W} _.
Arguments traditional {UserInfo Fn Ext Wallets W} _.
End Unified.

Section Hook.
Context {UserInfo Fn Ext Wallets W : Type}.

(** The guard [web3auth.isConnected && web3auth.algorandAccount] holds,
    with account [a]. *)
Definition socialSelected (w : Web3AuthContext.Web3AuthContextType UserInfo Fn)
    (a : AlgorandAccount) : Prop :=
  Web3AuthContext.isConnected w = true
  /\ Web3AuthContext.algorandAccount w = Some a.

Definition socialNotSelected
  (w : Web3AuthContext.Web3AuthContextType UserInfo Fn) : Prop :=
  Web3AuthContext.isConnected w = false
  \/ Web3AuthContext.algorandAccount w = None.

(** Truthiness of [traditional.activeAddress]: [null] and the empty
    string are falsy. *)
Definition truthyAddress (a : option jsstring) : option jsstring :=
  match a with
  | Some s => if is_empty s then None else Some s
  | None => None
  end.

(** The state function of [useUnifiedWallet]: the callback handed to
    [useMemo], as a function of the two upstream values. *)
Definition useUnifiedWallet
    (web3auth : Web3AuthContext.Web3AuthContextType UserInfo Fn)
    (traditional : WalletContext.UseWallet Ext Wallets W)
  : Completion (Unified.UnifiedWalletState UserInfo Fn Ext Wallets W) :=
  let traditionalPart :=
    {| Unified.wallets := WalletContext.wallets traditional;
       Unified.activeWallet := WalletContext.activeWallet traditional |} in
  let disconnectedPart :=
    {| Unified.algorandAccount := None;
       Unified.userInfo := None;
       Unified.login := Web3AuthContext.login web3auth;
       Unified.logout := Web3AuthContext.logout web3auth |} in
  match (if Web3AuthContext.isConnected web3auth
         then Web3AuthContext.algorandAccount web3auth else None) with
  | Some account =>
      (* Priority 1: Web3Auth (if connected) *)
      match createWeb3AuthSigner account with
      | Throw msg => Throw msg
      | Normal s =>
          Normal
            {| Unified.activeAddress := Some (address account);
               Unified.signer := Some s;
               Unified.walletType := Some Wallet.web3auth;
               Unified.isConnected := true;
               Unified.isLoading := Web3AuthContext.isLoading web3auth;
               Unified.error := Web3AuthContext.error web3auth;
               Unified.web3auth :=
                 {| Unified.algorandAccount := Some account;
                    Unified.userInfo := Web3AuthContext.userInfo web3auth;
                    Unified.login := Web3AuthContext.login web3auth;
                    Unified.logout := Web3AuthContext.logout web3auth |};
               Unified.traditional := traditionalPart |}
      end
  | None =>
      match truthyAddress (WalletContext.activeAddress traditional) with
      | Some addr =>
          (* Priority 2: Traditional wallet *)
          Normal
            {| Unified.activeAddress := Some addr;
               Unified.signer :=
                 Some (WalletSigner (WalletContext.transactionSigner traditional));
               Unified.walletType := Some Wallet.traditional;
               Unified.isConnected := true;
               Unified.isLoading := false;
               Unified.error := None;
               Unified.web3auth := disconnectedPart;
               Unified.traditional := traditionalPart |}
      | None =>
          (* No wallet connected *)
          Normal
            {| Unified.activeAddress := None;
               Unified.signer := None;
               Unified.walletType := None;
               Unified.isConnected := false;
               Unified.isLoading := Web3AuthContext.isLoading web3auth;
               Unified.error := Web3AuthContext.error web3auth;
               Unified.web3auth := disconnectedPart;
               Unified.traditional := traditionalPart |}
      end
  end.
End Hook.

(** Concrete upstream values for the closed examples: opaque callbacks and
    signer functions are numbered. *)
Definition exampleAccount (k : KeyMaterial) : AlgorandAccount :=
  {| address := lit "SOCIALADDR"; secretKey := k |}.

Definition socialState (connected : bool) (account : option AlgorandAccount)
    (loading : bool) (err : option jsstring)
  : Web3AuthContext.Web3AuthContextType unit N :=
  {| Web3AuthContext.isConnected := connected;
     Web3AuthContext.algorandAccount := account;
     Web3AuthContext.isLoading := loading;
     Web3AuthContext.error := err;
     Web3AuthContext.userInfo := Some tt;
     Web3AuthContext.login := 1%N;
     Web3AuthContext.logout := 2%N |}.

Definition walletState (addr : option jsstring) (signerId : N)
  : WalletContext.UseWallet N unit unit :=
  {| WalletContext.activeAddress := addr;
     WalletContext.transactionSigner := signerId;
     WalletContext.wallets := tt;
     WalletContext.activeWallet := None |}.

End Wallet.

(* ================================================================== *)
(** ** The pinning relay (the Express server, in its two variants)     *)
(* ================================================================== *)

Module Relay.
Import Js.

(** JSON values; a number is kept as mantissa and decimal exponent. *)
#[local] Unset Elimination Schemes.
Inductive Json : Type :=
| JNull
| JBool (b : bool)
| JNumber (mantissa exponent : Z)
| JString (s : jsstring)
| JArray (items : list Json)
| JObject (members : list (jsstring * Json)).
#[local] Set Elimination Schemes.

(** A text field of [req.body] as multer leaves it: missing, one string,
    or an array of strings when the field is repeated. *)
Inductive Field : Type :=
| FAbsent
| FText (s : jsstring)
| FList (l : list jsstring).

Record FormBody : Type := {
  metaName : Field;
  metaDescription : Field;
  properties : Field
}.

(** [req.file] as multer's memory storage leaves it. *)
Record UploadedFile : Type := {
  buffer : list N;
  originalname : jsstring
}.

Record Request : Type := {
  file : option UploadedFile;
  body : option FormBody
}.

(** [req.body?.field]. *)
Definition bodyField (req : Request) (f : FormBody -> Field) : Field :=
  match body req with Some b => f b | None => FAbsent end.

(** The readable stream handed to the pinning client, with its [path]. *)
Record FileStream : Type := {
  content : list N;
  path : jsstring
}.

Record PinOptions : Type := { pinataMetadata_name : jsstring }.

Record Metadata : Type := {
  name : jsstring;
  description : jsstring;
  image : jsstring;
  meta_properties : Json
}.

Record PinResult : Type := { IpfsHash : jsstring }.

(** The error object a rejected upstream call carries, restricted to the
    paths the handler reads: [error.response.data] (a string, or an object
    with an optional [error] string) and [error.message]. *)
Inductive ErrData : Type :=
| DataText (s : jsstring)
| DataObject (error : option jsstring).

Record PinError : Type := {
  response_data : option ErrData;
  message : option jsstring
}.

Inductive ErrorValue : Type :=
| MsgText (s : jsstring)
| MsgData (d : ErrData).

(** Calls made on the pinning client. *)
Inductive UpstreamCall : Type :=
| CallPinFile (stream : FileStream) (options : PinOptions)
| CallPinJSON (doc : Metadata) (options : PinOptions)
| CallUnpin (hash : jsstring).

Inductive Body : Type :=
| BodyNone
| BodyHealth (ok : bool) (ts : Z)
| BodyError (error : ErrorValue)
| BodyMetadataUrl (metadataUrl : jsstring).

(** The Express response object: status 200 until [res.status] is called. *)
Record Response : Type := {
  statusCode : Z;
  headers : list (jsstring * jsstring);
  payload : Body
}.

Definition freshResponse : Response :=
  {| statusCode := 200; headers := []; payload := BodyNone |}.

Definition res_set (k v : jsstring) (r : Response) : Response :=
  {| statusCode := statusCode r; headers := (k, v) :: headers r;
     payload := payload r |}.

Definition res_status (code : Z) (r : Response) : Response :=
  {| statusCode := code; headers := headers r; payload := payload r |}.

Definition res_json (b : Body) (r : Response) : Response :=
  {| statusCode := statusCode r; headers := headers r; payload := b |}.

Definition safeTrim (v : Field) : jsstring :=
  match v with
  | FText s => trim s
  | _ => []
  end.

(** [error?.response?.data?.error || error?.response?.data ||
     error?.message || 'Failed to pin to IPFS.'] *)
Definition extractMessage (e : PinError) : ErrorValue :=
  let fromMessage :=
    MsgText (or_else (match message e with Some m => m | None => [] end)
                     (lit "Failed to pin to IPFS.")) in
  match response_data e with
  | Some (DataObject (Some s)) =>
      if is_empty s then MsgData (DataObject (Some s)) else MsgText s
  | Some (DataObject None) => MsgData (DataObject None)
  | Some (DataText s) => if is_empty s then fromMessage else MsgText s
  | None => fromMessage
  end.

(** Process environment, restricted to the variables the CORS set-up reads. *)
Record Env : Type := {
  ALLOWED_ORIGINS : option jsstring;
  FRONTEND_ORIGIN : option jsstring
}.

(** The state of a handler run: the pinning service and the log of calls
    made on its client. *)
Record World (PinataState : Type) : Type := {
  pinata : PinataState;
  calls : list UpstreamCall
}.
Arguments pinata {PinataState} _.
Arguments calls {PinataState} _.

(** An awaited call resolves or rejects. *)
Inductive Outcome (A : Type) : Type :=
| Resolved (a : A)
| Rejected (e : PinError).
Arguments Resolved {A} a.
Arguments Rejected {A} e.

(** Handler code: state passing over [World], with rejection. *)
Definition M (S A : Type) : Type := World S -> Outcome A * World S.

Definition ret {S A} (a : A) : M S A := fun w => (Resolved a, w).

Definition bind {S A B} (m : M S A) (k : A -> M S B) : M S B :=
  fun w =>
    match m w with
    | (Resolved a, w') => k a w'
    | (Rejected e, w') => (Rejected e, w')
    end.

Definition tryCatch {S A} (m : M S A) (handler : PinError -> M S A) : M S A :=
  fun w =>
    match m w with
    | (Resolved a, w') => (Resolved a, w')
    | (Rejected e, w') => handler e w'
    end.

Notation "x <- m ;; k" := (bind m (fun x => k))
  (at level 61, m at next level, right associativity).

Section Platform.
(** The platform and the pinning service are not part of the repository:
    [JSON.parse] ([None] when it throws), the [hostname] of [new URL(s)]
    ([None] when the constructor throws) and the two upstream calls, which
    act on the service's state. *)
Variable JSON_parse : jsstring -> option Json.
Variable URL_hostname : jsstring -> option jsstring.
Variable PinataState : Type.
Variable pinFileToIPFS :
  FileStream -> PinOptions -> PinataState -> Outcome PinResult * PinataState.
Variable pinJSONToIPFS :
  Metadata -> PinOptions -> PinataState -> Outcome PinResult * PinataState.

Definition safeJsonParse (v : Field) (fallback : Json) : Json :=
  match v with
  | FText s =>
      if is_empty (trim s) then fallback
      else match JSON_parse s with
           | Some j => j
           | None => fallback
           end
  | _ => fallback
  end.

(** [await pinata.pinFileToIPFS(stream, options)], logged. *)
Definition awaitPinFile (stream : FileStream) (options : PinOptions)
  : M PinataState PinResult :=
  fun w =>
    let (r, p) := pinFileToIPFS stream options (pinata w) in
    (r, {| pinata := p; calls := calls w ++ [CallPinFile stream options] |}).

(** [await pinata.pinJSONToIPFS(doc, options)], logged. *)
Definition awaitPinJSON (doc : Metadata) (options : PinOptions)
  : M PinataState PinResult :=
  fun w =>
    let (r, p) := pinJSONToIPFS doc options (pinata w) in
    (r, {| pinata := p; calls := calls w ++ [CallPinJSON doc options] |}).

(** The handler of [POST /api/pin-image] (the same in both variants),
    run after multer has filled [req.file] and [req.body]. *)
Definition pinImage (req : Request) : M PinataState Response :=
  tryCatch
    (match file req with
     | None =>
         ret (res_json (BodyError (MsgText (lit "No file uploaded")))
                (res_status 400 freshResponse))
     | Some file =>
         let metaName :=
           or_else (safeTrim (bodyField req metaName)) (lit "NFT Example") in
         let metaDescription :=
           or_else (safeTrim (bodyField req metaDescription))
                   (lit "This is an unchangeable NFT") in
         let properties :=
           safeJsonParse (bodyField req properties) (JObject []) in
         let stream :=
           {| content := buffer file;
              path := or_else (originalname file) (lit "upload") |} in
         let imageOptions :=
           {| pinataMetadata_name :=
                or_else (originalname file) (metaName ++ lit " Image") |} in
         imageResult <- awaitPinFile stream imageOptions ;;
         let imageUrl := lit "ipfs://" ++ IpfsHash imageResult in
         let metadata :=
           {| name := metaName;
              description := metaDescription;
              image := imageUrl;
              meta_properties := properties |} in
         let jsonOptions :=
           {| pinataMetadata_name := metaName ++ lit " Metadata" |} in
         jsonResult <- awaitPinJSON metadata jsonOptions ;;
         let metadataUrl := lit "ipfs://" ++ IpfsHash jsonResult in
         ret (res_json (BodyMetadataUrl metadataUrl)
                (res_status 200 freshResponse))
     end)
    (fun error =>
       ret (res_json (BodyError (extractMessage error))
              (res_status 500 freshResponse))).

(** Running the handler on a fresh call log. *)
Definition servePinImage (req : Request) (p : PinataState)
  : Outcome Response * World PinataState :=
  pinImage req {| pinata := p; calls := [] |}.

(** The values the handler computes on its way, named for the
    statements about it. *)
Definition nameOf (req : Request) : jsstring :=
  or_else (safeTrim (bodyField req metaName)) (lit "NFT Example").

Definition descriptionOf (req : Request) : jsstring :=
  or_else (safeTrim (bodyField req metaDescription))
          (lit "This is an unchangeable NFT").

Definition propertiesOf (req : Request) : Json :=
  safeJsonParse (bodyField req properties) (JObject []).

Definition streamOf (f : UploadedFile) : FileStream :=
  {| content := buffer f; path := or_else (originalname f) (lit "upload") |}.

Definition imageOptionsOf (req : Request) (f : UploadedFile) : PinOptions :=
  {| pinataMetadata_name :=
       or_else (originalname f) (nameOf req ++ lit " Image") |}.

Definition metadataOf (req : Request) (imageResult : PinResult) : Metadata :=
  {| name := nameOf req;
     description := descriptionOf req;
     image := lit "ipfs://" ++ IpfsHash imageResult;
     meta_properties := propertiesOf req |}.

Definition jsonOptionsOf (req : Request) : PinOptions :=
  {| pinataMetadata_name := nameOf req ++ lit " Metadata" |}.

(** The [properties] values the spec calls absent or malformed: missing,
    not a string, empty once trimmed, or refused by [JSON.parse]. *)
Definition lenientCase (v : Field) : Prop :=
  v = FAbsent
  \/ (exists l, v = FList l)
  \/ (exists s, v = FText s /\ (trim s = [] \/ JSON_parse s = None)).

(** The spec's wording of the hosting rule: the origin parses as a URL
    whose hostname ends with [.vercel.app]. *)
Definition onVercelApp (origin : jsstring) : Prop :=
  exists host pre,
    URL_hostname origin = Some host /\ host = pre ++ lit ".vercel.app".

(** The origin callback handed to [cors], over the allow-list computed
    at start-up; the result is the boolean passed to [cb(null, _)].
    This is the variant with the wildcard entry. *)
Definition corsOriginWildcard (allowedOrigins : list jsstring)
    (origin : option jsstring) : bool :=
  match origin with
  | None => true
  | Some o =>
      if is_empty o then true
      else if includes allowedOrigins (lit "*") then true
      else if includes allowedOrigins o then true
      else match URL_hostname o with
           | Some host => if endsWith host (lit ".vercel.app") then true else false
           | None => false
           end
  end.

(** The origin callback of the variant deployable on Vercel. *)
Definition corsOrigin (allowedOrigins : list jsstring)
    (origin : option jsstring) : bool :=
  match origin with
  | None => true
  | Some o =>
      if is_empty o then true
      else if includes allowedOrigins o then true
      else match URL_hostname o with
           | Some host => if endsWith host (lit ".vercel.app") then true else false
           | None => false
           end
  end.
End Platform.

(** The same request with its [properties] field replaced. *)
Definition setProperties (v : Field) (req : Request) : Request :=
  {| file := file req;
     body := Some {| metaName := bodyField req metaName;
                     metaDescription := bodyField req metaDescription;
                     properties := v |} |}.

Definition respond (code : Z) (b : Body) : Response :=
  {| statusCode := code; headers := []; payload := b |}.

Definition notUnpin (c : UpstreamCall) : Prop :=
  match c with CallUnpin _ => False | _ => True end.

(** [(process.env.ALLOWED_ORIGINS || '*').split(',').map((o) => o.trim())] *)
Definition allowedOriginsWildcard (env : Env) : list jsstring :=
  map trim
    (split 44 (or_else (match ALLOWED_ORIGINS env with Some s => s | None => [] end)
                       (lit "*"))).

(** [['http://localhost:5173', process.env.FRONTEND_ORIGIN]
      .filter(Boolean).map((o) => o.trim())] *)
Definition allowedOrigins (env : Env) : list jsstring :=
  map trim
    (filter (fun o => negb (is_empty o))
       [lit "http://localhost:5173";
        match FRONTEND_ORIGIN env with Some s => s | None => [] end]).

(** [GET /health]; [now] is the value [Date.now()] returns during the call.
    The first variant leaves the status at its default. *)
Definition healthWildcard (now : Z) : Response :=
  res_json (BodyHealth true now)
    (res_set (lit "Cache-Control") (lit "no-store") freshResponse).

Definition health (now : Z) : Response :=
  res_json (BodyHealth true now)
    (res_status 200
       (res_set (lit "Cache-Control") (lit "no-store") freshResponse)).

(** Repeated calls of [GET /health]: the n-th call reads the n-th value of
    the wall clock. *)
Definition healthCalls (handler : Z -> Response) (clock : list Z)
  : list Response := map handler clock.

Definition tsOf (r : Response) : option Z :=
  match payload r with
  | BodyHealth _ ts => Some ts
  | _ => None
  end.

(** The [ts] values of a run of answers, in order. *)
Definition tsValues (rs : list Response) : list Z :=
  flat_map (fun r => match tsOf r with Some ts => [ts] | None => [] end) rs.

(** A hostname reader for serialized http(s) origins
    ([scheme://host[:port]]), standing for the platform's URL parser in the
    closed examples. *)
Fixpoint takeHost (s : jsstring) : jsstring :=
  match s with
  | c :: s' =>
      if existsb (N.eqb c) [58; 47; 63; 35]%N then [] else c :: takeHost s'
  | [] => []
  end.

Definition stripPrefix (p s : jsstring) : option jsstring :=
  if String_eqb (firstn (length p) s) p then Some (skipn (length p) s) else None.

Definition originHostname (s : jsstring) : option jsstring :=
  let rest :=
    match stripPrefix (lit "https://") s with
    | Some r => Some r
    | None => stripPrefix (lit "http://") s
    end in
  match rest with
  | Some r => if is_empty (takeHost r) then None else Some (takeHost r)
  | None => None
  end.

(** A parser for a small fragment of JSON (the empty object and the three
    literals, with surrounding blanks), used in the closed examples. *)
Definition tinyJsonParse (s : jsstring) : option Json :=
  let t := trim s in
  if String_eqb t (lit "{}") then Some (JObject [])
  else if String_eqb t (lit "null") then Some JNull
  else if String_eqb t (lit "true") then Some (JBool true)
  else if String_eqb t (lit "false") then Some (JBool false)
  else None.

(** A pinning service for the closed examples: its state counts the pins
    made; a file pin is refused when the file is empty, a document pin when
    the document's name starts with an exclamation mark. *)
Definition demoError (m : string) : PinError :=
  {| response_data := None; message := Some (lit m) |}.

Definition demoPinFile (stream : FileStream) (_ : PinOptions) (n : N)
  : Outcome PinResult * N :=
  match content stream with
  | [] => (Rejected (demoError "empty file"), n)
  | _ => (Resolved {| IpfsHash := lit "Qm" ++ N_toString n |}, N.succ n)
  end.

Definition exampleRequest (f : option UploadedFile)
    (n d pr : Field) : Request :=
  {| file := f;
     body := Some {| metaName := n; metaDescription := d; properties := pr |} |}.

Definition examplePng : UploadedFile :=
  {| buffer := [137; 80; 78; 71]%N; originalname := lit "deed.png" |}.

Definition emptyUpload : UploadedFile :=
  {| buffer := []; originalname := lit "empty.bin" |}.

Definition demoPinJSON (doc : Metadata) (_ : PinOptions) (n : N)
  : Outcome PinResult * N :=
  match name doc with
  | 33%N :: _ => (Rejected (demoError "bad name"), n)
  | _ => (Resolved {| IpfsHash := lit "Qm" ++ N_toString n |}, N.succ n)
  end.

End Relay.

(* ================================================================== *)
(** ** Settled promises and caught values                              *)
(* ================================================================== *)

(** What a [catch] clause receives: an [Error] with its message, or a value
    that is not an [Error]. *)
Inductive Thrown : Type :=
| ThrownError (message : list N)
| ThrownOther.

(** [err instanceof Error ? err.message : fallback] *)
Definition messageOr (err : Thrown) (fallback : list N) : list N :=
  match err with
  | ThrownError m => m
  | ThrownOther => fallback
  end.

(** An awaited promise: fulfilled with a value or rejected with a thrown
    one. *)
Inductive Settled (A : Type) : Type :=
| Fulfilled (a : A)
| RejectedWith (err : Thrown).
Arguments Fulfilled {A} a.
Arguments RejectedWith {A} err.

(* ================================================================== *)
(** ** The rest of web3authIntegration.ts                              *)
(* ================================================================== *)

Module Integration.
Import Js Wallet.

(** [hasSufficientBalance(balance, requiredAmount, minFee = BigInt(1000))] *)
Definition hasSufficientBalance (balance requiredAmount : Z)
    (minFee : option Z) : bool :=
  let minFee := match minFee with Some f => f | None => 1000%Z end in
  let totalRequired := (requiredAmount + minFee)%Z in
  (totalRequired <=? balance)%Z.

End Integration.

(* ================================================================== *)
(** ** The Web3Auth hooks (hooks/useWeb3AuthHooks)                     *)
(* ================================================================== *)

Module Hooks.
Import Js Amount Wallet.

(** [loading] / [error] state of a hook, with its setters. *)
Record RequestState : Type := {
  loading : bool;
  error : option jsstring
}.

Definition setLoading (b : bool) (st : RequestState) : RequestState :=
  {| loading := b; error := error st |}.

Definition setError (e : option jsstring) (st : RequestState) : RequestState :=
  {| loading := loading st; error := e |}.

(** What [useHasSufficientBalance] returns. *)
Module Sufficient.
Record Result : Type := {
  hasSufficientBalance : bool;
  balance : option jsstring;
  required : jsstring
}.
End Sufficient.

(** [useHasSufficientBalance(amount, fee = '0.001')], as a function of the
    [balance] string the balance hook currently holds.  The flag is
    computed inside a [try]; the [required] text is not. *)
Definition useHasSufficientBalance (balance : option jsstring)
    (amount : jsstring) (fee : option jsstring)
  : Completion Sufficient.Result :=
  let fee := match fee with Some f => f | None => lit "0.001" end in
  let hasSufficientBalance :=
    match balance with
    | None => false
    | Some b =>
        if is_empty b then false
        else
          match parseAmount b 6 with
          | Throw _ => false
          | Normal balanceBigInt =>
              match parseAmount amount 6 with
              | Throw _ => false
              | Normal amountBigInt =>
                  match parseAmount fee 6 with
                  | Throw _ => false
                  | Normal feeBigInt =>
                      (amountBigInt + feeBigInt <=? balanceBigInt)%Z
                  end
              end
          end
    end in
  match parseAmount amount 6 with
  | Throw msg => Throw msg
  | Normal a =>
      Normal
        {| Sufficient.hasSufficientBalance := hasSufficientBalance;
           Sufficient.balance := balance;
           Sufficient.required :=
             BigInt_toString a ++ lit " (+ " ++ fee ++ lit " fee)" |}
  end.

(** State of [useAccountBalance]. *)
Module Balance.
Record State : Type := {
  balance : option jsstring;
  loading : bool;
  error : option jsstring
}.
End Balance.

(** Calls made on the algod client. *)
Inductive AlgodCall : Type :=
| SendRawTransaction (txn : list N)
| AccountInformation (address : jsstring).

Section Algod.
(** The node is not part of the repository: sending raw bytes resolves with
    a transaction id, reading an account resolves with its [amount]. *)
Variable AlgodState : Type.
Variable sendRawTransaction :
  list N -> AlgodState -> Settled jsstring * AlgodState.
Variable accountInformation :
  jsstring -> AlgodState -> Settled Z * AlgodState.

Record AlgodWorld : Type := {
  algod : AlgodState;
  algodCalls : list AlgodCall
}.

(** [sendTransaction(transactions)] of [useSendTransaction]. *)
Definition sendTransaction (transactions : list (list N))
    (st : RequestState) (w : AlgodWorld)
  : Settled jsstring * RequestState * AlgodWorld :=
  let st := setError None (setLoading true st) in
  let attempt : Settled jsstring * AlgodWorld :=
    match transactions with
    | [] => (RejectedWith (ThrownError (lit "No transactions to send")), w)
    | first :: _ =>
        let (r, a) := sendRawTransaction first (algod w) in
        (r, {| algod := a;
               algodCalls := algodCalls w ++ [SendRawTransaction first] |})
    end in
  match attempt with
  | (Fulfilled txId, w') => (Fulfilled txId, setLoading false st, w')
  | (RejectedWith err, w') =>
      let errorMessage := messageOr err (lit "Failed to send transaction") in
      (RejectedWith err, setLoading false (setError (Some errorMessage) st), w')
  end.

(** [fetchBalance()] of [useAccountBalance], given the current account. *)
Definition fetchBalance (algorandAccount : option AlgorandAccount)
    (st : Balance.State) (w : AlgodWorld) : Balance.State * AlgodWorld :=
  match truthyAddress (option_map address algorandAccount) with
  | None =>
      ({| Balance.balance := None;
          Balance.loading := Balance.loading st;
          Balance.error := Balance.error st |}, w)
  | Some addr =>
      let (r, a) := accountInformation addr (algod w) in
      let w' := {| algod := a;
                   algodCalls := algodCalls w ++ [AccountInformation addr] |} in
      match r with
      | Fulfilled amount =>
          let balanceInAlgos := formatAmount (BigIntAmount amount) 6 in
          ({| Balance.balance := Some balanceInAlgos;
              Balance.loading := false;
              Balance.error := None |}, w')
      | RejectedWith err =>
          let errorMessage := messageOr err (lit "Failed to fetch balance") in
          ({| Balance.balance := None;
              Balance.loading := false;
              Balance.error := Some errorMessage |}, w')
      end
  end.
End Algod.

(** Parameters of [createAsset] and [sendAsset]. *)
Record AssetCreateParams : Type := {
  total : Z;
  decimals : Z;
  assetName : jsstring;
  unitName : jsstring;
  url : option jsstring;
  manager : option jsstring;
  reserve : option jsstring;
  freeze : option jsstring;
  clawback : option jsstring
}.

Record AssetTransferParams : Type := {
  to : jsstring;
  assetId : option Z;
  amount : Z;
  closeRemainderTo : option jsstring
}.

(** The three calls made on [algorand.send], with the object passed. *)
Inductive SendCall (Ext : Type) : Type :=
| AssetCreate (sender : jsstring) (signer : TransactionSigner Ext)
    (params : AssetCreateParams)
| AssetTransfer (sender : jsstring) (signer : TransactionSigner Ext)
    (params : AssetTransferParams)
| Payment (sender : jsstring) (signer : TransactionSigner Ext)
    (receiver : jsstring) (amount : Z).
Arguments AssetCreate {Ext} sender signer params.
Arguments AssetTransfer {Ext} sender signer params.
Arguments Payment {Ext} sender signer receiver amount.

(** What a send resolves with, restricted to the properties read. *)
Record SendResult : Type := {
  txId : jsstring;
  confirmation_assetIndex : option Z
}.

(** Truthiness of an optional number. *)
Definition truthyNumber (n : option Z) : option Z :=
  match n with
  | Some z => if (z =? 0)%Z then None else Some z
  | None => None
  end.

Section Client.
(** The AlgorandClient is not part of the repository. *)
Variable Ext : Type.
Variable Client : Type.
Variable ClientState : Type.
Variable send :
  Client -> SendCall Ext -> ClientState -> Settled SendResult * ClientState.

Record ClientWorld : Type := {
  network : ClientState;
  sends : list (SendCall Ext)
}.

Definition awaitSend (c : Client) (call : SendCall Ext) (w : ClientWorld)
  : Settled SendResult * ClientWorld :=
  let (r, n) := send c call (network w) in
  (r, {| network := n; sends := sends w ++ [call] |}).

(** [try { setLoading(true); setError(null); ... } catch (err) {
      setError(...); throw err } finally { setLoading(false) }] *)
Definition guarded {A : Type} (fallback : jsstring)
    (body : ClientWorld -> Settled A * ClientWorld)
    (st : RequestState) (w : ClientWorld)
  : Settled A * RequestState * ClientWorld :=
  let st := setError None (setLoading true st) in
  match body w with
  | (Fulfilled a, w') => (Fulfilled a, setLoading false st, w')
  | (RejectedWith err, w') =>
      let errorMessage := messageOr err fallback in
      (RejectedWith err, setLoading false (setError (Some errorMessage) st), w')
  end.

(** [createAsset(params)] of [useCreateAsset]. *)
Definition createAsset (algorandAccount : option AlgorandAccount)
    (algorand : option Client) (params : AssetCreateParams)
    (st : RequestState) (w : ClientWorld)
  : Settled Z * RequestState * ClientWorld :=
  match algorandAccount, algorand with
  | Some account, Some client =>
      guarded (lit "Failed to create asset")
        (fun w =>
           match createWeb3AuthSigner account with
           | Throw msg => (RejectedWith (ThrownError msg), w)
           | Normal signer =>
               match awaitSend client
                       (AssetCreate (address account) signer params) w with
               | (RejectedWith err, w') => (RejectedWith err, w')
               | (Fulfilled result, w') =>
                   match truthyNumber (confirmation_assetIndex result) with
                   | None =>
                       (RejectedWith
                          (ThrownError
                             (lit "Failed to get asset ID from confirmation")),
                        w')
                   | Some assetId => (Fulfilled assetId, w')
                   end
               end
           end)
        st w
  | _, _ =>
      (RejectedWith (ThrownError (lit "Not connected to Web3Auth")), st, w)
  end.

(** [sendAsset(params)] of [useSendAsset]. *)
Definition sendAsset (algorandAccount : option AlgorandAccount)
    (algorand : option Client) (params : AssetTransferParams)
    (st : RequestState) (w : ClientWorld)
  : Settled jsstring * RequestState * ClientWorld :=
  match algorandAccount, algorand with
  | Some account, Some client =>
      guarded (lit "Failed to send asset")
        (fun w =>
           match createWeb3AuthSigner account with
           | Throw msg => (RejectedWith (ThrownError msg), w)
           | Normal signer =>
               let call :=
                 match truthyNumber (assetId params) with
                 | Some _ => AssetTransfer (address account) signer params
                 | None =>
                     Payment (address account) signer (to params) (amount params)
                 end in
               match awaitSend client call w with
               | (RejectedWith err, w') => (RejectedWith err, w')
               | (Fulfilled result, w') => (Fulfilled (txId result), w')
               end
           end)
        st w
  | _, _ =>
      (RejectedWith (ThrownError (lit "Not connected to Web3Auth")), st, w)
  end.
End Client.

(** A node and a client for the closed examples: the node knows one
    account and refuses empty transactions; the client numbers the assets
    it creates from 0. *)
Definition demoSendRaw (txn : list N) (n : N) : Settled jsstring * N :=
  match txn with
  | [] => (RejectedWith (ThrownError (lit "empty transaction")), n)
  | _ => (Fulfilled (lit "TX" ++ N_toString n), N.succ n)
  end.

Definition demoAccountInformation (addr : jsstring) (n : N) : Settled Z * N :=
  if String_eqb addr (lit "SOCIALADDR") then (Fulfilled 2500000%Z, n)
  else (RejectedWith ThrownOther, n).

Definition demoSend (_ : unit) (call : SendCall N) (n : N)
  : Settled SendResult * N :=
  (Fulfilled {| txId := lit "TX" ++ N_toString n;
                confirmation_assetIndex := Some (Z.of_N n) |}, N.succ n).

Definition demoParams : AssetCreateParams :=
  {| total := 1000000; decimals := 6; assetName := lit "My Token";
     unitName := lit "MYT"; url := None; manager := None; reserve := None;
     freeze := None; clawback := None |}.

End Hooks.

(* ================================================================== *)
(** ** The Web3Auth singleton (utils/web3auth/web3authConfig.ts)       *)
(* ================================================================== *)

Module Config.
Import Js.

(** Calls that leave the repository: the two constructors, the methods of
    the Web3Auth instance, and the derivation of the Algorand account from
    a provider. *)
Inductive Event (Inst Provider : Type) : Type :=
| NewPrivateKeyProvider
| NewWeb3Auth (clientId : jsstring)
| InitModal (i : Inst)
| GetUserInfo (i : Inst)
| Logout (i : Inst)
| Connect (i : Inst)
| GetAlgorandAccount (p : Provider).
Arguments NewPrivateKeyProvider {Inst Provider}.
Arguments NewWeb3Auth {Inst Provider} clientId.
Arguments InitModal {Inst Provider} i.
Arguments GetUserInfo {Inst Provider} i.
Arguments Logout {Inst Provider} i.
Arguments Connect {Inst Provider} i.
Arguments GetAlgorandAccount {Inst Provider} p.

(** The Web3Auth SDK as the sources use it.  [S] is the state of the
    outside world (the hosted service, the browser session). *)
Record Sdk (Inst Provider UserInfo S : Type) : Type := {
  newPrivateKeyProvider : S -> Settled unit * S;
  newWeb3Auth : jsstring -> S -> Settled Inst * S;
  initModal : Inst -> S -> Settled unit * S;
  status : Inst -> S -> jsstring;
  provider : Inst -> S -> option Provider;
  getUserInfo : Inst -> S -> Settled UserInfo * S;
  logout : Inst -> S -> Settled unit * S;
  connect : Inst -> S -> Settled (option Provider) * S
}.
Arguments newPrivateKeyProvider {Inst Provider UserInfo S} _.
Arguments newWeb3Auth {Inst Provider UserInfo S} _.
Arguments initModal {Inst Provider UserInfo S} _.
Arguments status {Inst Provider UserInfo S} _.
Arguments provider {Inst Provider UserInfo S} _.
Arguments getUserInfo {Inst Provider UserInfo S} _.
Arguments logout {Inst Provider UserInfo S} _.
Arguments connect {Inst Provider UserInfo S} _.

(** The module-level variable [web3authInstance], the outside world and the
    log of calls made on it. *)
Record ModuleState (Inst Provider S : Type) : Type := {
  web3authInstance : option Inst;
  world : S;
  events : list (Event Inst Provider)
}.
Arguments web3authInstance {Inst Provider S} _.
Arguments world {Inst Provider S} _.
Arguments events {Inst Provider S} _.

Section Singleton.
Context {Inst Provider UserInfo S : Type}.
Variable sdk : Sdk Inst Provider UserInfo S.

Definition logged (m : ModuleState Inst Provider S) (w : S)
    (e : Event Inst Provider) : ModuleState Inst Provider S :=
  {| web3authInstance := web3authInstance m;
     world := w;
     events := events m ++ [e] |}.

Definition setInstance (i : Inst) (m : ModuleState Inst Provider S)
  : ModuleState Inst Provider S :=
  {| web3authInstance := Some i; world := world m; events := events m |}.

(** Truthiness of an optional string. *)
Definition truthy (v : option jsstring) : option jsstring :=
  match v with
  | Some x => if is_empty x then None else Some x
  | None => None
  end.

(** [initWeb3Auth()], with the value of [VITE_WEB3AUTH_CLIENT_ID]. *)
Definition initWeb3Auth (clientId : option jsstring)
    (m : ModuleState Inst Provider S)
  : Settled Inst * ModuleState Inst Provider S :=
  match web3authInstance m with
  | Some i => (Fulfilled i, m)
  | None =>
      match truthy clientId with
      | None =>
          (RejectedWith
             (ThrownError (lit "VITE_WEB3AUTH_CLIENT_ID is not configured")), m)
      | Some clientId =>
          let (r1, w1) := newPrivateKeyProvider sdk (world m) in
          let m1 := logged m w1 NewPrivateKeyProvider in
          match r1 with
          | RejectedWith error => (RejectedWith error, m1)
          | Fulfilled _ =>
              let (r2, w2) := newWeb3Auth sdk clientId (world m1) in
              let m2 := logged m1 w2 (NewWeb3Auth clientId) in
              match r2 with
              | RejectedWith error => (RejectedWith error, m2)
              | Fulfilled i =>
                  let m3 := setInstance i m2 in
                  let (r3, w3) := initModal sdk i (world m3) in
                  let m4 := logged m3 w3 (InitModal i) in
                  match r3 with
                  | RejectedWith error => (RejectedWith error, m4)
                  | Fulfilled _ => (Fulfilled i, m4)
                  end
              end
          end
      end
  end.

Definition getWeb3AuthInstance (m : ModuleState Inst Provider S)
  : option Inst := web3authInstance m.

(** [web3authInstance?.provider || null] *)
Definition getWeb3AuthProvider (m : ModuleState Inst Provider S)
  : option Provider :=
  match web3authInstance m with
  | Some i => provider sdk i (world m)
  | None => None
  end.

(** [web3authInstance?.status === 'connected'] *)
Definition isWeb3AuthConnected (m : ModuleState Inst Provider S) : bool :=
  match web3authInstance m with
  | Some i => String_eqb (status sdk i (world m)) (lit "connected")
  | None => false
  end.

(** [getWeb3AuthUserInfo()] *)
Definition getWeb3AuthUserInfo (m : ModuleState Inst Provider S)
  : option UserInfo * ModuleState Inst Provider S :=
  match web3authInstance m with
  | None => (None, m)
  | Some i =>
      if negb (isWeb3AuthConnected m) then (None, m)
      else
        let (r, w) := getUserInfo sdk i (world m) in
        let m' := logged m w (GetUserInfo i) in
        match r with
        | Fulfilled userInfo => (Some userInfo, m')
        | RejectedWith _ => (None, m')
        end
  end.

(** [logoutFromWeb3Auth()] *)
Definition logoutFromWeb3Auth (m : ModuleState Inst Provider S)
  : Settled unit * ModuleState Inst Provider S :=
  match web3authInstance m with
  | None => (Fulfilled tt, m)
  | Some i =>
      let (r, w) := logout sdk i (world m) in
      (r, logged m w (Logout i))
  end.
End Singleton.

End Config.

(* ================================================================== *)
(** ** The Web3Auth provider component (components/Web3AuthProvider)   *)
(* ================================================================== *)

Module Provider.
Import Js Wallet Config.

(** The component's state variables. *)
Record State (Inst Provider UserInfo : Type) : Type := {
  isInitialized : bool;
  isConnected : bool;
  isLoading : bool;
  error : option jsstring;
  provider : option Provider;
  web3AuthInstance : option Inst;
  algorandAccount : option AlgorandAccount;
  userInfo : option UserInfo
}.
Arguments isInitialized {Inst Provider UserInfo} _.
Arguments isConnected {Inst Provider UserInfo} _.
Arguments isLoading {Inst Provider UserInfo} _.
Arguments error {Inst Provider UserInfo} _.
Arguments provider {Inst Provider UserInfo} _.
Arguments web3AuthInstance {Inst Provider UserInfo} _.
Arguments algorandAccount {Inst Provider UserInfo} _.
Arguments userInfo {Inst Provider UserInfo} _.

Section Component.
Context {Inst Provider UserInfo S : Type}.
Variable sdk : Sdk Inst Provider UserInfo S.
(** [getAlgorandAccount] lives in utils/web3auth/algorandAdapter, which is
    not among the sources: it is a parameter, acting on the outside
    world. *)
Variable getAlgorandAccount : Provider -> S -> Settled AlgorandAccount * S.

Local Abbreviation St := (State Inst Provider UserInfo).
Local Abbreviation Mod := (ModuleState Inst Provider S).

(** [useState(false)] four times over, [useState(null)] for the rest. *)
Definition initialState : St :=
  {| isInitialized := false; isConnected := false; isLoading := false;
     error := None; provider := None; web3AuthInstance := None;
     algorandAccount := None; userInfo := None |}.

Definition setIsInitialized (v : bool) (st : St) : St :=
  {| isInitialized := v; isConnected := isConnected st;
     isLoading := isLoading st; error := error st; provider := provider st;
     web3AuthInstance := web3AuthInstance st;
     algorandAccount := algorandAccount st; userInfo := userInfo st |}.

Definition setIsConnected (v : bool) (st : St) : St :=
  {| isInitialized := isInitialized st; isConnected := v;
     isLoading := isLoading st; error := error st; provider := provider st;
     web3AuthInstance := web3AuthInstance st;
     algorandAccount := algorandAccount st; userInfo := userInfo st |}.

Definition setIsLoading (v : bool) (st : St) : St :=
  {| isInitialized := isInitialized st; isConnected := isConnected st;
     isLoading := v; error := error st; provider := provider st;
     web3AuthInstance := web3AuthInstance st;
     algorandAccount := algorandAccount st; userInfo := userInfo st |}.

Definition setError (v : option jsstring) (st : St) : St :=
  {| isInitialized := isInitialized st; isConnected := isConnected st;
     isLoading := isLoading st; error := v; provider := provider st;
     web3AuthInstance := web3AuthInstance st;
     algorandAccount := algorandAccount st; userInfo := userInfo st |}.

Definition setProvider (v : option Provider) (st : St) : St :=
  {| isInitialized := isInitialized st; isConnected := isConnected st;
     isLoading := isLoading st; error := error st; provider := v;
     web3AuthInstance := web3AuthInstance st;
     algorandAccount := algorandAccount st; userInfo := userInfo st |}.

Definition setWeb3AuthInstance (v : option Inst) (st : St) : St :=
  {| isInitialized := isInitialized st; isConnected := isConnected st;
     isLoading := isLoading st; error := error st; provider := provider st;
     web3AuthInstance := v;
     algorandAccount := algorandAccount st; userInfo := userInfo st |}.

Definition setAlgorandAccount (v : option AlgorandAccount) (st : St) : St :=
  {| isInitialized := isInitialized st; isConnected := isConnected st;
     isLoading := isLoading st; error := error st; provider := provider st;
     web3AuthInstance := web3AuthInstance st;
     algorandAccount := v; userInfo := userInfo st |}.

Definition setUserInfo (v : option UserInfo) (st : St) : St :=
  {| isInitialized := isInitialized st; isConnected := isConnected st;
     isLoading := isLoading st; error := error st; provider := provider st;
     web3AuthInstance := web3AuthInstance st;
     algorandAccount := algorandAccount st; userInfo := v |}.

(** [await getAlgorandAccount(provider)], logged. *)
Definition awaitAccount (p : Provider) (m : Mod)
  : Settled AlgorandAccount * Mod :=
  let (r, w) := getAlgorandAccount p (world m) in
  (r, logged m w (GetAlgorandAccount p)).

(** The two inner [try] blocks shared by start-up and login: derive the
    account (on failure set the error the caller chooses), then fetch the
    user info (kept only when there is one). *)
Definition afterConnect (p : Provider) (onDeriveError : Thrown -> jsstring)
    (st : St) (m : Mod) : St * Mod :=
  let st := setIsConnected true (setProvider (Some p) st) in
  let (ra, m1) := awaitAccount p m in
  let st :=
    match ra with
    | Fulfilled account => setAlgorandAccount (Some account) st
    | RejectedWith err => setError (Some (onDeriveError err)) st
    end in
  let (ui, m2) := getWeb3AuthUserInfo sdk m1 in
  let st :=
    match ui with
    | Some userInformation => setUserInfo (Some userInformation) st
    | None => st
    end in
  (st, m2).

(** The effect run once on mount: [initializeWeb3Auth()]. *)
Definition initializeWeb3Auth (clientId : option jsstring) (st : St) (m : Mod)
  : St * Mod :=
  let st := setError None (setIsLoading true st) in
  match initWeb3Auth sdk clientId m with
  | (RejectedWith err, m1) =>
      let errorMessage := messageOr err (lit "Failed to initialize Web3Auth") in
      (setIsLoading false (setIsInitialized true (setError (Some errorMessage) st)),
       m1)
  | (Fulfilled instance, m1) =>
      let st := setWeb3AuthInstance (Some instance) st in
      let (st, m2) :=
        match (if String_eqb (status sdk instance (world m1)) (lit "connected")
               then Config.provider sdk instance (world m1) else None) with
        | Some p =>
            afterConnect p
              (fun _ => lit "Failed to derive Algorand account. Please reconnect.")
              st m1
        | None => (st, m1)
        end in
      (setIsLoading false (setIsInitialized true st), m2)
  end.

(** [login()] *)
Definition login (st : St) (m : Mod) : St * Mod :=
  match web3AuthInstance st with
  | None => (setError (Some (lit "Web3Auth not initialized")) st, m)
  | Some inst =>
      if negb (isInitialized st) then
        (setError (Some (lit "Web3Auth is still initializing, please try again")) st,
         m)
      else
        let st := setError None (setIsLoading true st) in
        let (r, w) := connect sdk inst (world m) in
        let m1 := logged m w (Connect inst) in
        let failed (err : Thrown) (st : St) : St :=
          let errorMessage := messageOr err (lit "Login failed") in
          setAlgorandAccount None
            (setProvider None (setIsConnected false (setError (Some errorMessage) st))) in
        match r with
        | RejectedWith err => (setIsLoading false (failed err st), m1)
        | Fulfilled None =>
            (setIsLoading false
               (failed (ThrownError (lit "Failed to connect Web3Auth provider")) st),
             m1)
        | Fulfilled (Some web3authProvider) =>
            let (st, m2) :=
              afterConnect web3authProvider
                (fun err => messageOr err (lit "Failed to derive Algorand account"))
                st m1 in
            (setIsLoading false st, m2)
        end
  end.

(** [logout()] *)
Definition logout (st : St) (m : Mod) : St * Mod :=
  let st := setError None (setIsLoading true st) in
  let cleared (st : St) : St :=
    setUserInfo None
      (setAlgorandAccount None (setIsConnected false (setProvider None st))) in
  match logoutFromWeb3Auth sdk m with
  | (Fulfilled _, m1) => (setIsLoading false (cleared st), m1)
  | (RejectedWith err, m1) =>
      let errorMessage := messageOr err (lit "Logout failed") in
      (setIsLoading false (cleared (setError (Some errorMessage) st)), m1)
  end.

(** [refreshUserInfo()] *)
Definition refreshUserInfo (st : St) (m : Mod) : St * Mod :=
  match getWeb3AuthUserInfo sdk m with
  | (Some userInformation, m1) => (setUserInfo (Some userInformation) st, m1)
  | (None, m1) => (st, m1)
  end.

(** The context value handed to [useWeb3Auth()] callers, restricted to what
    the unified wallet hook reads; the callbacks are opaque. *)
Definition contextValue (st : St) : Web3AuthContext.Web3AuthContextType UserInfo unit :=
  {| Web3AuthContext.isConnected := isConnected st;
     Web3AuthContext.algorandAccount := algorandAccount st;
     Web3AuthContext.isLoading := isLoading st;
     Web3AuthContext.error := error st;
     Web3AuthContext.userInfo := userInfo st;
     Web3AuthContext.login := tt;
     Web3AuthContext.logout := tt |}.

(** What the component keeps between renders when no session is up: no
    provider and no account. *)
Definition disconnectedClean (st : St) : Prop :=
  isConnected st = false -> provider st = None /\ algorandAccount st = None.

(** The operations a user or the component itself can run. *)
Inductive Action : Type :=
| DoInitialize (clientId : option jsstring)
| DoLogin
| DoLogout
| DoRefresh.

Definition run (a : Action) (st : St) (m : Mod) : St * Mod :=
  match a with
  | DoInitialize clientId => initializeWeb3Auth clientId st m
  | DoLogin => login st m
  | DoLogout => logout st m
  | DoRefresh => refreshUserInfo st m
  end.

Fixpoint runAll (actions : list Action) (st : St) (m : Mod) : St * Mod :=
  match actions with
  | [] => (st, m)
  | a :: rest => let (st', m') := run a st m in runAll rest st' m'
  end.
End Component.

(** An SDK for the closed examples: instances and providers are numbers,
    the world counts the calls made, instance [n] is connected when [n] is
    odd, the modal of instance 4 fails to initialise, user info cannot be
    read from instance 3, logging out of instance 5 fails and instance 0
    connects to nothing. *)
Definition demoSdk : Sdk N N jsstring N :=
  {| newPrivateKeyProvider := fun w => (Fulfilled tt, N.succ w);
     newWeb3Auth := fun _ w => (Fulfilled w, N.succ w);
     initModal := fun i w =>
       if (i =? 4)%N then (RejectedWith (ThrownError (lit "modal failed")), w)
       else (Fulfilled tt, N.succ w);
     status := fun i _ => if N.odd i then lit "connected" else lit "ready";
     Config.provider := fun i _ => if N.odd i then Some i else None;
     getUserInfo := fun i w =>
       if (i =? 3)%N then (RejectedWith ThrownOther, w)
       else (Fulfilled (lit "user@example.org"), N.succ w);
     Config.logout := fun i w =>
       if (i =? 5)%N then (RejectedWith (ThrownError (lit "network down")), w)
       else (Fulfilled tt, N.succ w);
     connect := fun i w =>
       if (i =? 0)%N then (Fulfilled None, w) else (Fulfilled (Some i), N.succ w) |}.

Definition demoGetAlgorandAccount (p : N) (w : N)
  : Settled AlgorandAccount * N :=
  if (p =? 7)%N then (RejectedWith (ThrownError (lit "no private key")), w)
  else (Fulfilled (exampleAccount (KeyBytes [1; 2; 3]%N)), N.succ w).

Definition demoModule (i : option N) (w : N) : ModuleState N N N :=
  {| web3authInstance := i; world := w; events := [] |}.

End Provider.

(* ================================================================== *)
(** ** The helper hooks of hooks/useUnifiedWallet                      *)
(* ================================================================== *)

Module WalletHelpers.
Import Js Wallet.

Section Helpers.
Context {UserInfo Fn Ext Wallets W : Type}.
Variable w : Web3AuthContext.Web3AuthContextType UserInfo Fn.
Variable t : WalletContext.UseWallet Ext Wallets W.

(** Destructuring one property out of [useUnifiedWallet()]. *)
Definition pick {A : Type}
    (f : Unified.UnifiedWalletState UserInfo Fn Ext Wallets W -> A)
  : Completion A :=
  match useUnifiedWallet w t with
  | Normal r => Normal (f r)
  | Throw msg => Throw msg
  end.

Definition useActiveAddress : Completion (option jsstring) :=
  pick Unified.activeAddress.

Definition useIsWalletConnected : Completion bool :=
  pick Unified.isConnected.

Definition useWalletType : Completion (option WalletType) :=
  pick Unified.walletType.
End Helpers.

End WalletHelpers.

(* ================================================================== *)
(** * Properties                                                       *)
(* ================================================================== *)

(** ** Facts about the library fragment *)

Module JsFacts.
Import Js.

Lemma String_eqb_eq (a b : jsstring) : String_eqb a b = true <-> a = b.
Proof.
  revert b; induction a as [|x a IH]; intros [|y b]; simpl;
    try (split; [discriminate | discriminate]); try tauto.
  rewrite andb_true_iff, N.eqb_eq, IH.
  split; [intros [-> ->]; reflexivity | intros E; inversion E; auto].
Qed.

Lemma String_eqb_refl (a : jsstring) : String_eqb a a = true.
Proof. apply String_eqb_eq; reflexivity. Qed.

Lemma includes_In (arr : list jsstring) (x : jsstring) :
  includes arr x = true <-> In x arr.
Proof.
  unfold includes. rewrite existsb_exists. split.
  - intros (y & Hy & E). apply String_eqb_eq in E. subst; assumption.
  - intros H. exists x. split; [assumption | apply String_eqb_refl].
Qed.

Lemma is_empty_true (s : jsstring) : is_empty s = true <-> s = [].
Proof. destruct s; simpl; split; congruence. Qed.

Lemma is_empty_false (s : jsstring) : is_empty s = false <-> s <> [].
Proof. destruct s; simpl; split; congruence. Qed.

Lemma isDigit_not_space (c : N) : isDigit c = true -> isWhiteSpace c = false.
Proof.
  unfold isDigit, isWhiteSpace. rewrite andb_true_iff, !N.leb_le.
  intros [H1 H2]. apply orb_false_iff. split.
  - simpl. repeat (apply orb_false_iff; split); try reflexivity;
      apply N.eqb_neq; lia.
  - apply andb_false_iff. left. apply N.leb_gt. lia.
Qed.

(** A string that neither starts nor ends with white space is its own trim. *)
Lemma trimStart_head (c : N) (s : jsstring) :
  isWhiteSpace c = false -> trimStart (c :: s) = c :: s.
Proof. intros H; simpl; rewrite H; reflexivity. Qed.

Lemma trim_clean (s : jsstring) :
  Forall (fun c => isWhiteSpace c = false) s -> trim s = s.
Proof.
  intros H. unfold trim, trimEnd.
  assert (E1 : trimStart s = s).
  { destruct H as [|c s Hc _]; [reflexivity | apply trimStart_head; exact Hc]. }
  rewrite E1.
  assert (Hr : Forall (fun c => isWhiteSpace c = false) (rev s)).
  { apply Forall_forall. intros c Hc. apply in_rev in Hc.
    revert c Hc. apply Forall_forall. exact H. }
  assert (E2 : trimStart (rev s) = rev s).
  { destruct Hr as [|c r Hc _]; [reflexivity | apply trimStart_head; exact Hc]. }
  rewrite E2. apply rev_involutive.
Qed.

Lemma digitsValue_snoc (s : jsstring) (c : N) :
  digitsValue (s ++ [c]) = (10 * digitsValue s + (c - 48))%N.
Proof. unfold digitsValue. rewrite fold_left_app. reflexivity. Qed.

Lemma digitsAux_acc (f : nat) : forall n acc,
  digitsAux f n acc = digitsAux f n [] ++ acc.
Proof.
  induction f as [|f IH]; intros n acc; simpl.
  - reflexivity.
  - destruct (n / 10 =? 0)%N; [reflexivity|].
    rewrite IH, (IH _ [_]), <- app_assoc. reflexivity.
Qed.

Lemma digit_of_mod (n : N) : isDigit (48 + n mod 10)%N = true.
Proof.
  unfold isDigit. pose proof (N.mod_upper_bound n 10 ltac:(lia)) as H.
  set (r := (n mod 10)%N) in *. clearbody r.
  apply andb_true_iff; split; apply N.leb_le; lia.
Qed.

Lemma digitsAux_spec (f : nat) : forall n,
  (n < 10 ^ N.of_nat (S f))%N ->
  digitsValue (digitsAux f n []) = n
  /\ Forall (fun c => isDigit c = true) (digitsAux f n [])
  /\ digitsAux f n [] <> [].
Proof.
  assert (Small : forall n, (n < 10)%N ->
            digitsValue [(48 + n mod 10)%N] = n).
  { intros n Hn. unfold digitsValue; cbn [fold_left].
    rewrite N.mod_small by exact Hn. lia. }
  assert (DivMod : forall n, (n = 10 * (n / 10) + n mod 10 /\ n mod 10 < 10)%N).
  { intros n. split; [apply N.div_mod; lia | apply N.mod_upper_bound; lia]. }
  induction f as [|f IH]; intros n Hn.
  - simpl digitsAux. change (10 ^ N.of_nat 1)%N with 10%N in Hn.
    repeat split; [apply Small; exact Hn | | discriminate].
    constructor; [apply digit_of_mod | constructor].
  - cbn [digitsAux]. destruct (n / 10 =? 0)%N eqn:E.
    + apply N.eqb_eq in E.
      assert (n < 10)%N.
      { destruct (DivMod n) as [D1 D2]. rewrite E in D1.
        set (r := (n mod 10)%N) in *. clearbody r. lia. }
      repeat split; [apply Small; assumption | | discriminate].
      constructor; [apply digit_of_mod | constructor].
    + rewrite digitsAux_acc.
      assert (Hq : (n / 10 < 10 ^ N.of_nat (S f))%N).
      { apply N.Div0.div_lt_upper_bound.
        replace (N.of_nat (S (S f))) with (N.succ (N.of_nat (S f))) in Hn by lia.
        rewrite N.pow_succ_r' in Hn. exact Hn. }
      destruct (IH _ Hq) as (V & D & _).
      repeat split.
      * rewrite digitsValue_snoc, V.
        destruct (DivMod n) as [D1 D2].
        set (r := (n mod 10)%N) in *. set (q := (n / 10)%N) in *.
        clearbody r q. lia.
      * apply Forall_app. split; [exact D|].
        constructor; [apply digit_of_mod | constructor].
      * intros C. apply app_eq_nil in C. destruct C; discriminate.
Qed.

Lemma N_toString_spec (n : N) :
  digitsValue (N_toString n) = n
  /\ Forall (fun c => isDigit c = true) (N_toString n)
  /\ N_toString n <> [].
Proof.
  unfold N_toString. apply digitsAux_spec.
  rewrite Nat2N.inj_succ, N2Nat.id.
  apply N.lt_le_trans with (2 ^ N.size n)%N; [apply N.size_gt|].
  apply N.le_trans with (10 ^ N.size n)%N.
  - apply N.pow_le_mono_l. lia.
  - apply N.pow_le_mono_r; lia.
Qed.

End JsFacts.

(** ** formatAmount / parseAmount *)

Module AmountSpec.
Import Js JsFacts Amount.

Lemma digit_not_point (c : N) : isDigit c = true -> (c =? 46)%N = false.
Proof.
  unfold isDigit. rewrite andb_true_iff, !N.leb_le. intros [? ?].
  apply N.eqb_neq. lia.
Qed.

Lemma spanDigits_app (i rest : jsstring) :
  Forall (fun c => isDigit c = true) i ->
  match rest with [] => True | c :: _ => isDigit c = false end ->
  spanDigits (i ++ rest) = (i, rest).
Proof.
  intros Hi Hr. induction Hi as [|c i Hc _ IH]; cbn [app spanDigits].
  - destruct rest as [|c r]; [reflexivity | cbn [spanDigits]; rewrite Hr; reflexivity].
  - rewrite Hc, IH. reflexivity.
Qed.

Lemma spanDigits_inv (s : jsstring) : forall i rest,
  spanDigits s = (i, rest) ->
  s = i ++ rest /\ Forall (fun c => isDigit c = true) i.
Proof.
  induction s as [|c s IH]; cbn [spanDigits]; intros i rest E.
  - inversion E; subst. split; [reflexivity | constructor].
  - destruct (isDigit c) eqn:Hc.
    + destruct (spanDigits s) as [d r]. inversion E; subst.
      destruct (IH d rest eq_refl) as [-> Hd].
      split; [reflexivity | constructor; assumption].
    + inversion E; subst. split; [reflexivity | constructor].
Qed.

Lemma forallb_digits (s : jsstring) :
  forallb isDigit s = true <-> Forall (fun c => isDigit c = true) s.
Proof. rewrite forallb_forall, Forall_forall. tauto. Qed.

(** The regular-expression test accepts exactly the unsigned decimal
    numerals. *)
Lemma amountPattern_test_iff (s : jsstring) :
  amountPattern_test s = true <-> unsignedDecimal s.
Proof.
  unfold amountPattern_test, unsignedDecimal, digitRun. split.
  - destruct (spanDigits s) as [i rest] eqn:E.
    apply spanDigits_inv in E. destruct E as [-> Hi].
    rewrite andb_true_iff, negb_true_iff, is_empty_false.
    intros [Hne Hrest]. exists i. split; [split; assumption|].
    destruct rest as [|c f].
    + left. apply app_nil_r.
    + right. rewrite !andb_true_iff, negb_true_iff, is_empty_false in Hrest.
      destruct Hrest as [[Hc Hf] Hd]. apply N.eqb_eq in Hc. subst c.
      exists f. split; [split; [assumption | apply forallb_digits; assumption]
                        | reflexivity].
  - intros (i & [Hne Hi] & [-> | (f & [Hfne Hf] & ->)]).
    + rewrite <- (app_nil_r i) at 1.
      rewrite spanDigits_app by (assumption || exact I).
      destruct i; [congruence | reflexivity].
    + rewrite spanDigits_app by (assumption || reflexivity).
      apply forallb_digits in Hf.
      destruct i; [congruence|]. destruct f; [congruence|].
      cbn [is_empty negb andb]. rewrite N.eqb_refl. exact Hf.
Qed.

Lemma split_clean (sep : N) (s : jsstring) :
  Forall (fun c => (c =? sep)%N = false) s -> split sep s = [s].
Proof.
  induction 1 as [|c s Hc _ IH]; simpl; [reflexivity|].
  rewrite Hc, IH. reflexivity.
Qed.

Lemma split_at (sep : N) (i f : jsstring) :
  Forall (fun c => (c =? sep)%N = false) i ->
  split sep (i ++ sep :: f) = i :: split sep f.
Proof.
  induction 1 as [|c i Hc _ IH]; simpl.
  - rewrite N.eqb_refl. reflexivity.
  - rewrite Hc, IH. reflexivity.
Qed.

Lemma digits_no_point (s : jsstring) :
  Forall (fun c => isDigit c = true) s ->
  Forall (fun c => (c =? 46)%N = false) s.
Proof. apply Forall_impl. exact digit_not_point. Qed.

Lemma len_app (a b : jsstring) : len (a ++ b) = (len a + len b)%Z.
Proof. unfold len. rewrite length_app. lia. Qed.

Lemma len_repeat (c : N) (k : nat) : len (repeat c k) = Z.of_nat k.
Proof. unfold len. rewrite repeat_length. reflexivity. Qed.

Lemma digitsValue_app (a b : jsstring) :
  digitsValue (a ++ b) =
  fold_left (fun x c => (10 * x + (c - 48))%N) b (digitsValue a).
Proof. unfold digitsValue. apply fold_left_app. Qed.

Lemma digitsValue_zeros (k : nat) : digitsValue (repeat 48%N k) = 0%N.
Proof.
  induction k as [|k IH]; [reflexivity|].
  replace (S k) with (k + 1)%nat by lia.
  rewrite repeat_app. simpl repeat. rewrite digitsValue_snoc, IH. reflexivity.
Qed.

Lemma digitsValue_leading_zeros (k : nat) (s : jsstring) :
  digitsValue (repeat 48%N k ++ s) = digitsValue s.
Proof. rewrite digitsValue_app, digitsValue_zeros. reflexivity. Qed.

Lemma zeros_digits (k : nat) : Forall (fun c => isDigit c = true) (repeat 48%N k).
Proof. apply Forall_forall. intros c Hc. apply repeat_spec in Hc. subst. reflexivity. Qed.

Lemma padEnd_digits (f : jsstring) (d : Z) :
  Forall (fun c => isDigit c = true) f ->
  Forall (fun c => isDigit c = true) (padEnd f d 48).
Proof.
  intros H. unfold padEnd. destruct (d <=? len f)%Z; [assumption|].
  apply Forall_app. split; [assumption | apply zeros_digits].
Qed.

(** What [parseAmount] returns on a numeral with a fractional part that
    fits. *)
Lemma parseAmount_numeral (s i f : jsstring) (d : Z) :
  trim s = i ++ 46%N :: f -> digitRun i -> digitRun f -> (len f <= d)%Z ->
  parseAmount s d = Normal (Z.of_N (digitsValue (i ++ padEnd f d 48))).
Proof.
  intros Et [Hin Hi] [Hfn Hf] Hd. unfold parseAmount. rewrite Et.
  assert (Ht : amountPattern_test (i ++ 46%N :: f) = true).
  { apply amountPattern_test_iff. exists i. split; [split; assumption|].
    right. exists f. split; [split; assumption | reflexivity]. }
  rewrite Ht. cbn [negb].
  destruct (is_empty (i ++ 46%N :: f)) eqn:E.
  { apply is_empty_true in E. apply app_eq_nil in E. destruct E; discriminate. }
  rewrite split_at by (apply digits_no_point; assumption).
  rewrite split_clean by (apply digits_no_point; assumption).
  cbn [nth].
  destruct (len f >? d)%Z eqn:G; [apply Z.gtb_lt in G; lia|].
  unfold BigInt_ofString.
  assert (A : forallb isDigit (i ++ padEnd f d 48) = true).
  { apply forallb_digits, Forall_app. split; [assumption|].
    apply padEnd_digits; assumption. }
  rewrite A. reflexivity.
Qed.

Lemma formatted_clean (s : jsstring) :
  Forall (fun c => isDigit c = true \/ c = 46%N) s -> trim s = s.
Proof.
  intros H. apply trim_clean. revert H. apply Forall_impl.
  intros c [Hc | ->]; [apply isDigit_not_space; assumption | reflexivity].
Qed.

Lemma slice_prefix (s : jsstring) (d : Z) :
  (0 < d < len s)%Z ->
  slice s 0 (- d) = firstn (Z.to_nat (len s - d)) s.
Proof.
  intros H. unfold slice, relIndex.
  destruct (0 <? 0)%Z eqn:A; [discriminate|].
  destruct (- d <? 0)%Z eqn:B; [|apply Z.ltb_ge in B; lia].
  rewrite Z.min_l by lia. rewrite Z.max_l by lia.
  rewrite Z.add_opp_r, Z.sub_0_r. reflexivity.
Qed.

Lemma sliceFrom_suffix (s : jsstring) (d : Z) :
  (0 < d < len s)%Z ->
  sliceFrom s (- d) = skipn (Z.to_nat (len s - d)) s.
Proof.
  intros H. unfold sliceFrom, slice, relIndex.
  destruct (- d <? 0)%Z eqn:B; [|apply Z.ltb_ge in B; lia].
  destruct (len s <? 0)%Z eqn:C; [apply Z.ltb_lt in C; unfold len in *; lia|].
  rewrite Z.min_id, Z.max_l by lia. rewrite Z.add_opp_r.
  apply firstn_all2. rewrite length_skipn. unfold len in *. lia.
Qed.

Lemma padStart_spec (s : jsstring) (d : Z) :
  Forall (fun c => isDigit c = true) s -> (len s <= d)%Z ->
  Forall (fun c => isDigit c = true) (padStart s d 48)
  /\ len (padStart s d 48) = d
  /\ digitsValue (padStart s d 48) = digitsValue s.
Proof.
  intros Hs Hd. unfold padStart. destruct (d <=? len s)%Z eqn:E.
  - apply Z.leb_le in E. repeat split; [assumption | lia].
  - apply Z.leb_gt in E. repeat split.
    + apply Forall_app. split; [apply zeros_digits | assumption].
    + rewrite len_app, len_repeat. lia.
    + apply digitsValue_leading_zeros.
Qed.

Lemma padEnd_full (f : jsstring) : padEnd f (len f) 48 = f.
Proof. unfold padEnd. rewrite Z.leb_refl. reflexivity. Qed.

Lemma digitRun_len (s : jsstring) :
  Forall (fun c => isDigit c = true) s -> (0 < len s)%Z -> digitRun s.
Proof.
  intros H L. split; [|assumption]. intros ->. unfold len in L. simpl in L. lia.
Qed.

Lemma BigInt_toString_nonneg (n : Z) :
  (0 <= n)%Z -> BigInt_toString n = N_toString (Z.to_N n).
Proof.
  intros Hn. unfold BigInt_toString.
  destruct (n <? 0)%Z eqn:Neg; [apply Z.ltb_lt in Neg; lia | reflexivity].
Qed.

(** Left inverse: parsing what [formatAmount] printed gives the amount
    back, whenever the amount prints as the plain decimal digits of [n]. *)
Lemma parseAmount_formatAmount_digits (a : AmountValue) (n d : Z) :
  (0 <= n)%Z -> (0 < d)%Z -> toString a = N_toString (Z.to_N n) ->
  parseAmount (formatAmount a d) d = Normal n.
Proof.
  intros Hn Hd Pr. unfold formatAmount. rewrite Pr.
  destruct (N_toString_spec (Z.to_N n)) as (V & D & NE).
  set (s := N_toString (Z.to_N n)) in *.
  assert (Ls : (0 < len s)%Z).
  { unfold len. destruct s; [congruence | simpl; lia]. }
  destruct (len s <=? d)%Z eqn:Short.
  - apply Z.leb_le in Short.
    destruct (padStart_spec s d D Short) as (PD & PL & PV).
    set (z := padStart s d 48) in *.
    change (lit "0." ++ z) with ([48%N] ++ 46%N :: z).
    rewrite (parseAmount_numeral _ [48%N] z).
    + rewrite <- PL at 1. rewrite padEnd_full.
      change [48%N] with (repeat 48%N 1).
      rewrite (digitsValue_leading_zeros 1 z), PV, V.
      rewrite Z2N.id by assumption. reflexivity.
    + apply formatted_clean, Forall_app. split.
      * constructor; [left; reflexivity | constructor].
      * constructor; [right; reflexivity|].
        revert PD. apply Forall_impl. tauto.
    + split; [discriminate | constructor; [reflexivity | constructor]].
    + apply digitRun_len; [assumption | lia].
    + lia.
  - apply Z.leb_gt in Short.
    rewrite slice_prefix, sliceFrom_suffix by lia.
    set (k := Z.to_nat (len s - d)).
    assert (Dif : Forall (fun c => isDigit c = true) (firstn k s)
                  /\ Forall (fun c => isDigit c = true) (skipn k s)).
    { apply Forall_app. rewrite firstn_skipn. exact D. }
    destruct Dif as [Di Df].
    assert (Li : len (firstn k s) = (len s - d)%Z).
    { unfold len in *. rewrite length_firstn. lia. }
    assert (Lf : len (skipn k s) = d).
    { unfold len in *. rewrite length_skipn. lia. }
    change (firstn k s ++ lit "." ++ skipn k s)
      with (firstn k s ++ 46%N :: skipn k s).
    rewrite (parseAmount_numeral _ (firstn k s) (skipn k s)).
    + rewrite <- Lf at 1. rewrite padEnd_full, firstn_skipn, V.
      rewrite Z2N.id by assumption. reflexivity.
    + apply formatted_clean, Forall_app. split.
      * revert Di. apply Forall_impl. tauto.
      * constructor; [right; reflexivity|].
        revert Df. apply Forall_impl. tauto.
    + apply digitRun_len; [assumption | lia].
    + apply digitRun_len; [assumption | lia].
    + lia.
Qed.

Lemma parseAmount_formatAmount (n d : Z) :
  (0 <= n)%Z -> (0 < d)%Z ->
  parseAmount (formatAmount (BigIntAmount n) d) d = Normal n.
Proof.
  intros Hn Hd. apply parseAmount_formatAmount_digits; [assumption ..|].
  apply BigInt_toString_nonneg. exact Hn.
Qed.

(** Rejections, each with the message the source throws. *)
Lemma parseAmount_blank (s : jsstring) (d : Z) :
  trim s = [] -> parseAmount s d = Throw (lit "Amount is required").
Proof. intros E. unfold parseAmount. rewrite E. reflexivity. Qed.

Lemma parseAmount_not_numeral (s : jsstring) (d : Z) :
  trim s <> [] -> ~ unsignedDecimal (trim s) ->
  parseAmount s d = Throw (lit "Invalid amount format").
Proof.
  intros NE NU. unfold parseAmount.
  destruct (is_empty (trim s)) eqn:E; [apply is_empty_true in E; congruence|].
  destruct (amountPattern_test (trim s)) eqn:T; [|reflexivity].
  apply amountPattern_test_iff in T. contradiction.
Qed.

Lemma parseAmount_too_many (s i f : jsstring) (d : Z) :
  trim s = i ++ 46%N :: f -> digitRun i -> digitRun f -> (d < len f)%Z ->
  parseAmount s d =
  Throw (lit "Too many decimal places (maximum " ++ BigInt_toString d ++ lit ")").
Proof.
  intros Et [Hin Hi] [Hfn Hf] Hd. unfold parseAmount. rewrite Et.
  assert (Ht : amountPattern_test (i ++ 46%N :: f) = true).
  { apply amountPattern_test_iff. exists i. split; [split; assumption|].
    right. exists f. split; [split; assumption | reflexivity]. }
  rewrite Ht. cbn [negb].
  destruct (is_empty (i ++ 46%N :: f)) eqn:E.
  { apply is_empty_true in E. apply app_eq_nil in E. destruct E; discriminate. }
  rewrite split_at by (apply digits_no_point; assumption).
  rewrite split_clean by (apply digits_no_point; assumption).
  cbn [nth].
  destruct (len f >? d)%Z eqn:G; [reflexivity|].
  rewrite Z.gtb_ltb in G. apply Z.ltb_ge in G. lia.
Qed.

(** C10 (as amended).  [parseAmount] is a left inverse of [formatAmount]
    at positive decimals on every non-negative amount [n] passed as a
    bigint, and on every amount passed as a number that prints as the plain
    decimal digits of [n], as every safe integer does.  It throws on input
    that is empty once trimmed, on input that once trimmed is not an
    unsigned decimal numeral, and on numerals with more than [d] fractional
    digits.  Two things are amended: the amounts of the round trip are
    those that print as plain digits (a number from 10^21 on prints with an
    exponent), and surrounding white space is dropped before any test. *)
Theorem parseAmount_inverts_formatAmount_and_rejects :
  (forall n d : Z, (0 <= n)%Z -> (0 < d)%Z ->
     parseAmount (formatAmount (BigIntAmount n) d) d = Normal n)
  /\ (forall n d : Z, (0 <= n)%Z -> (0 < d)%Z ->
        parseAmount (formatAmount (NumberAmount (N_toString (Z.to_N n))) d) d
        = Normal n)
  /\ (forall s d, trim s = [] ->
        parseAmount s d = Throw (lit "Amount is required"))
  /\ (forall s d, trim s <> [] -> ~ unsignedDecimal (trim s) ->
        parseAmount s d = Throw (lit "Invalid amount format"))
  /\ (forall s i f d, trim s = i ++ 46%N :: f -> digitRun i -> digitRun f ->
        (d < len f)%Z ->
        parseAmount s d =
        Throw (lit "Too many decimal places (maximum "
               ++ BigInt_toString d ++ lit ")")).
Proof.
  split.
  { intros n d Hn Hd. apply parseAmount_formatAmount_digits; [assumption ..|].
    cbn [toString]. apply BigInt_toString_nonneg. exact Hn. }
  split.
  { intros n d Hn Hd. apply parseAmount_formatAmount_digits; [assumption ..|].
    reflexivity. }
  split; [exact parseAmount_blank|].
  split; [exact parseAmount_not_numeral | exact parseAmount_too_many].
Qed.

Lemma digitRun_dec (s : jsstring) :
  negb (is_empty s) && forallb isDigit s = true -> digitRun s.
Proof.
  rewrite andb_true_iff, negb_true_iff, is_empty_false, forallb_digits.
  intros [? ?]; split; assumption.
Qed.

(** The parts at concrete inputs: 1.5 units at six decimals as a bigint
    and as the number 1500000, a blank string, an exponent form, and seven
    fractional digits. *)
Lemma parseAmount_inverts_formatAmount_and_rejects_witness :
  parseAmount (formatAmount (BigIntAmount 1500000) 6) 6 = Normal 1500000%Z
  /\ parseAmount (formatAmount (NumberAmount (lit "1500000")) 6) 6
     = Normal 1500000%Z
  /\ parseAmount (lit "   ") 6 = Throw (lit "Amount is required")
  /\ parseAmount (lit "1e5") 6 = Throw (lit "Invalid amount format")
  /\ parseAmount (lit "1.1234567") 6 =
     Throw (lit "Too many decimal places (maximum 6)").
Proof.
  destruct parseAmount_inverts_formatAmount_and_rejects as (A & A' & B & C & D).
  split; [apply A; lia|].
  split; [apply (A' 1500000%Z 6%Z); lia|].
  split; [apply B; reflexivity|].
  split.
  - apply C; [discriminate|].
    intros U. apply amountPattern_test_iff in U. discriminate U.
  - apply (D (lit "1.1234567") (lit "1") (lit "1234567") 6%Z);
      [reflexivity | apply digitRun_dec; reflexivity
       | apply digitRun_dec; reflexivity | reflexivity].
Defined.

(** C10, counterexamples to the claim as first stated.  The number 1e21 is
    a non-negative integer amount; it prints as [1e+21], [formatAmount]
    turns that into [0.01e+21], and [parseAmount] refuses it.  And a
    numeral padded with blanks does not match an unsigned decimal numeral,
    yet is accepted. *)
Lemma exponent_amount_refused_and_blanks_accepted :
  (formatAmount (NumberAmount (lit "1e+21")) 6 = lit "0.01e+21"
   /\ parseAmount (formatAmount (NumberAmount (lit "1e+21")) 6) 6
      = Throw (lit "Invalid amount format"))
  /\ ~ unsignedDecimal (lit " 12 ")
  /\ parseAmount (lit " 12 ") 6 = Normal 12000000%Z.
Proof.
  split; [split; reflexivity|].
  split; [|reflexivity].
  intros U. apply amountPattern_test_iff in U. discriminate U.
Qed.

End AmountSpec.

(** ** The unified wallet hook *)

Module WalletSpec.
Import Js JsFacts Wallet.

Section Resolution.
Context {UserInfo Fn Ext Wallets W : Type}.
Implicit Types (w : Web3AuthContext.Web3AuthContextType UserInfo Fn)
               (t : WalletContext.UseWallet Ext Wallets W)
               (r : Unified.UnifiedWalletState UserInfo Fn Ext Wallets W).

Lemma social_guard w :
  (exists a, socialSelected w a
             /\ (if Web3AuthContext.isConnected w
                 then Web3AuthContext.algorandAccount w else None) = Some a)
  \/ (socialNotSelected w
      /\ (if Web3AuthContext.isConnected w
          then Web3AuthContext.algorandAccount w else None) = None).
Proof.
  unfold socialSelected, socialNotSelected.
  destruct (Web3AuthContext.isConnected w) eqn:C.
  - destruct (Web3AuthContext.algorandAccount w) as [a|] eqn:A.
    + left. exists a. auto.
    + right. auto.
  - right. auto.
Qed.

Lemma social_exclusive w a : socialSelected w a -> socialNotSelected w -> False.
Proof. intros [C A] [C' | A']; congruence. Qed.

Lemma createWeb3AuthSigner_ok (a : AlgorandAccount) :
  secretKey a <> KeyOther ->
  exists sk, @createWeb3AuthSigner Ext a = Normal (BasicAccountSigner (address a) sk).
Proof.
  unfold createWeb3AuthSigner. destruct (secretKey a); intros H.
  - eexists; reflexivity.
  - eexists; reflexivity.
  - congruence.
Qed.

Lemma createWeb3AuthSigner_throw (a : AlgorandAccount) :
  secretKey a = KeyOther ->
  @createWeb3AuthSigner Ext a = Throw invalidKeyMessage.
Proof. unfold createWeb3AuthSigner. intros ->. reflexivity. Qed.

Lemma truthyAddress_some (x : option jsstring) (addr : jsstring) :
  truthyAddress x = Some addr <-> x = Some addr /\ addr <> [].
Proof.
  unfold truthyAddress. destruct x as [s|].
  - destruct s as [|c s]; simpl; split.
    + discriminate.
    + intros [E H]. inversion E; subst. congruence.
    + intros E; inversion E; subst. split; [reflexivity | discriminate].
    + intros [E _]. exact E.
  - split; [discriminate | intros [E _]; discriminate].
Qed.

Lemma truthyAddress_none (x : option jsstring) :
  truthyAddress x = None <-> x = None \/ x = Some [].
Proof.
  unfold truthyAddress. destruct x as [[|c s]|]; simpl; split; auto;
    try discriminate; intros [E | E]; discriminate.
Qed.

(** The three branches, each under its guard. *)
Lemma resolve_social w t a :
  socialSelected w a -> secretKey a <> KeyOther ->
  exists sk r,
    createWeb3AuthSigner a = Normal (@BasicAccountSigner Ext (address a) sk)
    /\ useUnifiedWallet w t = Normal r
    /\ Unified.activeAddress r = Some (address a)
    /\ Unified.signer r = Some (BasicAccountSigner (address a) sk)
    /\ Unified.walletType r = Some web3auth
    /\ Unified.isLoading r = Web3AuthContext.isLoading w
    /\ Unified.error r = Web3AuthContext.error w.
Proof.
  intros [C A] K. destruct (createWeb3AuthSigner_ok a K) as [sk E].
  exists sk. unfold useUnifiedWallet. rewrite C, A, E.
  eexists. repeat split; reflexivity.
Qed.

Lemma resolve_traditional w t addr :
  socialNotSelected w ->
  WalletContext.activeAddress t = Some addr -> addr <> [] ->
  exists r,
    useUnifiedWallet w t = Normal r
    /\ Unified.activeAddress r = Some addr
    /\ Unified.signer r = Some (WalletSigner (WalletContext.transactionSigner t))
    /\ Unified.walletType r = Some traditional
    /\ Unified.isLoading r = false
    /\ Unified.error r = None
    /\ Unified.algorandAccount (Unified.web3auth r) = None.
Proof.
  intros NS A NE.
  destruct (social_guard w) as [(a & S & _) | [_ G]];
    [exfalso; eapply social_exclusive; eassumption|].
  unfold useUnifiedWallet. rewrite G.
  assert (T : truthyAddress (WalletContext.activeAddress t) = Some addr)
    by (apply truthyAddress_some; auto).
  rewrite T. eexists. repeat split; reflexivity.
Qed.

Lemma resolve_none w t :
  socialNotSelected w ->
  WalletContext.activeAddress t = None
  \/ WalletContext.activeAddress t = Some [] ->
  exists r,
    useUnifiedWallet w t = Normal r
    /\ Unified.activeAddress r = None
    /\ Unified.signer r = None
    /\ Unified.walletType r = None
    /\ Unified.isLoading r = Web3AuthContext.isLoading w
    /\ Unified.error r = Web3AuthContext.error w.
Proof.
  intros NS A.
  destruct (social_guard w) as [(a & S & _) | [_ G]];
    [exfalso; eapply social_exclusive; eassumption|].
  unfold useUnifiedWallet. rewrite G.
  apply truthyAddress_none in A. rewrite A.
  eexists. repeat split; reflexivity.
Qed.

(** Every run falls in exactly one of four cases. *)
Lemma resolve_cases w t :
  (exists a, socialSelected w a /\ secretKey a = KeyOther
             /\ useUnifiedWallet w t = Throw invalidKeyMessage)
  \/ (exists a, socialSelected w a /\ secretKey a <> KeyOther)
  \/ (socialNotSelected w
      /\ exists addr, WalletContext.activeAddress t = Some addr /\ addr <> [])
  \/ (socialNotSelected w
      /\ (WalletContext.activeAddress t = None
          \/ WalletContext.activeAddress t = Some [])).
Proof.
  destruct (social_guard w) as [(a & S & G) | [NS G]].
  - destruct (secretKey a) eqn:K.
    + right; left. exists a. split; [assumption | congruence].
    + right; left. exists a. split; [assumption | congruence].
    + left. exists a. split; [assumption|]. split; [assumption|].
      unfold useUnifiedWallet. rewrite G.
      rewrite (createWeb3AuthSigner_throw a K). reflexivity.
  - destruct (truthyAddress (WalletContext.activeAddress t)) as [addr|] eqn:T.
    + right; right; left. split; [assumption|]. exists addr.
      apply truthyAddress_some. assumption.
    + right; right; right. split; [assumption|].
      apply truthyAddress_none. assumption.
Qed.

Lemma traditional_fields w t r :
  useUnifiedWallet w t = Normal r ->
  Unified.walletType r = Some traditional ->
  Unified.isLoading r = false /\ Unified.error r = None.
Proof.
  intros H T.
  destruct (resolve_cases w t)
    as [(a & S & K & E) | [(a & S & K) | [(NS & addr & A & NE) | (NS & A)]]].
  - rewrite E in H. discriminate.
  - destruct (resolve_social w t a S K) as (sk & r' & _ & E & _ & _ & T' & _).
    rewrite E in H. inversion H; subst r'. congruence.
  - destruct (resolve_traditional w t addr NS A NE)
      as (r' & E & _ & _ & _ & L & Er & _).
    rewrite E in H. inversion H; subst r'. split; assumption.
  - destruct (resolve_none w t NS A) as (r' & E & _ & _ & T' & _).
    rewrite E in H. inversion H; subst r'. congruence.
Qed.

End Resolution.

(** C1 (as amended).  The state function of [useUnifiedWallet] is the
    three-branch precedence function.  If the social-login state is
    connected with an account whose key material is a byte sequence or a
    numeric array, the result carries that account's address, the basic
    signer over it and source [web3auth], whatever the browser wallet
    holds.  Otherwise, if the social-login branch is not selected and the
    browser wallet's active address is neither null nor the empty string,
    the result carries that address, the wallet's own signer and source
    [traditional], and exposes no social-login account.  Otherwise (no
    social-login branch, address null or empty) address, signer and source
    are all null.  So a result never carries both providers. *)
Theorem useUnifiedWallet_precedence
    {UserInfo Fn Ext Wallets W : Type}
    (w : Web3AuthContext.Web3AuthContextType UserInfo Fn)
    (t : WalletContext.UseWallet Ext Wallets W) :
  (forall a, socialSelected w a -> secretKey a <> KeyOther ->
     exists sk r,
       useUnifiedWallet w t = Normal r
       /\ Unified.activeAddress r = Some (address a)
       /\ Unified.signer r = Some (BasicAccountSigner (address a) sk)
       /\ createWeb3AuthSigner a = Normal (@BasicAccountSigner Ext (address a) sk)
       /\ Unified.walletType r = Some web3auth)
  /\ (forall addr, socialNotSelected w ->
       WalletContext.activeAddress t = Some addr -> addr <> [] ->
       exists r,
         useUnifiedWallet w t = Normal r
         /\ Unified.activeAddress r = Some addr
         /\ Unified.signer r =
            Some (WalletSigner (WalletContext.transactionSigner t))
         /\ Unified.walletType r = Some traditional
         /\ Unified.algorandAccount (Unified.web3auth r) = None)
  /\ (socialNotSelected w ->
      WalletContext.activeAddress t = None
      \/ WalletContext.activeAddress t = Some [] ->
      exists r,
        useUnifiedWallet w t = Normal r
        /\ Unified.activeAddress r = None
        /\ Unified.signer r = None
        /\ Unified.walletType r = None).
Proof.
  split; [|split].
  - intros a S K. destruct (resolve_social w t a S K) as (sk & r & H).
    exists sk, r. tauto.
  - intros addr NS A NE.
    destruct (resolve_traditional w t addr NS A NE) as (r & H).
    exists r. tauto.
  - intros NS A. destruct (resolve_none w t NS A) as (r & H).
    exists r. tauto.
Qed.

(** Both providers connected with different addresses, only the browser
    wallet connected, and neither connected. *)
Lemma useUnifiedWallet_precedence_witness :
  (exists sk r,
     useUnifiedWallet
       (socialState true (Some (exampleAccount (KeyBytes [1; 2; 3]%N))) false None)
       (walletState (Some (lit "WALLETADDR")) 7) = Normal r
     /\ Unified.activeAddress r = Some (lit "SOCIALADDR")
     /\ Unified.signer r = Some (BasicAccountSigner (lit "SOCIALADDR") sk)
     /\ createWeb3AuthSigner (exampleAccount (KeyBytes [1; 2; 3]%N)) =
        Normal (@BasicAccountSigner N (lit "SOCIALADDR") sk)
     /\ Unified.walletType r = Some web3auth)
  /\ (exists r,
        useUnifiedWallet (socialState false None false None)
          (walletState (Some (lit "WALLETADDR")) 7) = Normal r
        /\ Unified.activeAddress r = Some (lit "WALLETADDR")
        /\ Unified.signer r = Some (WalletSigner 7%N)
        /\ Unified.walletType r = Some traditional
        /\ Unified.algorandAccount (Unified.web3auth r) = None)
  /\ (exists r,
        useUnifiedWallet (socialState false None false None)
          (walletState None 7) = Normal r
        /\ Unified.activeAddress r = None
        /\ Unified.signer r = None
        /\ Unified.walletType r = None).
Proof.
  split; [|split].
  - apply (proj1 (useUnifiedWallet_precedence
                    (socialState true (Some (exampleAccount (KeyBytes [1; 2; 3]%N)))
                       false None)
                    (walletState (Some (lit "WALLETADDR")) 7))
             (exampleAccount (KeyBytes [1; 2; 3]%N))).
    + split; reflexivity.
    + discriminate.
  - apply (proj1 (proj2 (useUnifiedWallet_precedence
                           (socialState false None false None)
                           (walletState (Some (lit "WALLETADDR")) 7)))
             (lit "WALLETADDR")).
    + left; reflexivity.
    + reflexivity.
    + discriminate.
  - apply (proj2 (proj2 (useUnifiedWallet_precedence
                           (socialState false None false None)
                           (walletState None 7)))).
    + left; reflexivity.
    + left; reflexivity.
Defined.

(** C1, counterexamples to the claim as first stated.  The browser wallet
    reports an active address that is not null, the empty string, and the
    result is the disconnected one, not the traditional one.  And a
    connected social login whose key material is of neither accepted kind
    gives no result at all: resolution throws. *)
Lemma empty_active_address_resolves_to_none :
  (WalletContext.activeAddress (walletState (Some []) 7) <> None
   /\ exists r,
        useUnifiedWallet (socialState false None false None)
          (walletState (Some []) 7) = Normal r
        /\ Unified.walletType r = None
        /\ Unified.activeAddress r = None
        /\ Unified.signer r = None)
  /\ (socialSelected
        (socialState true (Some (exampleAccount KeyOther)) false None)
        (exampleAccount KeyOther)
      /\ forall r,
           useUnifiedWallet
             (socialState true (Some (exampleAccount KeyOther)) false None)
             (walletState None 7) <> Normal r).
Proof.
  split.
  - split; [discriminate|]. eexists. repeat split; reflexivity.
  - split; [split; reflexivity|]. intros r. discriminate.
Qed.

(** C5 (as amended).  Resolution throws exactly when the social-login
    branch is selected and the account's key material is neither a byte
    sequence nor a numeric array; the error is the one
    [createWeb3AuthSigner] raises, because the signer is built while the
    state is resolved.  [createWeb3AuthSigner] itself fails on exactly that
    key material.  In every other state resolution returns a value. *)
Theorem useUnifiedWallet_throws_iff
    {UserInfo Fn Ext Wallets W : Type}
    (w : Web3AuthContext.Web3AuthContextType UserInfo Fn)
    (t : WalletContext.UseWallet Ext Wallets W) :
  (forall msg,
     useUnifiedWallet w t = Throw msg <->
     msg = invalidKeyMessage
     /\ exists a, socialSelected w a /\ secretKey a = KeyOther)
  /\ (forall a : AlgorandAccount,
       (exists msg, @createWeb3AuthSigner Ext a = Throw msg) <->
       secretKey a = KeyOther)
  /\ ((forall a, socialSelected w a -> secretKey a <> KeyOther) ->
      exists r, useUnifiedWallet w t = Normal r).
Proof.
  assert (Sel : forall a a', socialSelected w a -> socialSelected w a' -> a = a').
  { intros a a' [_ A] [_ A']. congruence. }
  split; [|split].
  - intros msg.
    destruct (resolve_cases w t)
      as [(a & S & K & E) | [(a & S & K) | [(NS & addr & A & NE) | (NS & A)]]].
    + rewrite E. split.
      * intros H. inversion H; subst. split; [reflexivity|]. exists a. auto.
      * intros [-> _]. reflexivity.
    + destruct (resolve_social w t a S K) as (sk & r & _ & E & _).
      rewrite E. split; [discriminate|].
      intros [_ (a' & S' & K')]. rewrite (Sel a a' S S') in K. contradiction.
    + destruct (resolve_traditional w t addr NS A NE) as (r & E & _).
      rewrite E. split; [discriminate|].
      intros [_ (a' & S' & _)]. exfalso. eapply social_exclusive; eassumption.
    + destruct (resolve_none w t NS A) as (r & E & _).
      rewrite E. split; [discriminate|].
      intros [_ (a' & S' & _)]. exfalso. eapply social_exclusive; eassumption.
  - intros a. split.
    + intros [msg E]. unfold createWeb3AuthSigner in E.
      destruct (secretKey a); [discriminate | discriminate | reflexivity].
    + intros K. exists invalidKeyMessage. apply createWeb3AuthSigner_throw, K.
  - intros Good.
    destruct (resolve_cases w t)
      as [(a & S & K & E) | [(a & S & K) | [(NS & addr & A & NE) | (NS & A)]]].
    + exfalso. exact (Good a S K).
    + destruct (resolve_social w t a S K) as (sk & r & _ & E & _). eauto.
    + destruct (resolve_traditional w t addr NS A NE) as (r & E & _). eauto.
    + destruct (resolve_none w t NS A) as (r & E & _). eauto.
Qed.

(** A connected social login whose key is a plain array of numbers
    resolves; one whose key is something else makes resolution throw. *)
Lemma useUnifiedWallet_throws_iff_witness :
  (exists r,
     useUnifiedWallet
       (socialState true (Some (exampleAccount (KeyArray [300; 2]%Z))) false None)
       (walletState None 7) = Normal r)
  /\ useUnifiedWallet
       (socialState true (Some (exampleAccount KeyOther)) false None)
       (walletState None 7) = Throw invalidKeyMessage.
Proof.
  split.
  - apply (proj2 (proj2 (useUnifiedWallet_throws_iff
       (socialState true (Some (exampleAccount (KeyArray [300; 2]%Z))) false None)
       (walletState None 7)))).
    intros a [_ A]. inversion A; subst. discriminate.
  - apply (proj1 (useUnifiedWallet_throws_iff
       (socialState true (Some (exampleAccount KeyOther)) false None)
       (walletState None 7))).
    split; [reflexivity|]. exists (exampleAccount KeyOther).
    repeat split; reflexivity.
Defined.

(** C5, counterexample to the claim as first stated: with key material of
    neither kind the adapter throws while resolving, before any transaction
    is signed. *)
Lemma resolution_throws_on_invalid_key :
  useUnifiedWallet
    (socialState true (Some (exampleAccount KeyOther)) false None)
    (walletState (Some (lit "WALLETADDR")) 7)
  = Throw invalidKeyMessage.
Proof. reflexivity. Qed.

(** C6 (as amended).  In a resolved state the loading and error fields are
    those of the social-login state when the source is [web3auth], the
    fixed values [false] and [null] when the source is [traditional], and
    those of the social-login state when no account is active. *)
Theorem useUnifiedWallet_status
    {UserInfo Fn Ext Wallets W : Type}
    (w : Web3AuthContext.Web3AuthContextType UserInfo Fn)
    (t : WalletContext.UseWallet Ext Wallets W)
    (r : Unified.UnifiedWalletState UserInfo Fn Ext Wallets W) :
  useUnifiedWallet w t = Normal r ->
  (Unified.walletType r = Some web3auth ->
     Unified.isLoading r = Web3AuthContext.isLoading w
     /\ Unified.error r = Web3AuthContext.error w)
  /\ (Unified.walletType r = Some traditional ->
       Unified.isLoading r = false /\ Unified.error r = None)
  /\ (Unified.walletType r = None ->
       Unified.isLoading r = Web3AuthContext.isLoading w
       /\ Unified.error r = Web3AuthContext.error w).
Proof.
  intros H.
  destruct (resolve_cases w t)
    as [(a & S & K & E) | [(a & S & K) | [(NS & addr & A & NE) | (NS & A)]]].
  - rewrite E in H. discriminate.
  - destruct (resolve_social w t a S K) as (sk & r' & _ & E & _ & _ & T & L & Er).
    rewrite E in H. inversion H; subst r'.
    rewrite T, L, Er. repeat split; congruence.
  - destruct (resolve_traditional w t addr NS A NE)
      as (r' & E & _ & _ & T & L & Er & _).
    rewrite E in H. inversion H; subst r'.
    rewrite T, L, Er. repeat split; congruence.
  - destruct (resolve_none w t NS A) as (r' & E & _ & _ & T & L & Er).
    rewrite E in H. inversion H; subst r'.
    rewrite T, L, Er. repeat split; congruence.
Qed.

(** Only the browser wallet is connected while the social login reports
    loading and an error: the resolved state reports neither. *)
Lemma useUnifiedWallet_status_witness :
  exists r,
    useUnifiedWallet (socialState false None true (Some (lit "popup closed")))
      (walletState (Some (lit "WALLETADDR")) 7) = Normal r
    /\ Unified.walletType r = Some traditional
    /\ Unified.isLoading r = false
    /\ Unified.error r = None.
Proof.
  eexists. split; [reflexivity|]. split; [reflexivity|].
  apply (useUnifiedWallet_status
           (socialState false None true (Some (lit "popup closed")))
           (walletState (Some (lit "WALLETADDR")) 7));
    reflexivity.
Defined.

(** C6, against the claim as first stated: in the traditional branch the
    two fields are not taken from the browser-wallet state.  Two wallet
    states that differ in address and signer both give [false] and [null],
    and no two browser-wallet states at all give traditional results that
    differ in these fields. *)
Lemma traditional_status_ignores_wallet_state :
  (exists r1 r2,
     useUnifiedWallet (socialState false None true (Some (lit "popup closed")))
       (walletState (Some (lit "WALLETADDR")) 7) = Normal r1
     /\ useUnifiedWallet (socialState false None true (Some (lit "popup closed")))
          (walletState (Some (lit "OTHERADDR")) 8) = Normal r2
     /\ Unified.isLoading r1 = false /\ Unified.error r1 = None
     /\ Unified.isLoading r2 = false /\ Unified.error r2 = None)
  /\ ~ exists (w : Web3AuthContext.Web3AuthContextType unit N)
              (t1 t2 : WalletContext.UseWallet N unit unit)
              (r1 r2 : Unified.UnifiedWalletState unit N N unit unit),
        useUnifiedWallet w t1 = Normal r1
        /\ useUnifiedWallet w t2 = Normal r2
        /\ Unified.walletType r1 = Some traditional
        /\ Unified.walletType r2 = Some traditional
        /\ (Unified.isLoading r1 <> Unified.isLoading r2
            \/ Unified.error r1 <> Unified.error r2).
Proof.
  split.
  - do 2 eexists. repeat split; reflexivity.
  - intros (w & t1 & t2 & r1 & r2 & E1 & E2 & T1 & T2 & D).
    destruct (traditional_fields w t1 r1 E1 T1) as [L1 Er1].
    destruct (traditional_fields w t2 r2 E2 T2) as [L2 Er2].
    destruct D as [D | D]; apply D; congruence.
Qed.

End WalletSpec.

(** ** The pinning relay *)

Module RelaySpec.
Import Js JsFacts Relay.

Section Handler.
Variable JSON_parse : jsstring -> option Json.
Variable PinataState : Type.
Variable pinFileToIPFS :
  FileStream -> PinOptions -> PinataState -> Outcome PinResult * PinataState.
Variable pinJSONToIPFS :
  Metadata -> PinOptions -> PinataState -> Outcome PinResult * PinataState.

Local Abbreviation servePinImage :=
  (Relay.servePinImage JSON_parse PinataState pinFileToIPFS pinJSONToIPFS).
Local Abbreviation nameOf := Relay.nameOf.
Local Abbreviation metadataOf := (Relay.metadataOf JSON_parse).
Local Abbreviation propertiesOf := (Relay.propertiesOf JSON_parse).
Local Abbreviation lenientCase := (Relay.lenientCase JSON_parse).

Lemma serve_without_file (req : Request) (p : PinataState) :
  file req = None ->
  servePinImage req p =
  (Resolved (respond 400 (BodyError (MsgText (lit "No file uploaded")))),
   {| pinata := p; calls := [] |}).
Proof.
  intros H. unfold Relay.servePinImage, pinImage, tryCatch. rewrite H.
  reflexivity.
Qed.

(** The handler with a file, as a decision tree over the two upstream
    outcomes. *)
Lemma serve_with_file (req : Request) (f : UploadedFile) (p : PinataState) :
  file req = Some f ->
  servePinImage req p =
  match pinFileToIPFS (streamOf f) (imageOptionsOf req f) p with
  | (Rejected e, p1) =>
      (Resolved (respond 500 (BodyError (extractMessage e))),
       {| pinata := p1;
          calls := [CallPinFile (streamOf f) (imageOptionsOf req f)] |})
  | (Resolved r1, p1) =>
      match pinJSONToIPFS (metadataOf req r1) (jsonOptionsOf req) p1 with
      | (Rejected e, p2) =>
          (Resolved (respond 500 (BodyError (extractMessage e))),
           {| pinata := p2;
              calls := [CallPinFile (streamOf f) (imageOptionsOf req f);
                        CallPinJSON (metadataOf req r1) (jsonOptionsOf req)] |})
      | (Resolved r2, p2) =>
          (Resolved (respond 200 (BodyMetadataUrl (lit "ipfs://" ++ IpfsHash r2))),
           {| pinata := p2;
              calls := [CallPinFile (streamOf f) (imageOptionsOf req f);
                        CallPinJSON (metadataOf req r1) (jsonOptionsOf req)] |})
      end
  end.
Proof.
  intros H.
  unfold Relay.servePinImage, pinImage, tryCatch, bind, awaitPinFile,
    awaitPinJSON, ret. rewrite H. cbn [pinata calls app].
  fold (streamOf f). fold (Relay.nameOf req). fold (imageOptionsOf req f).
  destruct (pinFileToIPFS (streamOf f) (imageOptionsOf req f) p)
    as [[r1 | e] p1]; [|reflexivity].
  cbn [pinata calls app].
  fold (descriptionOf req). fold (Relay.propertiesOf JSON_parse req).
  fold (Relay.metadataOf JSON_parse req r1). fold (jsonOptionsOf req).
  destruct (pinJSONToIPFS (metadataOf req r1) (jsonOptionsOf req) p1)
    as [[r2 | e] p2]; reflexivity.
Qed.

(** The handler always answers, and never rejects. *)
Lemma serve_answers (req : Request) (p : PinataState) :
  exists resp w, servePinImage req p = (Resolved resp, w).
Proof.
  destruct (file req) as [f|] eqn:F.
  - rewrite (serve_with_file req f p F).
    destruct (pinFileToIPFS _ _ p) as [[r1 | e] p1]; [|eauto].
    destruct (pinJSONToIPFS _ _ p1) as [[r2 | e] p2]; eauto.
  - rewrite (serve_without_file req p F). eauto.
Qed.

Lemma pinned_document (req : Request) (p : PinataState)
    (doc : Metadata) (o : PinOptions) :
  In (CallPinJSON doc o) (calls (snd (servePinImage req p))) ->
  exists r1, doc = metadataOf req r1 /\ o = jsonOptionsOf req.
Proof.
  destruct (file req) as [f|] eqn:F.
  - rewrite (serve_with_file req f p F).
    destruct (pinFileToIPFS _ _ p) as [[r1 | e] p1].
    + destruct (pinJSONToIPFS _ _ p1) as [[r2 | e] p2]; cbn [snd calls];
        (intros [H | [H | []]]; [discriminate | inversion H; eauto]).
    + cbn [snd calls]. intros [H | []]. discriminate.
  - rewrite (serve_without_file req p F). intros [].
Qed.

Lemma no_unpin (req : Request) (p : PinataState) :
  Forall notUnpin (calls (snd (servePinImage req p))).
Proof.
  destruct (file req) as [f|] eqn:F.
  - rewrite (serve_with_file req f p F).
    destruct (pinFileToIPFS _ _ p) as [[r1 | e] p1].
    + destruct (pinJSONToIPFS _ _ p1) as [[r2 | e] p2]; cbn [snd calls];
        repeat constructor.
    + cbn [snd calls]. repeat constructor.
  - rewrite (serve_without_file req p F). constructor.
Qed.

Lemma lenient_properties (req : Request) :
  lenientCase (bodyField req properties) -> propertiesOf req = JObject [].
Proof.
  unfold Relay.propertiesOf, safeJsonParse.
  intros [-> | [[l ->] | (s & -> & [E | E])]]; try reflexivity.
  - rewrite E. reflexivity.
  - rewrite E. destruct (is_empty (trim s)); reflexivity.
Qed.

Lemma setProperties_absent (req : Request) :
  file (setProperties FAbsent req) = file req
  /\ Relay.nameOf (setProperties FAbsent req) = Relay.nameOf req
  /\ descriptionOf (setProperties FAbsent req) = descriptionOf req
  /\ propertiesOf (setProperties FAbsent req) = JObject [].
Proof. repeat split; reflexivity. Qed.

Lemma lenient_same_run (req : Request) (p : PinataState) :
  lenientCase (bodyField req properties) ->
  servePinImage req p = servePinImage (setProperties FAbsent req) p.
Proof.
  intros L. pose proof (lenient_properties req L) as P.
  destruct (setProperties_absent req) as (F' & N' & D' & P').
  destruct (file req) as [f|] eqn:F.
  - rewrite (serve_with_file req f p F).
    rewrite (serve_with_file (setProperties FAbsent req) f p)
      by exact F'.
    unfold imageOptionsOf, Relay.metadataOf, jsonOptionsOf.
    rewrite N', D', P', P. reflexivity.
  - rewrite (serve_without_file req p F).
    rewrite (serve_without_file (setProperties FAbsent req) p)
      by exact F'.
    reflexivity.
Qed.




End Handler.

(** C2.  A request to [POST /api/pin-image] without a [file] part is
    answered with status 400 and body [{error: "No file uploaded"}]; no
    call is made on the pinning client and the service is left as it was. *)
Theorem pinImage_without_file
    (JSON_parse : jsstring -> option Json) (PinataState : Type)
    (pinFileToIPFS :
       FileStream -> PinOptions -> PinataState -> Outcome PinResult * PinataState)
    (pinJSONToIPFS :
       Metadata -> PinOptions -> PinataState -> Outcome PinResult * PinataState)
    (req : Request) (p : PinataState) :
  file req = None ->
  servePinImage JSON_parse PinataState pinFileToIPFS pinJSONToIPFS req p =
  (Resolved {| statusCode := 400; headers := [];
               payload := BodyError (MsgText (lit "No file uploaded")) |},
   {| pinata := p; calls := [] |}).
Proof.
  intros NoFile.
  unfold servePinImage, pinImage, tryCatch, ret.
  rewrite NoFile. cbn [res_json res_status freshResponse].
  reflexivity.
Qed.

(** C3.  With a file, the two uploads run in sequence.  If the image pin
    rejects, the only upstream call is that pin (no metadata document is
    pinned) and the answer is 500 with the extracted message.  If the image
    pin resolves and the metadata pin rejects, the upstream calls are those
    two pins and nothing else, so the image is not unpinned, and the answer
    is 500.  No run of the handler ever issues an unpin. *)
Theorem pinImage_sequential
    (JSON_parse : jsstring -> option Json) (PinataState : Type)
    (pinFileToIPFS :
       FileStream -> PinOptions -> PinataState -> Outcome PinResult * PinataState)
    (pinJSONToIPFS :
       Metadata -> PinOptions -> PinataState -> Outcome PinResult * PinataState)
    (req : Request) (f : UploadedFile) (p : PinataState) :
  file req = Some f ->
  (forall e p1,
     pinFileToIPFS (streamOf f) (imageOptionsOf req f) p = (Rejected e, p1) ->
     servePinImage JSON_parse PinataState pinFileToIPFS pinJSONToIPFS req p =
     (Resolved {| statusCode := 500; headers := [];
                  payload := BodyError (extractMessage e) |},
      {| pinata := p1;
         calls := [CallPinFile (streamOf f) (imageOptionsOf req f)] |}))
  /\ (forall r1 p1 e p2,
       pinFileToIPFS (streamOf f) (imageOptionsOf req f) p = (Resolved r1, p1) ->
       pinJSONToIPFS (metadataOf JSON_parse req r1) (jsonOptionsOf req) p1 =
         (Rejected e, p2) ->
       servePinImage JSON_parse PinataState pinFileToIPFS pinJSONToIPFS req p =
       (Resolved {| statusCode := 500; headers := [];
                    payload := BodyError (extractMessage e) |},
        {| pinata := p2;
           calls := [CallPinFile (streamOf f) (imageOptionsOf req f);
                     CallPinJSON (metadataOf JSON_parse req r1)
                       (jsonOptionsOf req)] |}))
  /\ Forall notUnpin
       (calls (snd (servePinImage JSON_parse PinataState pinFileToIPFS
                      pinJSONToIPFS req p))).
Proof.
  intros F. split; [|split].
  - intros e p1 E. rewrite (serve_with_file _ _ _ _ req f p F), E. reflexivity.
  - intros r1 p1 e p2 E1 E2.
    rewrite (serve_with_file _ _ _ _ req f p F), E1, E2. reflexivity.
  - apply no_unpin.
Qed.

(** C7.  When [properties] is absent, not a string, empty once trimmed or
    not valid JSON, [safeJsonParse] returns the empty object and the
    request proceeds as any other.  With a file the handler goes on to the
    image pin; once that pin resolves, the document handed to the metadata
    pin is the one with [properties: {}]; when the metadata pin resolves
    too, the answer is 200 with the metadata URL.  The handler always
    answers, and an answer other than 200 has one of three causes, none of
    them the [properties] value: no file was uploaded (400), the image pin
    rejected, or the metadata pin of the document with [{}] rejected (500
    with the upstream message).  The whole run (answer, upstream calls,
    service state) is the one of the same request without a [properties]
    field, and every metadata document pinned carries [{}]. *)
Theorem properties_parsed_leniently
    (JSON_parse : jsstring -> option Json) (PinataState : Type)
    (pinFileToIPFS :
       FileStream -> PinOptions -> PinataState -> Outcome PinResult * PinataState)
    (pinJSONToIPFS :
       Metadata -> PinOptions -> PinataState -> Outcome PinResult * PinataState)
    (req : Request) (p : PinataState) :
  lenientCase JSON_parse (bodyField req properties) ->
  safeJsonParse JSON_parse (bodyField req properties) (JObject []) = JObject []
  /\ servePinImage JSON_parse PinataState pinFileToIPFS pinJSONToIPFS req p =
     servePinImage JSON_parse PinataState pinFileToIPFS pinJSONToIPFS
       (setProperties FAbsent req) p
  /\ (forall doc o,
       In (CallPinJSON doc o)
          (calls (snd (servePinImage JSON_parse PinataState pinFileToIPFS
                         pinJSONToIPFS req p))) ->
       meta_properties doc = JObject [])
  /\ (forall f, file req = Some f ->
       exists rest,
         calls (snd (servePinImage JSON_parse PinataState pinFileToIPFS
                       pinJSONToIPFS req p)) =
         CallPinFile (streamOf f) (imageOptionsOf req f) :: rest)
  /\ (forall f r1 p1 r2 p2,
       file req = Some f ->
       pinFileToIPFS (streamOf f) (imageOptionsOf req f) p = (Resolved r1, p1) ->
       pinJSONToIPFS
         {| name := nameOf req;
            description := descriptionOf req;
            image := lit "ipfs://" ++ IpfsHash r1;
            meta_properties := JObject [] |}
         (jsonOptionsOf req) p1 = (Resolved r2, p2) ->
       servePinImage JSON_parse PinataState pinFileToIPFS pinJSONToIPFS req p =
       (Resolved {| statusCode := 200; headers := [];
                    payload := BodyMetadataUrl (lit "ipfs://" ++ IpfsHash r2) |},
        {| pinata := p2;
           calls := [CallPinFile (streamOf f) (imageOptionsOf req f);
                     CallPinJSON
                       {| name := nameOf req;
                          description := descriptionOf req;
                          image := lit "ipfs://" ++ IpfsHash r1;
                          meta_properties := JObject [] |}
                       (jsonOptionsOf req)] |}))
  /\ (exists resp w,
       servePinImage JSON_parse PinataState pinFileToIPFS pinJSONToIPFS req p =
       (Resolved resp, w))
  /\ (forall resp w,
       servePinImage JSON_parse PinataState pinFileToIPFS pinJSONToIPFS req p =
       (Resolved resp, w) ->
       statusCode resp <> 200%Z ->
       (file req = None
        /\ resp = {| statusCode := 400; headers := [];
                     payload := BodyError (MsgText (lit "No file uploaded")) |})
       \/ (exists f e p1,
            file req = Some f
            /\ pinFileToIPFS (streamOf f) (imageOptionsOf req f) p
               = (Rejected e, p1)
            /\ resp = {| statusCode := 500; headers := [];
                         payload := BodyError (extractMessage e) |})
       \/ (exists f r1 p1 e p2,
            file req = Some f
            /\ pinFileToIPFS (streamOf f) (imageOptionsOf req f) p
               = (Resolved r1, p1)
            /\ pinJSONToIPFS
                 {| name := nameOf req;
                    description := descriptionOf req;
                    image := lit "ipfs://" ++ IpfsHash r1;
                    meta_properties := JObject [] |}
                 (jsonOptionsOf req) p1 = (Rejected e, p2)
            /\ resp = {| statusCode := 500; headers := [];
                         payload := BodyError (extractMessage e) |})).
Proof.
  intros L. pose proof (lenient_properties JSON_parse req L) as P.
  assert (Doc : forall r1,
            metadataOf JSON_parse req r1 =
            {| name := nameOf req;
               description := descriptionOf req;
               image := lit "ipfs://" ++ IpfsHash r1;
               meta_properties := JObject [] |}).
  { intros r1. unfold metadataOf. rewrite P. reflexivity. }
  split; [exact P|]. split; [apply lenient_same_run; exact L|]. split.
  { intros doc o H. apply pinned_document in H. destruct H as (r1 & -> & _).
    exact P. }
  split.
  { intros f F. rewrite (serve_with_file _ _ _ _ req f p F).
    destruct (pinFileToIPFS _ _ p) as [[r1 | e] p1]; [|eexists; reflexivity].
    destruct (pinJSONToIPFS _ _ p1) as [[r2 | e] p2]; eexists; reflexivity. }
  split.
  { intros f r1 p1 r2 p2 F E1 E2.
    rewrite (serve_with_file _ _ _ _ req f p F), E1, Doc, E2. reflexivity. }
  split; [apply serve_answers|].
  intros resp w E Bad.
  destruct (file req) as [f|] eqn:F.
  - rewrite (serve_with_file _ _ _ _ req f p F) in E.
    destruct (pinFileToIPFS (streamOf f) (imageOptionsOf req f) p)
      as [[r1 | e] p1] eqn:E1.
    + rewrite Doc in E.
      destruct (pinJSONToIPFS _ (jsonOptionsOf req) p1) as [[r2 | e] p2] eqn:E2;
        inversion E; subst resp.
      * cbn in Bad. congruence.
      * right; right. exists f, r1, p1, e, p2.
        split; [reflexivity|]. split; [exact E1|].
        split; [exact E2 | reflexivity].
    + inversion E; subst resp. right; left. exists f, e, p1.
      split; [reflexivity|]. split; [exact E1 | reflexivity].
  - rewrite (serve_without_file _ _ _ _ req p F) in E. inversion E; subst resp.
    left. split; reflexivity.
Qed.


(** A form with text fields only. *)
Lemma pinImage_without_file_witness :
  servePinImage tinyJsonParse N demoPinFile demoPinJSON
    (exampleRequest None (FText (lit "Deed")) FAbsent FAbsent) 0%N =
  (Resolved {| statusCode := 400; headers := [];
               payload := BodyError (MsgText (lit "No file uploaded")) |},
   {| pinata := 0%N; calls := [] |}).
Proof.
  apply (pinImage_without_file tinyJsonParse N demoPinFile demoPinJSON
           (exampleRequest None (FText (lit "Deed")) FAbsent FAbsent) 0%N).
  reflexivity.
Defined.

(** An empty upload, whose image pin is refused; and an image that is
    pinned followed by a document that is refused. *)
Lemma pinImage_sequential_witness :
  servePinImage tinyJsonParse N demoPinFile demoPinJSON
    (exampleRequest (Some emptyUpload) FAbsent FAbsent FAbsent) 0%N =
  (Resolved {| statusCode := 500; headers := [];
               payload := BodyError (MsgText (lit "empty file")) |},
   {| pinata := 0%N;
      calls := [CallPinFile (streamOf emptyUpload)
                  {| pinataMetadata_name := lit "empty.bin" |}] |})
  /\ servePinImage tinyJsonParse N demoPinFile demoPinJSON
       (exampleRequest (Some examplePng) (FText (lit "!deed")) FAbsent FAbsent)
       0%N =
     (Resolved {| statusCode := 500; headers := [];
                  payload := BodyError (MsgText (lit "bad name")) |},
      {| pinata := 1%N;
         calls := [CallPinFile (streamOf examplePng)
                     {| pinataMetadata_name := lit "deed.png" |};
                   CallPinJSON
                     {| name := lit "!deed";
                        description := lit "This is an unchangeable NFT";
                        image := lit "ipfs://Qm0";
                        meta_properties := JObject [] |}
                     {| pinataMetadata_name := lit "!deed Metadata" |}] |}).
Proof.
  split.
  - apply (proj1 (pinImage_sequential tinyJsonParse N demoPinFile demoPinJSON
                    (exampleRequest (Some emptyUpload) FAbsent FAbsent FAbsent)
                    emptyUpload 0%N eq_refl)
             (demoError "empty file") 0%N).
    reflexivity.
  - apply (proj1 (proj2 (pinImage_sequential tinyJsonParse N demoPinFile
                           demoPinJSON
                           (exampleRequest (Some examplePng)
                              (FText (lit "!deed")) FAbsent FAbsent)
                           examplePng 0%N eq_refl))
             {| IpfsHash := lit "Qm0" |} 1%N (demoError "bad name") 1%N);
      reflexivity.
Defined.

(** [properties = "not json"]: the value is [{}], the document pinned
    carries it, and the request is answered with 200. *)
Lemma properties_parsed_leniently_witness :
  safeJsonParse tinyJsonParse (FText (lit "not json")) (JObject []) = JObject []
  /\ servePinImage tinyJsonParse N demoPinFile demoPinJSON
       (exampleRequest (Some examplePng) FAbsent FAbsent
          (FText (lit "not json"))) 0%N =
     (Resolved {| statusCode := 200; headers := [];
                  payload := BodyMetadataUrl (lit "ipfs://Qm1") |},
      {| pinata := 2%N;
         calls := [CallPinFile (streamOf examplePng)
                     {| pinataMetadata_name := lit "deed.png" |};
                   CallPinJSON
                     {| name := lit "NFT Example";
                        description := lit "This is an unchangeable NFT";
                        image := lit "ipfs://Qm0";
                        meta_properties := JObject [] |}
                     {| pinataMetadata_name := lit "NFT Example Metadata" |}] |}).
Proof.
  destruct (properties_parsed_leniently tinyJsonParse N demoPinFile demoPinJSON
              (exampleRequest (Some examplePng) FAbsent FAbsent
                 (FText (lit "not json"))) 0%N) as (A & _ & _ & _ & B & _).
  { right; right. exists (lit "not json"). split; [reflexivity|].
    right. reflexivity. }
  split; [exact A|].
  apply (B examplePng {| IpfsHash := lit "Qm0" |} 1%N
           {| IpfsHash := lit "Qm1" |} 2%N); reflexivity.
Defined.


(** ** CORS and health *)

Lemma endsWith_iff (s suffix : jsstring) :
  endsWith s suffix = true <-> exists pre, s = pre ++ suffix.
Proof.
  unfold endsWith. rewrite andb_true_iff, String_eqb_eq, Nat.leb_le. split.
  - intros [E _]. exists (firstn (length s - length suffix) s).
    transitivity (firstn (length s - length suffix) s
                  ++ skipn (length s - length suffix) s).
    + symmetry. apply firstn_skipn.
    + f_equal. exact E.
  - intros [pre ->]. rewrite length_app. split; [|lia].
    replace (length pre + length suffix - length suffix)%nat
      with (length pre + 0)%nat by lia.
    rewrite skipn_app, skipn_all2 by lia.
    replace (length pre + 0 - length pre)%nat with 0%nat by lia.
    reflexivity.
Qed.

Lemma vercel_rule (URL_hostname : jsstring -> option jsstring) (o : jsstring) :
  match URL_hostname o with
  | Some host => if endsWith host (lit ".vercel.app") then true else false
  | None => false
  end = true <-> onVercelApp URL_hostname o.
Proof.
  unfold onVercelApp. destruct (URL_hostname o) as [host|].
  - destruct (endsWith host (lit ".vercel.app")) eqn:E.
    + apply endsWith_iff in E. destruct E as [pre ->].
      split; [intros _; exists (pre ++ lit ".vercel.app"), pre; auto | reflexivity].
    + split; [discriminate|]. intros (h & pre & H & ->). inversion H; subst.
      assert (T : endsWith (pre ++ lit ".vercel.app") (lit ".vercel.app") = true)
        by (apply endsWith_iff; eauto).
      congruence.
  - split; [discriminate | intros (h & pre & H & _); discriminate].
Qed.

(** C4 (as amended).  A request whose origin is absent (or empty) is
    always allowed.  Otherwise, in the variant deployable on Vercel the
    origin is allowed exactly when it is in the allow-list or its hostname
    ends with [.vercel.app]; in the variant configured by
    [ALLOWED_ORIGINS] it is allowed exactly when the allow-list holds the
    wildcard entry, or the origin is in the allow-list, or its hostname
    ends with [.vercel.app].  Every other origin is rejected. *)
Theorem cors_origin_decision
    (URL_hostname : jsstring -> option jsstring) (allowed : list jsstring) :
  (corsOrigin URL_hostname allowed None = true
   /\ corsOrigin URL_hostname allowed (Some []) = true
   /\ corsOriginWildcard URL_hostname allowed None = true
   /\ corsOriginWildcard URL_hostname allowed (Some []) = true)
  /\ (forall o, o <> [] ->
       (corsOrigin URL_hostname allowed (Some o) = true <->
        In o allowed \/ onVercelApp URL_hostname o))
  /\ (forall o, o <> [] ->
       (corsOriginWildcard URL_hostname allowed (Some o) = true <->
        In (lit "*") allowed \/ In o allowed \/ onVercelApp URL_hostname o)).
Proof.
  split; [repeat split; reflexivity|]. split.
  - intros o NE. unfold corsOrigin.
    destruct (is_empty o) eqn:E; [apply is_empty_true in E; congruence|].
    destruct (includes allowed o) eqn:I.
    + apply includes_In in I. tauto.
    + rewrite vercel_rule. split; [tauto|]. intros [H | H]; [|exact H].
      apply includes_In in H. congruence.
  - intros o NE. unfold corsOriginWildcard.
    destruct (is_empty o) eqn:E; [apply is_empty_true in E; congruence|].
    destruct (includes allowed (lit "*")) eqn:S.
    { apply includes_In in S. tauto. }
    destruct (includes allowed o) eqn:I.
    + apply includes_In in I. tauto.
    + rewrite vercel_rule. split; [tauto|].
      intros [H | [H | H]]; [| |exact H]; apply includes_In in H; congruence.
Qed.

(** A preview deployment of a fork is let in by the hosting rule, the
    local development origin by the list. *)
Lemma cors_origin_decision_witness :
  corsOrigin originHostname
    (allowedOrigins {| ALLOWED_ORIGINS := None; FRONTEND_ORIGIN := None |})
    (Some (lit "https://fork-123.vercel.app")) = true
  /\ corsOriginWildcard originHostname
       (allowedOriginsWildcard
          {| ALLOWED_ORIGINS := Some (lit "http://localhost:5173, https://rwa.example");
             FRONTEND_ORIGIN := None |})
       (Some (lit "https://rwa.example")) = true.
Proof.
  split.
  - apply (proj1 (proj2 (cors_origin_decision originHostname
             (allowedOrigins {| ALLOWED_ORIGINS := None; FRONTEND_ORIGIN := None |})))
             (lit "https://fork-123.vercel.app")).
    + discriminate.
    + right. exists (lit "fork-123.vercel.app"), (lit "fork-123").
      split; reflexivity.
  - apply (proj2 (proj2 (cors_origin_decision originHostname
             (allowedOriginsWildcard
                {| ALLOWED_ORIGINS := Some (lit "http://localhost:5173, https://rwa.example");
                   FRONTEND_ORIGIN := None |})))
             (lit "https://rwa.example")).
    + discriminate.
    + right; left. right; left. reflexivity.
Defined.

(** C4, counterexample to the claim as first stated: with
    [ALLOWED_ORIGINS] unset the allow-list is the wildcard alone, and an
    origin that is neither listed nor on [vercel.app] is allowed. *)
Lemma wildcard_allows_unlisted_origin :
  allowedOriginsWildcard {| ALLOWED_ORIGINS := None; FRONTEND_ORIGIN := None |}
    = [lit "*"]
  /\ corsOriginWildcard originHostname [lit "*"]
       (Some (lit "http://evil.example")) = true
  /\ ~ In (lit "http://evil.example") [lit "*"]
  /\ originHostname (lit "http://evil.example") = Some (lit "evil.example")
  /\ endsWith (lit "evil.example") (lit ".vercel.app") = false.
Proof.
  repeat split; try reflexivity. intros [H | []]. discriminate H.
Qed.

Lemma tsValues_health (h : Z -> Response) (clock : list Z) :
  (forall now, tsOf (h now) = Some now) ->
  tsValues (healthCalls h clock) = clock.
Proof.
  intros H. unfold tsValues, healthCalls.
  induction clock as [|c clock IH]; [reflexivity|].
  cbn [map flat_map]. rewrite H, IH. reflexivity.
Qed.

(** C9 (as amended).  Each call of [GET /health] is answered with status
    200, body [{ok: true, ts}] and the header [Cache-Control: no-store],
    where [ts] is the wall-clock reading taken during the call; so over
    repeated calls the [ts] values are the successive clock readings, and
    they are non-decreasing whenever those readings are. *)
Theorem health_response :
  (forall now,
     health now =
       {| statusCode := 200;
          headers := [(lit "Cache-Control", lit "no-store")];
          payload := BodyHealth true now |}
     /\ healthWildcard now = health now)
  /\ (forall clock,
       tsValues (healthCalls health clock) = clock
       /\ tsValues (healthCalls healthWildcard clock) = clock)
  /\ (forall clock, Sorted Z.le clock ->
       Sorted Z.le (tsValues (healthCalls health clock))
       /\ Sorted Z.le (tsValues (healthCalls healthWildcard clock))).
Proof.
  assert (T : forall clock,
             tsValues (healthCalls health clock) = clock
             /\ tsValues (healthCalls healthWildcard clock) = clock).
  { intros clock. split; apply tsValues_health; reflexivity. }
  split; [intros now; split; reflexivity|]. split; [exact T|].
  intros clock S. destruct (T clock) as [-> ->]. split; exact S.
Qed.

(** Three calls, two of them within the same millisecond. *)
Lemma health_response_witness :
  Sorted Z.le (tsValues (healthCalls health
                 [1700000000000; 1700000000000; 1700000000250]%Z)).
Proof.
  apply (proj2 (proj2 health_response)
           [1700000000000; 1700000000000; 1700000000250]%Z).
  repeat constructor; apply Z.leb_le; reflexivity.
Defined.

(** C9, counterexample to the claim as first stated: when the wall clock is
    set back between two calls, the second [ts] is smaller than the
    first. *)
Lemma health_ts_decreases_with_clock :
  tsValues (healthCalls health [1700000000500; 1700000000100]%Z)
    = [1700000000500; 1700000000100]%Z
  /\ ~ Sorted Z.le (tsValues (healthCalls health
                      [1700000000500; 1700000000100]%Z)).
Proof.
  split; [reflexivity|]. intros S. cbn in S.
  inversion S as [|a l _ H]; subst. inversion H as [|b l' Hle]; subst.
  apply Z.leb_le in Hle. discriminate Hle.
Qed.

End RelaySpec.

(* ================================================================== *)
(** * Further properties                                               *)
(* ================================================================== *)

(** ** More on formatAmount / parseAmount *)

Module AmountMore.
Import Js JsFacts Amount AmountSpec.

Lemma digitsValue_shift (a b : jsstring) :
  digitsValue (a ++ b) =
  (digitsValue a * 10 ^ N.of_nat (length b) + digitsValue b)%N.
Proof.
  induction b as [|c b IH] using rev_ind.
  - rewrite app_nil_r. cbn. lia.
  - rewrite app_assoc, !digitsValue_snoc, IH, length_app. cbn [length].
    replace (N.of_nat (length b + 1)) with (N.succ (N.of_nat (length b))) by lia.
    rewrite N.pow_succ_r'. lia.
Qed.

Lemma digitsValue_bound (b : jsstring) :
  Forall (fun c => isDigit c = true) b ->
  (digitsValue b < 10 ^ N.of_nat (length b))%N.
Proof.
  induction b as [|c b IH] using rev_ind; intros H.
  - cbn. lia.
  - apply Forall_app in H. destruct H as [Hb Hc].
    inversion Hc as [|? ? Dc _]; subst.
    unfold isDigit in Dc. rewrite andb_true_iff, !N.leb_le in Dc.
    rewrite digitsValue_snoc, length_app. cbn [length].
    replace (N.of_nat (length b + 1)) with (N.succ (N.of_nat (length b))) by lia.
    rewrite N.pow_succ_r'. specialize (IH Hb). lia.
Qed.

Lemma len_nonneg (s : jsstring) : (0 <= len s)%Z.
Proof. unfold len. lia. Qed.

Lemma pow10_N_Z (k : nat) : Z.of_N (10 ^ N.of_nat k) = (10 ^ Z.of_nat k)%Z.
Proof. rewrite N2Z.inj_pow. rewrite nat_N_Z. reflexivity. Qed.

Lemma padEnd_zeros (f : jsstring) (d : Z) :
  (len f <= d)%Z -> padEnd f d 48 = f ++ repeat 48%N (Z.to_nat (d - len f)).
Proof.
  intros H. unfold padEnd. destruct (d <=? len f)%Z eqn:E; [|reflexivity].
  apply Z.leb_le in E. replace (d - len f)%Z with 0%Z by lia.
  cbn. symmetry. apply app_nil_r.
Qed.

(** The value of a numeral once padded to [d] fractional digits. *)
Lemma padded_value (i f : jsstring) (d : Z) :
  (len f <= d)%Z ->
  Z.of_N (digitsValue (i ++ padEnd f d 48)) =
  (Z.of_N (digitsValue i) * 10 ^ d
   + Z.of_N (digitsValue f) * 10 ^ (d - len f))%Z.
Proof.
  intros H. rewrite padEnd_zeros by exact H.
  rewrite app_assoc, digitsValue_shift, digitsValue_zeros, repeat_length.
  rewrite digitsValue_shift. rewrite N.add_0_r.
  rewrite N2Z.inj_mul, N2Z.inj_add, N2Z.inj_mul, !pow10_N_Z.
  rewrite Z2Nat.id by lia. unfold len in *.
  replace d with (Z.of_nat (length f) + (d - Z.of_nat (length f)))%Z at 2 by lia.
  rewrite Z.pow_add_r by lia. ring.
Qed.

Lemma parseAmount_fraction_value (s i f : jsstring) (d : Z) :
  digitRun i -> trim s = i ++ 46%N :: f -> digitRun f -> (len f <= d)%Z ->
  parseAmount s d =
  Normal (Z.of_N (digitsValue i) * 10 ^ d
          + Z.of_N (digitsValue f) * 10 ^ (d - len f))%Z.
Proof.
  intros Hi Et Hf Hd.
  rewrite (parseAmount_numeral s i f d Et Hi Hf Hd).
  rewrite padded_value by exact Hd. reflexivity.
Qed.

Lemma parseAmount_integer_value (s i : jsstring) (d : Z) :
  digitRun i -> trim s = i -> (0 <= d)%Z ->
  parseAmount s d = Normal (Z.of_N (digitsValue i) * 10 ^ d)%Z.
Proof.
  intros Hi Et Hd. destruct Hi as [Hne Hdi]. unfold parseAmount. rewrite Et.
  assert (Ht : amountPattern_test i = true).
  { apply amountPattern_test_iff. exists i. split; [split; assumption|].
    left. reflexivity. }
  rewrite Ht. cbn [negb].
  destruct (is_empty i) eqn:E; [apply is_empty_true in E; congruence|].
  rewrite split_clean by (apply digits_no_point; assumption).
  cbn [nth]. change (len []) with 0%Z.
  destruct (0 >? d)%Z eqn:G; [apply Z.gtb_lt in G; lia|].
  unfold BigInt_ofString.
  assert (A : forallb isDigit (i ++ padEnd [] d 48) = true).
  { apply forallb_digits, Forall_app. split; [assumption|].
    apply padEnd_digits. constructor. }
  rewrite A. f_equal.
  rewrite (padded_value i [] d) by (change (len []) with 0%Z; lia).
  cbn [digitsValue fold_left]. change (Z.of_N 0) with 0%Z. lia.
Qed.

(** X2.  On a numeral with integer digits [i] and fractional digits [f]
    that fit in [d] places, [parseAmount] returns
    [i * 10^d + f * 10^(d - |f|)]; on a numeral without a point, and
    [d >= 0], it returns [i * 10^d]. *)
Theorem parseAmount_value (s i : jsstring) (d : Z) :
  digitRun i ->
  (forall f, trim s = i ++ 46%N :: f -> digitRun f -> (len f <= d)%Z ->
     parseAmount s d =
     Normal (Z.of_N (digitsValue i) * 10 ^ d
             + Z.of_N (digitsValue f) * 10 ^ (d - len f))%Z)
  /\ (trim s = i -> (0 <= d)%Z ->
      parseAmount s d = Normal (Z.of_N (digitsValue i) * 10 ^ d)%Z).
Proof.
  intros Hi. split.
  - intros f Et Hf Hd. apply parseAmount_fraction_value; assumption.
  - intros Et Hd. apply parseAmount_integer_value; assumption.
Qed.

Lemma parseAmount_value_witness :
  parseAmount (lit " 12.5 ") 6 = Normal 12500000%Z
  /\ parseAmount (lit "7") 3 = Normal 7000%Z.
Proof.
  split.
  - apply (proj1 (parseAmount_value (lit " 12.5 ") (lit "12") 6
                    ltac:(apply digitRun_dec; reflexivity)) (lit "5"));
      [reflexivity | apply digitRun_dec; reflexivity
       | apply Z.leb_le; reflexivity].
  - apply (proj2 (parseAmount_value (lit "7") (lit "7") 3
                    ltac:(apply digitRun_dec; reflexivity)));
      [reflexivity | apply Z.leb_le; reflexivity].
Defined.

Lemma relIndex_range (n k : Z) : (0 <= n)%Z -> (0 <= relIndex n k <= n)%Z.
Proof.
  intros H. unfold relIndex.
  destruct (k <? 0)%Z eqn:E; [apply Z.ltb_lt in E | apply Z.ltb_ge in E]; lia.
Qed.

(** The two slices of the long branch of [formatAmount] cut the rendering
    at one index, whatever [d] is. *)
Lemma long_branch_cut (s : jsstring) (d : Z) :
  let k := Z.to_nat (relIndex (len s) (- d)) in
  slice s 0 (- d) = firstn k s /\ sliceFrom s (- d) = skipn k s.
Proof.
  intros k. pose proof (len_nonneg s) as L.
  pose proof (relIndex_range (len s) (- d) L) as R.
  unfold sliceFrom, slice.
  assert (E0 : relIndex (len s) 0 = 0%Z).
  { unfold relIndex. cbn. lia. }
  assert (EL : relIndex (len s) (len s) = len s).
  { unfold relIndex. destruct (len s <? 0)%Z eqn:C;
      [apply Z.ltb_lt in C; lia | lia]. }
  rewrite E0, EL. split.
  - rewrite Z.sub_0_r. reflexivity.
  - apply firstn_all2. rewrite length_skipn. unfold len in *. lia.
Qed.

(** The print-out of [formatAmount] on an amount that prints as the plain
    decimal digits of [n]. *)
Lemma formatAmount_digits_shape (a : AmountValue) (n d : Z) :
  (0 <= n)%Z -> (0 < d)%Z -> toString a = N_toString (Z.to_N n) ->
  exists i f,
    formatAmount a d = i ++ 46%N :: f
    /\ digitRun i /\ digitRun f /\ len f = d
    /\ Z.of_N (digitsValue i) = (n / 10 ^ d)%Z
    /\ Z.of_N (digitsValue f) = (n mod 10 ^ d)%Z.
Proof.
  intros Hn Hd Pr. unfold formatAmount. rewrite Pr.
  destruct (N_toString_spec (Z.to_N n)) as (V & D & NE).
  set (s := N_toString (Z.to_N n)) in *.
  assert (Ls : (0 < len s)%Z).
  { unfold len. destruct s; [congruence | simpl; lia]. }
  assert (Split : forall i f, i ++ f = s \/ (digitsValue i = 0%N
                                            /\ digitsValue f = digitsValue s) ->
            Forall (fun c => isDigit c = true) f -> len f = d ->
            Z.of_N (digitsValue i) = (n / 10 ^ d)%Z
            /\ Z.of_N (digitsValue f) = (n mod 10 ^ d)%Z).
  { intros i f Hif Df Lf.
    assert (B : (Z.of_N (digitsValue f) < 10 ^ d)%Z).
    { pose proof (digitsValue_bound f Df) as B. apply N2Z.inj_lt in B.
      rewrite pow10_N_Z in B. unfold len in Lf. rewrite Lf in B. exact B. }
    assert (E : n = (10 ^ d * Z.of_N (digitsValue i) + Z.of_N (digitsValue f))%Z).
    { destruct Hif as [Hif | [Zi Zf]].
      - rewrite <- (Z2N.id n Hn), <- V, <- Hif, digitsValue_shift.
        rewrite N2Z.inj_add, N2Z.inj_mul, pow10_N_Z.
        unfold len in Lf. rewrite Lf. ring.
      - rewrite Zi, Zf, V, Z2N.id by assumption. cbn. lia. }
    pose proof (N2Z.is_nonneg (digitsValue f)) as P.
    split.
    - apply (Z.div_unique n (10 ^ d) _ (Z.of_N (digitsValue f)));
        [left; lia | exact E].
    - apply (Z.mod_unique n (10 ^ d) (Z.of_N (digitsValue i)));
        [left; lia | exact E]. }
  destruct (len s <=? d)%Z eqn:Short.
  - apply Z.leb_le in Short.
    destruct (padStart_spec s d D Short) as (PD & PL & PV).
    exists [48%N], (padStart s d 48).
    split; [reflexivity|].
    split; [split; [discriminate | constructor; [reflexivity | constructor]]|].
    split; [apply digitRun_len; [assumption | lia]|].
    split; [exact PL|].
    apply Split; [right; split; [reflexivity | exact PV] | exact PD | exact PL].
  - apply Z.leb_gt in Short.
    rewrite slice_prefix, sliceFrom_suffix by lia.
    set (k := Z.to_nat (len s - d)).
    assert (Dif : Forall (fun c => isDigit c = true) (firstn k s)
                  /\ Forall (fun c => isDigit c = true) (skipn k s)).
    { apply Forall_app. rewrite firstn_skipn. exact D. }
    destruct Dif as [Di Df].
    assert (Li : len (firstn k s) = (len s - d)%Z).
    { unfold len in *. rewrite length_firstn. lia. }
    assert (Lf : len (skipn k s) = d).
    { unfold len in *. rewrite length_skipn. lia. }
    exists (firstn k s), (skipn k s).
    split; [reflexivity|].
    split; [apply digitRun_len; [assumption | lia]|].
    split; [apply digitRun_len; [assumption | lia]|].
    split; [exact Lf|].
    apply Split; [left; apply firstn_skipn | exact Df | exact Lf].
Qed.

(** Counting the code units of a class [p] that holds no digit and holds
    the point: [formatAmount] adds exactly one to what the amount printed,
    and a numeral has at most one. *)
Section Marked.
Variable p : N -> bool.
Hypothesis p_not_digit : forall c, p c = true -> isDigit c = false.
Hypothesis p_point : p 46%N = true.

Lemma marked_digits (s : jsstring) :
  Forall (fun c => isDigit c = true) s -> filter p s = [].
Proof.
  induction 1 as [|c s Hc _ IH]; [reflexivity|].
  cbn [filter]. destruct (p c) eqn:Pc; [|exact IH].
  apply p_not_digit in Pc. congruence.
Qed.

Lemma marked_formatAmount (a : AmountValue) (d : Z) :
  length (filter p (formatAmount a d)) = S (length (filter p (toString a))).
Proof.
  unfold formatAmount. set (s := toString a).
  assert (Z0 : forall k, filter p (repeat 48%N k) = []).
  { intros k. apply marked_digits, zeros_digits. }
  assert (P0 : filter p (lit "0.") = [46%N]).
  { change (lit "0.") with [48%N; 46%N]. cbn [filter]. rewrite p_point.
    destruct (p 48%N) eqn:P48; [|reflexivity].
    apply p_not_digit in P48. discriminate. }
  destruct (len s <=? d)%Z.
  - rewrite filter_app, P0. unfold padStart.
    destruct (d <=? len s)%Z; [reflexivity|].
    rewrite filter_app, Z0. reflexivity.
  - destruct (long_branch_cut s d) as [-> ->].
    set (k := Z.to_nat (relIndex (len s) (- d))).
    rewrite <- (firstn_skipn k s) at 3.
    change (lit ".") with [46%N].
    rewrite !filter_app, !length_app. cbn [filter]. rewrite p_point.
    cbn [length]. lia.
Qed.

Lemma marked_numeral (t : jsstring) :
  unsignedDecimal t -> (length (filter p t) <= 1)%nat.
Proof.
  intros (i & [_ Hi] & [-> | (f & [_ Hf] & ->)]).
  - rewrite (marked_digits i Hi). cbn. lia.
  - rewrite filter_app, (marked_digits i Hi). cbn [app filter].
    rewrite p_point, (marked_digits f Hf). cbn. lia.
Qed.

Lemma marked_in (c : N) (s : jsstring) :
  In c s -> p c = true -> (1 <= length (filter p s))%nat.
Proof.
  intros H Pc. assert (F : In c (filter p s)) by (apply filter_In; tauto).
  destruct (filter p s); [contradiction | cbn; lia].
Qed.

Lemma marked_trimStart (s : jsstring) :
  (forall c, p c = true -> isWhiteSpace c = false) ->
  filter p (trimStart s) = filter p s.
Proof.
  intros W. induction s as [|c s IH]; [reflexivity|].
  cbn [trimStart]. destruct (isWhiteSpace c) eqn:Wc; [|reflexivity].
  cbn [filter]. destruct (p c) eqn:Pc; [|exact IH].
  apply W in Pc. congruence.
Qed.

Lemma marked_trim (s : jsstring) :
  (forall c, p c = true -> isWhiteSpace c = false) ->
  filter p (trim s) = filter p s.
Proof.
  intros W. unfold trim, trimEnd.
  rewrite filter_rev, (marked_trimStart _ W), filter_rev, rev_involutive.
  apply marked_trimStart. exact W.
Qed.

End Marked.

(** A print-out with anything but digits in it does not format to a
    numeral. *)
Lemma formatted_not_numeral (a : AmountValue) (d : Z) (c : N) :
  In c (toString a) -> isDigit c = false ->
  ~ unsignedDecimal (formatAmount a d).
Proof.
  intros H Dc U.
  set (p := fun c => negb (isDigit c)).
  assert (ND : forall c, p c = true -> isDigit c = false).
  { intros x. unfold p. apply negb_true_iff. }
  pose proof (marked_numeral p ND eq_refl _ U) as A.
  rewrite (marked_formatAmount p ND eq_refl) in A.
  assert (B : (1 <= length (filter p (toString a)))%nat).
  { apply (marked_in p c); [exact H | unfold p; rewrite Dc; reflexivity]. }
  lia.
Qed.

(** And [parseAmount] refuses it, unless the extra code units are blanks. *)
Lemma formatted_refused (a : AmountValue) (d : Z) (c : N) :
  In c (toString a) -> isDigit c = false -> isWhiteSpace c = false ->
  parseAmount (formatAmount a d) d = Throw (lit "Invalid amount format").
Proof.
  intros H Dc Wc.
  set (p := fun c => negb (isDigit c) && negb (isWhiteSpace c)).
  assert (ND : forall c, p c = true -> isDigit c = false).
  { intros x. unfold p. rewrite andb_true_iff, !negb_true_iff. tauto. }
  assert (NW : forall c, p c = true -> isWhiteSpace c = false).
  { intros x. unfold p. rewrite andb_true_iff, !negb_true_iff. tauto. }
  assert (B : (2 <= length (filter p (trim (formatAmount a d))))%nat).
  { rewrite (marked_trim p _ NW), (marked_formatAmount p ND eq_refl).
    assert (1 <= length (filter p (toString a)))%nat; [|lia].
    apply (marked_in p c); [exact H | unfold p; rewrite Dc, Wc; reflexivity]. }
  apply parseAmount_not_numeral.
  - intros E. rewrite E in B. cbn in B. lia.
  - intros U. pose proof (marked_numeral p ND eq_refl _ U). lia.
Qed.

(** X1.  Take a non-negative amount [n] passed as a bigint, or as a number
    that prints as the plain decimal digits of [n] (every safe integer
    does), and a positive [d]: [formatAmount] prints an unsigned decimal
    numeral with exactly [d] fractional digits, whose integer digits read
    [n / 10^d] and whose fractional digits read [n mod 10^d].  Every other
    amount has in its print-out a code unit that is not a digit (the sign
    of a negative bigint; the exponent, fraction point or sign of a number;
    the letters of NaN and Infinity): what [formatAmount] prints is then
    not an unsigned decimal numeral, at any [d], and [parseAmount] refuses
    it. *)
Theorem formatAmount_shape :
  (forall a n d, (0 <= n)%Z -> (0 < d)%Z ->
     a = BigIntAmount n \/ a = NumberAmount (N_toString (Z.to_N n)) ->
     exists i f,
       formatAmount a d = i ++ 46%N :: f
       /\ digitRun i /\ digitRun f /\ len f = d
       /\ Z.of_N (digitsValue i) = (n / 10 ^ d)%Z
       /\ Z.of_N (digitsValue f) = (n mod 10 ^ d)%Z)
  /\ (forall a d c, In c (toString a) -> isDigit c = false ->
        ~ unsignedDecimal (formatAmount a d)
        /\ (isWhiteSpace c = false ->
            parseAmount (formatAmount a d) d
            = Throw (lit "Invalid amount format"))).
Proof.
  split.
  - intros a n d Hn Hd [-> | ->];
      apply formatAmount_digits_shape; try assumption.
    + cbn [toString]. apply BigInt_toString_nonneg. exact Hn.
    + reflexivity.
  - intros a d c H Dc. split.
    + exact (formatted_not_numeral a d c H Dc).
    + intros Wc. exact (formatted_refused a d c H Dc Wc).
Qed.

(** 1.234567 units as a bigint and as a number; the numbers 1e21 and 1.5,
    printed [0.01e+21] and [0.0001.5]. *)
Lemma formatAmount_shape_witness :
  (exists i f,
     formatAmount (BigIntAmount 1234567) 6 = i ++ 46%N :: f
     /\ digitRun i /\ digitRun f /\ len f = 6%Z
     /\ Z.of_N (digitsValue i) = (1234567 / 10 ^ 6)%Z
     /\ Z.of_N (digitsValue f) = (1234567 mod 10 ^ 6)%Z)
  /\ (exists i f,
        formatAmount (NumberAmount (lit "1234567")) 6 = i ++ 46%N :: f
        /\ digitRun i /\ digitRun f /\ len f = 6%Z
        /\ Z.of_N (digitsValue i) = (1234567 / 10 ^ 6)%Z
        /\ Z.of_N (digitsValue f) = (1234567 mod 10 ^ 6)%Z)
  /\ (formatAmount (NumberAmount (lit "1e+21")) 6 = lit "0.01e+21"
      /\ ~ unsignedDecimal (formatAmount (NumberAmount (lit "1e+21")) 6)
      /\ parseAmount (formatAmount (NumberAmount (lit "1e+21")) 6) 6
         = Throw (lit "Invalid amount format"))
  /\ (formatAmount (NumberAmount (lit "1.5")) 6 = lit "0.0001.5"
      /\ ~ unsignedDecimal (formatAmount (NumberAmount (lit "1.5")) 6)
      /\ parseAmount (formatAmount (NumberAmount (lit "1.5")) 6) 6
         = Throw (lit "Invalid amount format")).
Proof.
  destruct formatAmount_shape as [Digits Other].
  split.
  { apply (Digits (BigIntAmount 1234567) 1234567%Z 6%Z);
      [apply Z.leb_le; reflexivity | apply Z.ltb_lt; reflexivity
       | left; reflexivity]. }
  split.
  { apply (Digits (NumberAmount (lit "1234567")) 1234567%Z 6%Z);
      [apply Z.leb_le; reflexivity | apply Z.ltb_lt; reflexivity
       | right; reflexivity]. }
  split.
  - split; [reflexivity|].
    destruct (Other (NumberAmount (lit "1e+21")) 6%Z 101%N) as [A B];
      [right; left; reflexivity | reflexivity|].
    split; [exact A | apply B; reflexivity].
  - split; [reflexivity|].
    destruct (Other (NumberAmount (lit "1.5")) 6%Z 46%N) as [A B];
      [right; left; reflexivity | reflexivity|].
    split; [exact A | apply B; reflexivity].
Defined.

(** X3.  [parseAmount] with a negative number of decimals throws on every
    input. *)
Theorem parseAmount_negative_decimals (s : jsstring) (d : Z) :
  (d < 0)%Z -> exists msg, parseAmount s d = Throw msg.
Proof.
  intros Hd. unfold parseAmount.
  destruct (is_empty (trim s)); [eauto|].
  destruct (amountPattern_test (trim s)); cbn [negb]; [|eauto].
  destruct (len (nth 1 (split 46 (trim s)) []) >? d)%Z eqn:G; [eauto|].
  rewrite Z.gtb_ltb in G. apply Z.ltb_ge in G.
  pose proof (len_nonneg (nth 1 (split 46 (trim s)) [])). lia.
Qed.

Lemma parseAmount_negative_decimals_witness :
  exists msg, parseAmount (lit "5") (-1) = Throw msg.
Proof. apply (parseAmount_negative_decimals (lit "5") (-1)). reflexivity. Defined.

Lemma negative_decimals_no_value (s : jsstring) (d v : Z) :
  (d < 0)%Z -> parseAmount s d <> Normal v.
Proof.
  intros Hd. unfold parseAmount.
  destruct (is_empty (trim s)); [discriminate|].
  destruct (negb (amountPattern_test (trim s))); [discriminate|].
  destruct (len (nth 1 (split 46 (trim s)) []) >? d)%Z eqn:G; [discriminate|].
  rewrite Z.gtb_ltb in G. apply Z.ltb_ge in G.
  pose proof (len_nonneg (nth 1 (split 46 (trim s)) [])). lia.
Qed.

Lemma parseAmount_nonneg (s : jsstring) (d v : Z) :
  parseAmount s d = Normal v -> (0 <= v)%Z.
Proof.
  unfold parseAmount, BigInt_ofString.
  destruct (is_empty (trim s)); [discriminate|].
  destruct (negb (amountPattern_test (trim s))); [discriminate|].
  destruct (len _ >? d)%Z; [discriminate|].
  destruct (forallb isDigit _); [|discriminate].
  intros E. inversion E. apply N2Z.is_nonneg.
Qed.

(** X4.  [parseAmount] returns a value exactly on the unsigned decimal
    numerals (after trimming) whose fractional part, if any, has at most
    [d] digits, with [d >= 0] when there is no point; and every value it
    returns is non-negative. *)
Theorem parseAmount_accepts_iff (s : jsstring) (d : Z) :
  ((exists v, parseAmount s d = Normal v) <->
   exists i, digitRun i
             /\ ((trim s = i /\ (0 <= d)%Z)
                 \/ exists f, digitRun f /\ trim s = i ++ 46%N :: f
                              /\ (len f <= d)%Z))
  /\ (forall v, parseAmount s d = Normal v -> (0 <= v)%Z).
Proof.
  split; [|intros v; apply parseAmount_nonneg]. split.
  - intros [v E].
    destruct (is_empty (trim s)) eqn:T.
    { apply is_empty_true in T.
      rewrite parseAmount_blank in E by exact T. discriminate. }
    apply is_empty_false in T.
    destruct (amountPattern_test (trim s)) eqn:P.
    + apply amountPattern_test_iff in P.
      destruct P as (i & Hi & [Ei | (f & Hf & Ef)]); exists i;
        (split; [exact Hi|]).
      * left. split; [exact Ei|].
        destruct (Z.lt_ge_cases d 0) as [Neg | NonNeg]; [|exact NonNeg].
        exfalso. revert E. apply negative_decimals_no_value. exact Neg.
      * right. exists f. split; [exact Hf|]. split; [exact Ef|].
        destruct (Z.lt_ge_cases d (len f)) as [Big | Fits]; [|exact Fits].
        rewrite (parseAmount_too_many s i f d Ef Hi Hf Big) in E.
        discriminate.
    + rewrite parseAmount_not_numeral in E; [discriminate | exact T |].
      intros U. apply amountPattern_test_iff in U. congruence.
  - intros (i & Hi & [[Ei Hd] | (f & Hf & Ef & Hd)]).
    + eexists. apply (parseAmount_integer_value s i d Hi Ei Hd).
    + eexists. apply (parseAmount_fraction_value s i f d Hi Ef Hf Hd).
Qed.

Lemma trimStart_app (s w : jsstring) :
  trimStart (s ++ w) =
  if forallb isWhiteSpace s then trimStart w else trimStart s ++ w.
Proof.
  induction s as [|c s IH]; [reflexivity|].
  cbn [app trimStart forallb]. destruct (isWhiteSpace c); [exact IH | reflexivity].
Qed.

Lemma trimStart_blank (s : jsstring) :
  forallb isWhiteSpace s = true -> trimStart s = [].
Proof.
  induction s as [|c s IH]; [reflexivity|].
  cbn [forallb trimStart]. destruct (isWhiteSpace c); [exact IH | discriminate].
Qed.

Lemma trimEnd_blank_tail (x b : jsstring) :
  forallb isWhiteSpace b = true -> trimEnd (x ++ b) = trimEnd x.
Proof.
  intros B. unfold trimEnd. rewrite rev_app_distr, trimStart_app.
  assert (R : forallb isWhiteSpace (rev b) = true).
  { apply forallb_forall. intros c Hc. apply in_rev in Hc.
    revert c Hc. apply forallb_forall. exact B. }
  rewrite R. reflexivity.
Qed.

Lemma trim_padded (a s b : jsstring) :
  forallb isWhiteSpace a = true -> forallb isWhiteSpace b = true ->
  trim (a ++ s ++ b) = trim s.
Proof.
  intros A B. unfold trim. rewrite trimStart_app, A, trimStart_app.
  destruct (forallb isWhiteSpace s) eqn:S.
  - rewrite (trimStart_blank b B), (trimStart_blank s S). reflexivity.
  - apply trimEnd_blank_tail. exact B.
Qed.

(** X5.  White space around the input does not change what [parseAmount]
    does: the same value, or the same error. *)
Theorem parseAmount_ignores_blanks (a s b : jsstring) (d : Z) :
  forallb isWhiteSpace a = true -> forallb isWhiteSpace b = true ->
  parseAmount (a ++ s ++ b) d = parseAmount s d.
Proof.
  intros A B. unfold parseAmount. rewrite (trim_padded a s b A B). reflexivity.
Qed.

Lemma parseAmount_ignores_blanks_witness :
  parseAmount (lit "  " ++ lit "1.5" ++ [9; 10]%N) 6 = parseAmount (lit "1.5") 6.
Proof.
  apply (parseAmount_ignores_blanks (lit "  ") (lit "1.5") [9; 10]%N 6);
    reflexivity.
Defined.

Lemma trim_head (c : N) (x : jsstring) :
  isWhiteSpace c = false -> exists y, trim (c :: x) = c :: y.
Proof.
  intros W. unfold trim. cbn [trimStart]. rewrite W.
  unfold trimEnd. cbn [rev]. rewrite trimStart_app.
  destruct (forallb isWhiteSpace (rev x)).
  - exists []. cbn [trimStart]. rewrite W. reflexivity.
  - exists (rev (trimStart (rev x))). rewrite rev_app_distr. reflexivity.
Qed.

(** At zero decimals the print-out starts with the point, or is [0.] *)
Lemma formatAmount_zero_decimals (a : AmountValue) :
  formatAmount a 0 = (if is_empty (toString a) then lit "0." else 46%N :: toString a).
Proof.
  unfold formatAmount. set (s := toString a).
  destruct (len s <=? 0)%Z eqn:Short.
  - apply Z.leb_le in Short. unfold len in Short.
    destruct s; [reflexivity | cbn in Short; lia].
  - apply Z.leb_gt in Short.
    destruct (long_branch_cut s 0) as [-> ->].
    change (- 0)%Z with 0%Z.
    replace (relIndex (len s) 0) with 0%Z by (unfold relIndex; cbn; lia).
    destruct s; [unfold len in Short; cbn in Short; lia | reflexivity].
Qed.

Lemma zero_decimals_refused (a : AmountValue) :
  parseAmount (formatAmount a 0) 0 = Throw (lit "Invalid amount format").
Proof.
  rewrite formatAmount_zero_decimals.
  destruct (is_empty (toString a)); [reflexivity|].
  destruct (trim_head 46%N (toString a) eq_refl) as [y E].
  unfold parseAmount. rewrite E. reflexivity.
Qed.

Lemma minus_in_negative (n : Z) : (n < 0)%Z -> In 45%N (toString (BigIntAmount n)).
Proof.
  intros Hn. cbn [toString]. unfold BigInt_toString.
  apply Z.ltb_lt in Hn. rewrite Hn. left. reflexivity.
Qed.

(** X6.  Outside the preconditions of the round trip [parseAmount] refuses
    what [formatAmount] prints: for a negative amount at any number of
    decimals, and for any non-negative amount at zero decimals, where the
    print-out is a point followed by the digits.  The same holds of number
    amounts: every amount that prints with a minus sign is refused, and at
    zero decimals every amount is. *)
Theorem formatAmount_unparseable :
  (forall n d, (n < 0)%Z ->
     parseAmount (formatAmount (BigIntAmount n) d) d
     = Throw (lit "Invalid amount format"))
  /\ (forall n, (0 <= n)%Z ->
       formatAmount (BigIntAmount n) 0 = 46%N :: BigInt_toString n
       /\ parseAmount (formatAmount (BigIntAmount n) 0) 0
          = Throw (lit "Invalid amount format"))
  /\ (forall a d, In 45%N (toString a) ->
       parseAmount (formatAmount a d) d = Throw (lit "Invalid amount format"))
  /\ (forall a,
       parseAmount (formatAmount a 0) 0 = Throw (lit "Invalid amount format")).
Proof.
  split.
  { intros n d Hn.
    apply (formatted_refused _ d 45%N);
      [apply minus_in_negative; exact Hn | reflexivity | reflexivity]. }
  split.
  { intros n Hn. split; [|apply zero_decimals_refused].
    rewrite formatAmount_zero_decimals. cbn [toString].
    rewrite (BigInt_toString_nonneg n Hn).
    destruct (N_toString_spec (Z.to_N n)) as (_ & _ & NE).
    destruct (N_toString (Z.to_N n)); [congruence | reflexivity]. }
  split.
  { intros a d M. apply (formatted_refused a d 45%N M); reflexivity. }
  exact zero_decimals_refused.
Qed.

Lemma formatAmount_unparseable_witness :
  parseAmount (formatAmount (BigIntAmount (-5)) 6) 6
  = Throw (lit "Invalid amount format")
  /\ parseAmount (formatAmount (BigIntAmount 123) 0) 0
     = Throw (lit "Invalid amount format")
  /\ parseAmount (formatAmount (NumberAmount (lit "-5")) 6) 6
     = Throw (lit "Invalid amount format").
Proof.
  destruct formatAmount_unparseable as (A & B & C & _).
  split; [apply (A (-5)%Z 6%Z); reflexivity|].
  split; [apply (B 123%Z); apply Z.leb_le; reflexivity|].
  apply (C (NumberAmount (lit "-5")) 6%Z). left. reflexivity.
Defined.

End AmountMore.


(** ** The signer and the hooks *)

Module HooksSpec.
Import Js JsFacts Amount AmountSpec AmountMore Wallet Integration Hooks.

(** X7.  When [createWeb3AuthSigner] succeeds the signer is the basic
    account signer over the account's own address.  A byte-array key is
    used as it is; a numeric-array key becomes as many bytes, each below
    256, and is unchanged when its entries were bytes already. *)
Theorem createWeb3AuthSigner_key {Ext : Type} (a : AlgorandAccount)
    (s : TransactionSigner Ext) :
  createWeb3AuthSigner a = Normal s ->
  exists sk,
    s = BasicAccountSigner (address a) sk
    /\ (forall b, secretKey a = KeyBytes b -> sk = b)
    /\ (forall l, secretKey a = KeyArray l ->
         length sk = length l
         /\ Forall (fun x => (x < 256)%N) sk
         /\ (Forall (fun z => (0 <= z < 256)%Z) l -> map Z.of_N sk = l)).
Proof.
  unfold createWeb3AuthSigner. destruct (secretKey a) as [b | l |] eqn:K;
    intros E; inversion E; subst; clear E.
  - exists b. split; [reflexivity|]. split.
    + intros b' Eb. inversion Eb. reflexivity.
    + intros l El. discriminate.
  - exists (Uint8Array_from l). split; [reflexivity|]. split.
    + intros b Eb. discriminate.
    + intros l' El. inversion El; subst l'. unfold Uint8Array_from.
      split; [apply length_map|]. split.
      * apply Forall_forall. intros x Hx. apply in_map_iff in Hx.
        destruct Hx as (z & <- & _).
        pose proof (Z.mod_pos_bound z 256 ltac:(lia)). lia.
      * intros R. rewrite map_map. rewrite <- (map_id l) at 2.
        apply map_ext_in. intros z Hz. rewrite Forall_forall in R.
        specialize (R z Hz). rewrite Z.mod_small by lia. lia.
Qed.

Lemma createWeb3AuthSigner_key_witness :
  exists sk,
    BasicAccountSigner (lit "SOCIALADDR") [44; 2]%N
      = @BasicAccountSigner N (address (exampleAccount (KeyArray [300; 2]%Z))) sk
    /\ (forall b, secretKey (exampleAccount (KeyArray [300; 2]%Z)) = KeyBytes b ->
         sk = b)
    /\ (forall l, secretKey (exampleAccount (KeyArray [300; 2]%Z)) = KeyArray l ->
         length sk = length l
         /\ Forall (fun x => (x < 256)%N) sk
         /\ (Forall (fun z => (0 <= z < 256)%Z) l -> map Z.of_N sk = l)).
Proof.
  apply (createWeb3AuthSigner_key (exampleAccount (KeyArray [300; 2]%Z))).
  reflexivity.
Defined.

(** The fee the hook assumes when none is given is the utility's default
    minimum fee. *)
Lemma default_fee_value : parseAmount (lit "0.001") 6 = Normal 1000%Z.
Proof. reflexivity. Qed.

(** X8.  [useHasSufficientBalance] throws exactly when [amount] does not
    parse at six decimals, with [parseAmount]'s error, whatever the
    balance and the fee.  When it returns, the flag is true exactly when
    the balance string is present, non-empty and parses, the fee parses,
    and [amount + fee <= balance]; with the default fee the flag is then
    the utility [hasSufficientBalance] on the parsed values. *)
Theorem useHasSufficientBalance_spec (balance : option jsstring)
    (amount : jsstring) (fee : option jsstring) :
  (forall msg, parseAmount amount 6 = Throw msg ->
     useHasSufficientBalance balance amount fee = Throw msg)
  /\ (forall a, parseAmount amount 6 = Normal a ->
       exists r,
         useHasSufficientBalance balance amount fee = Normal r
         /\ Sufficient.balance r = balance
         /\ (Sufficient.hasSufficientBalance r = true <->
             exists bs b f,
               balance = Some bs /\ bs <> []
               /\ parseAmount bs 6 = Normal b
               /\ parseAmount (match fee with Some x => x | None => lit "0.001" end) 6
                  = Normal f
               /\ (a + f <= b)%Z)
         /\ (fee = None -> forall bs b,
               balance = Some bs -> bs <> [] -> parseAmount bs 6 = Normal b ->
               Sufficient.hasSufficientBalance r = hasSufficientBalance b a None)).
Proof.
  split.
  - intros msg E. unfold useHasSufficientBalance. rewrite E. reflexivity.
  - intros a E. unfold useHasSufficientBalance. rewrite E.
    set (feeText := match fee with Some x => x | None => lit "0.001" end).
    eexists. split; [reflexivity|]. split; [reflexivity|].
    cbn [Sufficient.hasSufficientBalance]. split.
    + split.
      * destruct balance as [bs|]; [|discriminate].
        destruct (is_empty bs) eqn:Em; [discriminate|].
        destruct (parseAmount bs 6) as [b|] eqn:B; [|discriminate].
        destruct (parseAmount feeText 6) as [f|] eqn:F; [|discriminate].
        intros L. apply Z.leb_le in L. exists bs, b, f.
        apply is_empty_false in Em. auto.
      * intros (bs & b & f & -> & NE & B & F & L).
        apply is_empty_false in NE. rewrite NE, B, F.
        apply Z.leb_le. exact L.
    + intros Fee bs b -> NE B. apply is_empty_false in NE.
      subst fee feeText. rewrite NE, B, default_fee_value. reflexivity.
Qed.

Lemma useHasSufficientBalance_spec_witness :
  useHasSufficientBalance (Some (lit "2.500000")) (lit "ten") None
    = Throw (lit "Invalid amount format")
  /\ exists r,
       useHasSufficientBalance (Some (lit "2.500000")) (lit "2.499") None
         = Normal r
       /\ Sufficient.hasSufficientBalance r = true.
Proof.
  split.
  - apply (proj1 (useHasSufficientBalance_spec (Some (lit "2.500000"))
                    (lit "ten") None)).
    reflexivity.
  - destruct (proj2 (useHasSufficientBalance_spec (Some (lit "2.500000"))
                       (lit "2.499") None) 2499000%Z eq_refl)
      as (r & E & _ & H & _).
    exists r. split; [exact E|]. apply H.
    exists (lit "2.500000"), 2500000%Z, 1000%Z.
    repeat split; try reflexivity; try discriminate.
Defined.

(** X9.  [sendTransaction] always finishes with [loading = false].  On an
    empty list it rejects with "No transactions to send", stores that
    message and calls nothing.  Otherwise it makes exactly one upstream
    call, for the first transaction only, settles as that call does, and
    stores no error on success and the caught message on failure. *)
Theorem sendTransaction_behaviour (AlgodState : Type)
    (sendRaw : list N -> AlgodState -> Settled jsstring * AlgodState)
    (accountInformation : jsstring -> AlgodState -> Settled Z * AlgodState)
    (transactions : list (list N)) (st : RequestState)
    (w : AlgodWorld AlgodState) :
  let out := sendTransaction AlgodState sendRaw transactions st w in
  loading (snd (fst out)) = false
  /\ (transactions = [] ->
      out = (RejectedWith (ThrownError (lit "No transactions to send")),
             {| loading := false; error := Some (lit "No transactions to send") |},
             w))
  /\ (forall first rest, transactions = first :: rest ->
       algodCalls AlgodState (snd out) =
         algodCalls AlgodState w ++ [SendRawTransaction first]
       /\ (fst (fst out), algod AlgodState (snd out)) =
          sendRaw first (algod AlgodState w)
       /\ error (snd (fst out)) =
          match fst (fst out) with
          | Fulfilled _ => None
          | RejectedWith err =>
              Some (messageOr err (lit "Failed to send transaction"))
          end).
Proof.
  cbv zeta. unfold sendTransaction. destruct transactions as [|first rest].
  - split; [reflexivity|]. split; [reflexivity|]. intros ? ? E. discriminate.
  - destruct (sendRaw first (algod AlgodState w)) as [[txId | err] a] eqn:E.
    + split; [reflexivity|]. split; [discriminate|].
      intros f r Eq. inversion Eq; subst. cbn. rewrite E. auto.
    + split; [reflexivity|]. split; [discriminate|].
      intros f r Eq. inversion Eq; subst. cbn. rewrite E. auto.
Qed.

Lemma sendTransaction_behaviour_witness :
  algodCalls N
    (snd (sendTransaction N demoSendRaw [[1; 2]%N; [3]%N]
            {| loading := false; error := Some (lit "old") |}
            {| algod := 0%N; algodCalls := [] |}))
  = [SendRawTransaction [1; 2]%N].
Proof.
  apply (proj1 (proj2 (proj2 (sendTransaction_behaviour N demoSendRaw
           demoAccountInformation [[1; 2]%N; [3]%N]
           {| loading := false; error := Some (lit "old") |}
           {| algod := 0%N; algodCalls := [] |})) [1; 2]%N [[3]%N] eq_refl)).
Defined.

(** X10.  [fetchBalance]: without an account, or with an empty address, the
    balance becomes [null], [loading] and [error] stay as they were and the
    node is not called.  Otherwise the node is asked once for that address;
    on success the balance is the amount printed at six decimals, which
    [parseAmount] reads back to the amount when it is non-negative; on
    failure the balance is [null] and the error is the caught message.  In
    both cases [loading] ends [false]. *)
Theorem fetchBalance_behaviour (AlgodState : Type)
    (accountInformation : jsstring -> AlgodState -> Settled Z * AlgodState)
    (account : option AlgorandAccount) (st : Balance.State)
    (w : AlgodWorld AlgodState) :
  let out := fetchBalance AlgodState accountInformation account st w in
  (truthyAddress (option_map address account) = None ->
     out = ({| Balance.balance := None;
               Balance.loading := Balance.loading st;
               Balance.error := Balance.error st |}, w))
  /\ (forall addr, truthyAddress (option_map address account) = Some addr ->
       algodCalls AlgodState (snd out) =
         algodCalls AlgodState w ++ [AccountInformation addr]
       /\ Balance.loading (fst out) = false
       /\ (forall amount a,
             accountInformation addr (algod AlgodState w) = (Fulfilled amount, a) ->
             Balance.balance (fst out) = Some (formatAmount (BigIntAmount amount) 6)
             /\ Balance.error (fst out) = None
             /\ ((0 <= amount)%Z ->
                 parseAmount (formatAmount (BigIntAmount amount) 6) 6
                 = Normal amount))
       /\ (forall err a,
             accountInformation addr (algod AlgodState w) = (RejectedWith err, a) ->
             Balance.balance (fst out) = None
             /\ Balance.error (fst out) =
                Some (messageOr err (lit "Failed to fetch balance")))).
Proof.
  cbv zeta. unfold fetchBalance. split.
  - intros E. rewrite E. reflexivity.
  - intros addr E. rewrite E.
    destruct (accountInformation addr (algod AlgodState w)) as [[amount | err] a];
      (split; [reflexivity|]); (split; [reflexivity|]); split;
      intros x a' Eq; inversion Eq; subst.
    + split; [reflexivity|]. split; [reflexivity|].
      intros Pos. apply parseAmount_formatAmount; [assumption | lia].
    + split; reflexivity.
Qed.

Lemma fetchBalance_behaviour_witness :
  Balance.balance
    (fst (fetchBalance N demoAccountInformation
            (Some (exampleAccount (KeyBytes [1]%N)))
            {| Balance.balance := None; Balance.loading := false;
               Balance.error := None |}
            {| algod := 0%N; algodCalls := [] |}))
  = Some (formatAmount (BigIntAmount 2500000) 6)
  /\ parseAmount (formatAmount (BigIntAmount 2500000) 6) 6 = Normal 2500000%Z.
Proof.
  destruct (proj2 (fetchBalance_behaviour N demoAccountInformation
                     (Some (exampleAccount (KeyBytes [1]%N)))
                     {| Balance.balance := None; Balance.loading := false;
                        Balance.error := None |}
                     {| algod := 0%N; algodCalls := [] |})
              (lit "SOCIALADDR") eq_refl) as (_ & _ & Ok & _).
  destruct (Ok 2500000%Z 0%N eq_refl) as (B & _ & R).
  split; [exact B | apply R; apply Z.leb_le; reflexivity].
Defined.

Lemma formatAmount_nonempty (a : AmountValue) (d : Z) : formatAmount a d <> [].
Proof.
  unfold formatAmount. destruct (len (toString a) <=? d)%Z.
  - discriminate.
  - intros E. apply app_eq_nil in E. destruct E as [_ E]. discriminate.
Qed.

(** X11.  Fetch, then check: once [fetchBalance] has stored the balance of
    an account holding [A >= 0] base units, [useHasSufficientBalance] on
    that balance answers [amount + fee <= A] for every amount and fee that
    parse at six decimals. *)
Theorem fetched_balance_check (AlgodState : Type)
    (accountInformation : jsstring -> AlgodState -> Settled Z * AlgodState)
    (account : AlgorandAccount) (st : Balance.State)
    (w : AlgodWorld AlgodState) (A : Z) (a' : AlgodState)
    (amount fee : jsstring) (x f : Z) :
  address account <> [] ->
  accountInformation (address account) (algod AlgodState w) = (Fulfilled A, a') ->
  (0 <= A)%Z ->
  parseAmount amount 6 = Normal x ->
  parseAmount fee 6 = Normal f ->
  exists r,
    useHasSufficientBalance
      (Balance.balance
         (fst (fetchBalance AlgodState accountInformation (Some account) st w)))
      amount (Some fee) = Normal r
    /\ Sufficient.hasSufficientBalance r = (x + f <=? A)%Z.
Proof.
  intros NE Info HA Px Pf.
  unfold fetchBalance. cbn [option_map truthyAddress].
  apply is_empty_false in NE. rewrite NE, Info. cbn [fst Balance.balance].
  unfold useHasSufficientBalance. rewrite Px, Pf.
  pose proof (formatAmount_nonempty (BigIntAmount A) 6) as F.
  apply is_empty_false in F. rewrite F.
  rewrite parseAmount_formatAmount by (assumption || lia).
  eexists. split; reflexivity.
Qed.

Lemma fetched_balance_check_witness :
  exists r,
    useHasSufficientBalance
      (Balance.balance
         (fst (fetchBalance N demoAccountInformation
                 (Some (exampleAccount (KeyBytes [1]%N)))
                 {| Balance.balance := None; Balance.loading := false;
                    Balance.error := None |}
                 {| algod := 0%N; algodCalls := [] |})))
      (lit "2.5") (Some (lit "0.001")) = Normal r
    /\ Sufficient.hasSufficientBalance r = (2500000 + 1000 <=? 2500000)%Z.
Proof.
  apply (fetched_balance_check N demoAccountInformation
           (exampleAccount (KeyBytes [1]%N))
           {| Balance.balance := None; Balance.loading := false;
              Balance.error := None |}
           {| algod := 0%N; algodCalls := [] |} 2500000%Z 0%N
           (lit "2.5") (lit "0.001") 2500000%Z 1000%Z);
    try reflexivity; [discriminate | apply Z.leb_le; reflexivity].
Defined.

Section ClientFacts.
Variable Ext : Type.
Variable Client : Type.
Variable ClientState : Type.
Variable send :
  Client -> SendCall Ext -> ClientState -> Settled SendResult * ClientState.

Local Abbreviation createAsset := (Hooks.createAsset Ext Client ClientState send).
Local Abbreviation sendAsset := (Hooks.sendAsset Ext Client ClientState send).
Local Abbreviation sends := (Hooks.sends Ext ClientState).
Local Abbreviation network := (Hooks.network Ext ClientState).

Lemma truthyNumber_some (n : option Z) (z : Z) :
  truthyNumber n = Some z <-> n = Some z /\ z <> 0%Z.
Proof.
  unfold truthyNumber. destruct n as [x|]; [|split; [discriminate | intros [E _]; discriminate]].
  destruct (x =? 0)%Z eqn:E.
  - apply Z.eqb_eq in E. subst. split; [discriminate|].
    intros [Eq NZ]. inversion Eq. congruence.
  - apply Z.eqb_neq in E. split.
    + intros Eq. inversion Eq; subst. auto.
    + intros [Eq _]. exact Eq.
Qed.

Lemma truthyNumber_none (n : option Z) :
  truthyNumber n = None <-> n = None \/ n = Some 0%Z.
Proof.
  unfold truthyNumber. destruct n as [x|]; [|tauto].
  destruct (x =? 0)%Z eqn:E.
  - apply Z.eqb_eq in E. subst. tauto.
  - apply Z.eqb_neq in E. split; [discriminate|].
    intros [H | H]; [discriminate | inversion H; congruence].
Qed.

Lemma createAsset_outcomes_aux (acct : AlgorandAccount) (client : Client)
    (params : AssetCreateParams) (st : RequestState)
    (w : ClientWorld Ext ClientState) :
  let out := createAsset (Some acct) (Some client) params st w in
  loading (snd (fst out)) = false
  /\ (secretKey acct = KeyOther ->
      out = (RejectedWith (ThrownError invalidKeyMessage),
             {| loading := false; error := Some invalidKeyMessage |}, w))
  /\ (forall signer, createWeb3AuthSigner acct = Normal signer ->
       sends (snd out) = sends w ++ [AssetCreate (address acct) signer params]
       /\ (forall result n,
             send client (AssetCreate (address acct) signer params) (network w)
               = (Fulfilled result, n) ->
             match truthyNumber (confirmation_assetIndex result) with
             | Some assetId =>
                 fst (fst out) = Fulfilled assetId
                 /\ error (snd (fst out)) = None
             | None =>
                 fst (fst out) =
                   RejectedWith
                     (ThrownError (lit "Failed to get asset ID from confirmation"))
                 /\ error (snd (fst out)) =
                    Some (lit "Failed to get asset ID from confirmation")
             end)
       /\ (forall err n,
             send client (AssetCreate (address acct) signer params) (network w)
               = (RejectedWith err, n) ->
             fst (fst out) = RejectedWith err
             /\ error (snd (fst out)) =
                Some (messageOr err (lit "Failed to create asset")))).
Proof.
  cbv zeta. unfold Hooks.createAsset, guarded, awaitSend.
  destruct (@createWeb3AuthSigner Ext acct) as [signer | msg] eqn:S.
  - destruct (send client (AssetCreate (address acct) signer params)
                (Hooks.network Ext ClientState w)) as [[result | err] n] eqn:E.
    + destruct (truthyNumber (confirmation_assetIndex result)) as [assetId|] eqn:T.
      * split; [reflexivity|]. split.
        { intros K. rewrite (WalletSpec.createWeb3AuthSigner_throw acct K) in S.
          discriminate. }
        intros s' Eq. inversion Eq; subst s'. rewrite E.
        split; [reflexivity|]. split.
        { intros r' n' Eq'. inversion Eq'; subst. rewrite T. auto. }
        { intros err n' Eq'. discriminate. }
      * split; [reflexivity|]. split.
        { intros K. rewrite (WalletSpec.createWeb3AuthSigner_throw acct K) in S.
          discriminate. }
        intros s' Eq. inversion Eq; subst s'. rewrite E.
        split; [reflexivity|]. split.
        { intros r' n' Eq'. inversion Eq'; subst. rewrite T. auto. }
        { intros err n' Eq'. discriminate. }
    + split; [reflexivity|]. split.
      { intros K. rewrite (WalletSpec.createWeb3AuthSigner_throw acct K) in S.
        discriminate. }
      intros s' Eq. inversion Eq; subst s'. rewrite E.
      split; [reflexivity|]. split.
      { intros r' n' Eq'. discriminate. }
      { intros err' n' Eq'. inversion Eq'; subst. auto. }
  - split; [reflexivity|]. split.
    + intros K. rewrite (WalletSpec.createWeb3AuthSigner_throw acct K) in S.
      inversion S; subst. reflexivity.
    + intros s' Eq. discriminate.
Qed.

End ClientFacts.

(** X12.  [createAsset]: without an account or a client it rejects with
    "Not connected to Web3Auth" and touches neither its state nor the
    network.  With both it ends with [loading = false]; key material of
    neither kind rejects before anything is sent; otherwise exactly one
    asset-create call goes out, from the account's address with the
    account's signer, and an asset index that is missing or 0 is reported
    as "Failed to get asset ID from confirmation" although the call
    succeeded. *)
Theorem createAsset_outcomes (Ext Client ClientState : Type)
    (send : Client -> SendCall Ext -> ClientState -> Settled SendResult * ClientState)
    (account : option AlgorandAccount) (algorand : option Client)
    (params : AssetCreateParams) (st : RequestState)
    (w : ClientWorld Ext ClientState) :
  let out := createAsset Ext Client ClientState send account algorand params st w in
  (account = None \/ algorand = None ->
     out = (RejectedWith (ThrownError (lit "Not connected to Web3Auth")), st, w))
  /\ (forall acct client, account = Some acct -> algorand = Some client ->
       loading (snd (fst out)) = false
       /\ (secretKey acct = KeyOther ->
           out = (RejectedWith (ThrownError invalidKeyMessage),
                  {| loading := false; error := Some invalidKeyMessage |}, w))
       /\ (forall signer, createWeb3AuthSigner acct = Normal signer ->
            sends Ext ClientState (snd out) =
              sends Ext ClientState w ++ [AssetCreate (address acct) signer params]
            /\ (forall result n,
                  send client (AssetCreate (address acct) signer params)
                    (network Ext ClientState w) = (Fulfilled result, n) ->
                  (confirmation_assetIndex result = None
                   \/ confirmation_assetIndex result = Some 0%Z) ->
                  fst (fst out) =
                    RejectedWith
                      (ThrownError (lit "Failed to get asset ID from confirmation")))
            /\ (forall result n assetId,
                  send client (AssetCreate (address acct) signer params)
                    (network Ext ClientState w) = (Fulfilled result, n) ->
                  confirmation_assetIndex result = Some assetId ->
                  assetId <> 0%Z ->
                  fst (fst out) = Fulfilled assetId
                  /\ error (snd (fst out)) = None))).
Proof.
  cbv zeta. split.
  - intros [-> | ->]; unfold createAsset; [reflexivity|].
    destruct account; reflexivity.
  - intros acct client -> ->.
    destruct (createAsset_outcomes_aux Ext Client ClientState send acct client
                params st w) as (L & K & Rest).
    split; [exact L|]. split; [exact K|].
    intros signer S. destruct (Rest signer S) as (Sent & Ok & _).
    split; [exact Sent|]. split.
    + intros result n E Z0. specialize (Ok result n E).
      apply truthyNumber_none in Z0. rewrite Z0 in Ok. tauto.
    + intros result n assetId E I NZ. specialize (Ok result n E).
      assert (T : truthyNumber (confirmation_assetIndex result) = Some assetId)
        by (apply truthyNumber_some; auto).
      rewrite T in Ok. exact Ok.
Qed.

Lemma createAsset_outcomes_witness :
  fst (fst (createAsset N unit N demoSend
              (Some (exampleAccount (KeyBytes [1]%N))) (Some tt) demoParams
              {| loading := false; error := None |}
              {| network := 0%N; sends := [] |}))
  = RejectedWith (ThrownError (lit "Failed to get asset ID from confirmation"))
  /\ createAsset N unit N demoSend None (Some tt) demoParams
       {| loading := false; error := None |} {| network := 0%N; sends := [] |}
     = (RejectedWith (ThrownError (lit "Not connected to Web3Auth")),
        {| loading := false; error := None |}, {| network := 0%N; sends := [] |}).
Proof.
  split.
  - destruct (proj2 (createAsset_outcomes N unit N demoSend
                       (Some (exampleAccount (KeyBytes [1]%N))) (Some tt)
                       demoParams {| loading := false; error := None |}
                       {| network := 0%N; sends := [] |})
                (exampleAccount (KeyBytes [1]%N)) tt eq_refl eq_refl)
      as (_ & _ & H).
    destruct (H (BasicAccountSigner (lit "SOCIALADDR") [1]%N) eq_refl)
      as (_ & Zero & _).
    apply (Zero {| txId := lit "TX0"; confirmation_assetIndex := Some 0%Z |} 1%N);
      [reflexivity | right; reflexivity].
  - apply (proj1 (createAsset_outcomes N unit N demoSend None (Some tt)
                    demoParams {| loading := false; error := None |}
                    {| network := 0%N; sends := [] |})).
    left. reflexivity.
Defined.

(** X13.  [sendAsset] with an account whose signer can be built and a
    client makes exactly one call: a payment of [amount] to [to] when
    [assetId] is missing or 0 (the close-remainder address is then not
    forwarded), and an asset transfer carrying the parameters as given
    otherwise; it resolves with the transaction id of that call. *)
Theorem sendAsset_routing (Ext Client ClientState : Type)
    (send : Client -> SendCall Ext -> ClientState -> Settled SendResult * ClientState)
    (acct : AlgorandAccount) (client : Client) (signer : TransactionSigner Ext)
    (params : AssetTransferParams) (st : RequestState)
    (w : ClientWorld Ext ClientState) :
  createWeb3AuthSigner acct = Normal signer ->
  let out := sendAsset Ext Client ClientState send (Some acct) (Some client)
               params st w in
  let call :=
    match assetId params with
    | Some z => if (z =? 0)%Z
                then Payment (address acct) signer (to params) (amount params)
                else AssetTransfer (address acct) signer params
    | None => Payment (address acct) signer (to params) (amount params)
    end in
  sends Ext ClientState (snd out) = sends Ext ClientState w ++ [call]
  /\ loading (snd (fst out)) = false
  /\ (forall result n,
       send client call (network Ext ClientState w) = (Fulfilled result, n) ->
       fst (fst out) = Fulfilled (txId result)
       /\ error (snd (fst out)) = None).
Proof.
  intros S. cbv zeta. unfold sendAsset, guarded, awaitSend. rewrite S.
  assert (C : match truthyNumber (assetId params) with
              | Some _ => AssetTransfer (address acct) signer params
              | None => Payment (address acct) signer (to params) (amount params)
              end =
              match assetId params with
              | Some z => if (z =? 0)%Z
                          then Payment (address acct) signer (to params) (amount params)
                          else AssetTransfer (address acct) signer params
              | None => Payment (address acct) signer (to params) (amount params)
              end).
  { unfold truthyNumber. destruct (assetId params) as [z|]; [|reflexivity].
    destruct (z =? 0)%Z; reflexivity. }
  rewrite C. clear C.
  set (call := match assetId params with Some z => _ | None => _ end).
  destruct (send client call (network Ext ClientState w)) as [[result | err] n].
  - repeat split; try reflexivity; inversion H; subst; reflexivity.
  - repeat split; try reflexivity; inversion H.
Qed.

Lemma sendAsset_routing_witness :
  sends N N
    (snd (sendAsset N unit N demoSend
            (Some (exampleAccount (KeyBytes [1]%N))) (Some tt)
            {| to := lit "RECEIVER"; assetId := Some 0%Z; amount := 5;
               closeRemainderTo := Some (lit "CLOSE") |}
            {| loading := false; error := None |}
            {| network := 0%N; sends := [] |}))
  = [Payment (lit "SOCIALADDR") (BasicAccountSigner (lit "SOCIALADDR") [1]%N)
       (lit "RECEIVER") 5%Z].
Proof.
  apply (sendAsset_routing N unit N demoSend (exampleAccount (KeyBytes [1]%N)) tt
           (BasicAccountSigner (lit "SOCIALADDR") [1]%N)
           {| to := lit "RECEIVER"; assetId := Some 0%Z; amount := 5;
              closeRemainderTo := Some (lit "CLOSE") |}
           {| loading := false; error := None |}
           {| network := 0%N; sends := [] |} eq_refl).
Defined.

End HooksSpec.


(** ** The Web3Auth singleton and the provider component *)

Module ProviderSpec.
Import Js JsFacts Wallet Config Provider.

(** Closes a goal after inverting an equation between pairs in context. *)
Ltac solve_pair_eq :=
  try reflexivity;
  match goal with
  | H : (_, _) = (_, _) |- _ => inversion H; subst; try reflexivity
  end.

Section Facts.
Context {Inst Prov UserInfo S : Type}.
Variable sdk : Sdk Inst Prov UserInfo S.
Variable getAlgorandAccount : Prov -> S -> Settled AlgorandAccount * S.

Local Abbreviation St := (State Inst Prov UserInfo).
Local Abbreviation Mod := (ModuleState Inst Prov S).
Local Abbreviation afterConnect := (Provider.afterConnect sdk getAlgorandAccount).
Local Abbreviation initializeWeb3Auth :=
  (Provider.initializeWeb3Auth sdk getAlgorandAccount).
Local Abbreviation login := (Provider.login sdk getAlgorandAccount).
Local Abbreviation logout := (@Provider.logout Inst Prov UserInfo S sdk).
Local Abbreviation refreshUserInfo :=
  (@Provider.refreshUserInfo Inst Prov UserInfo S sdk).
Local Abbreviation run := (Provider.run sdk getAlgorandAccount).
Local Abbreviation runAll := (Provider.runAll sdk getAlgorandAccount).

Lemma userInfo_keeps_instance (m : Mod) :
  web3authInstance (snd (getWeb3AuthUserInfo sdk m)) = web3authInstance m.
Proof.
  unfold getWeb3AuthUserInfo. destruct (web3authInstance m) as [i|] eqn:I;
    [|cbn; exact I].
  destruct (negb (isWeb3AuthConnected sdk m)); [cbn; exact I|].
  destruct (getUserInfo sdk i (world m)) as [[u | e] w]; cbn; exact I.
Qed.

Lemma logoutFrom_keeps_instance (m : Mod) :
  web3authInstance (snd (logoutFromWeb3Auth sdk m)) = web3authInstance m.
Proof.
  unfold logoutFromWeb3Auth. destruct (web3authInstance m) as [i|] eqn:I;
    [|cbn; exact I].
  destruct (Config.logout sdk i (world m)) as [r w]. cbn. exact I.
Qed.

Lemma initWeb3Auth_cached (clientId : option jsstring) (m : Mod) (i : Inst) :
  web3authInstance m = Some i -> initWeb3Auth sdk clientId m = (Fulfilled i, m).
Proof. intros I. unfold initWeb3Auth. rewrite I. reflexivity. Qed.

Lemma initWeb3Auth_fulfilled (clientId : option jsstring) (m : Mod) (i : Inst) :
  fst (initWeb3Auth sdk clientId m) = Fulfilled i ->
  web3authInstance (snd (initWeb3Auth sdk clientId m)) = Some i.
Proof.
  unfold initWeb3Auth. destruct (web3authInstance m) as [j|] eqn:I.
  - cbn. intros E. inversion E; subst. exact I.
  - destruct (truthy clientId) as [c|]; [|discriminate].
    destruct (newPrivateKeyProvider sdk (world m)) as [[u | e] w1];
      [|discriminate].
    cbn [logged world].
    destruct (newWeb3Auth sdk c w1) as [[j | e] w2]; [|discriminate].
    cbn [setInstance logged world].
    destruct (initModal sdk j w2) as [[u' | e] w3]; [|discriminate].
    cbn. intros E. inversion E. reflexivity.
Qed.

Lemma afterConnect_facts (p : Prov) (onErr : Thrown -> jsstring)
    (st : St) (m : Mod) :
  let out := afterConnect p onErr st m in
  isConnected (fst out) = true
  /\ provider (fst out) = Some p
  /\ isLoading (fst out) = isLoading st
  /\ isInitialized (fst out) = isInitialized st
  /\ web3AuthInstance (fst out) = web3AuthInstance st
  /\ web3authInstance (snd out) = web3authInstance m
  /\ (forall acct w,
        getAlgorandAccount p (world m) = (Fulfilled acct, w) ->
        algorandAccount (fst out) = Some acct /\ error (fst out) = error st)
  /\ (forall err w,
        getAlgorandAccount p (world m) = (RejectedWith err, w) ->
        algorandAccount (fst out) = algorandAccount st
        /\ error (fst out) = Some (onErr err)).
Proof.
  cbv zeta. unfold Provider.afterConnect, awaitAccount.
  destruct (getAlgorandAccount p (world m)) as [[acct | err] w].
  - pose proof (userInfo_keeps_instance (logged m w (GetAlgorandAccount p))) as K.
    destruct (getWeb3AuthUserInfo sdk (logged m w (GetAlgorandAccount p)))
      as [[u|] m2]; cbn in K |- *; repeat split; try exact K;
      solve_pair_eq.
  - pose proof (userInfo_keeps_instance (logged m w (GetAlgorandAccount p))) as K.
    destruct (getWeb3AuthUserInfo sdk (logged m w (GetAlgorandAccount p)))
      as [[u|] m2]; cbn in K |- *; repeat split; try exact K;
      solve_pair_eq.
Qed.

(** X14.  When the private-key provider and the Web3Auth instance are
    constructed but [initModal] rejects, [initWeb3Auth] rejects with that
    error yet leaves the instance in the module variable; every later call
    then returns that instance at once, whatever the client id, without
    calling anything: [initModal] is not tried again. *)
Theorem initWeb3Auth_failed_modal_cached (clientId : option jsstring)
    (c : jsstring) (m : Mod) (u : unit) (w1 w2 w3 : S) (i : Inst) (err : Thrown) :
  web3authInstance m = None ->
  truthy clientId = Some c ->
  newPrivateKeyProvider sdk (world m) = (Fulfilled u, w1) ->
  newWeb3Auth sdk c w1 = (Fulfilled i, w2) ->
  initModal sdk i w2 = (RejectedWith err, w3) ->
  let out := initWeb3Auth sdk clientId m in
  fst out = RejectedWith err
  /\ web3authInstance (snd out) = Some i
  /\ events (snd out) =
     events m ++ [NewPrivateKeyProvider; NewWeb3Auth c; InitModal i]
  /\ (forall clientId',
       initWeb3Auth sdk clientId' (snd out) = (Fulfilled i, snd out)).
Proof.
  intros I C P W M. cbv zeta.
  assert (E : initWeb3Auth sdk clientId m =
              (RejectedWith err,
               logged (setInstance i
                         (logged (logged m w1 NewPrivateKeyProvider) w2
                            (NewWeb3Auth c))) w3 (InitModal i))).
  { unfold initWeb3Auth. rewrite I, C, P. cbn [logged world]. rewrite W.
    cbn [setInstance logged world]. rewrite M. reflexivity. }
  rewrite E. cbn [fst snd web3authInstance events logged setInstance].
  split; [reflexivity|]. split; [reflexivity|]. split.
  - rewrite <- !app_assoc. reflexivity.
  - intros clientId'. apply initWeb3Auth_cached. reflexivity.
Qed.

(** X15.  [logout()] never fails and always leaves the component
    disconnected: no provider, no account, no user info, not loading.  The
    error is cleared when the SDK logout resolved (or there was no
    instance) and is the caught message otherwise; the initialised flag and
    the instance are kept. *)
Theorem logout_postcondition (st : St) (m : Mod) :
  let out := logout st m in
  isConnected (fst out) = false
  /\ provider (fst out) = None
  /\ algorandAccount (fst out) = None
  /\ userInfo (fst out) = None
  /\ isLoading (fst out) = false
  /\ isInitialized (fst out) = isInitialized st
  /\ web3AuthInstance (fst out) = web3AuthInstance st
  /\ error (fst out) =
     match fst (logoutFromWeb3Auth sdk m) with
     | Fulfilled _ => None
     | RejectedWith err => Some (messageOr err (lit "Logout failed"))
     end
  /\ snd out = snd (logoutFromWeb3Auth sdk m).
Proof.
  cbv zeta. unfold Provider.logout.
  destruct (logoutFromWeb3Auth sdk m) as [[u | err] m1]; cbn;
    repeat split; reflexivity.
Qed.

(** X16.  [login()]: without an instance, or before initialisation has
    finished, it only stores the corresponding error and calls nothing.
    Otherwise it calls [connect] once on the component's instance and ends
    not loading; if [connect] rejects or yields no provider the component
    is left disconnected, without provider or account, with the error
    stored; if it yields a provider the component is connected with that
    provider, and holds the derived account when derivation succeeded and
    the derivation error otherwise. *)
Theorem login_outcomes (st : St) (m : Mod) :
  let out := login st m in
  (web3AuthInstance st = None ->
     out = (setError (Some (lit "Web3Auth not initialized")) st, m))
  /\ (forall inst, web3AuthInstance st = Some inst -> isInitialized st = false ->
       out = (setError
                (Some (lit "Web3Auth is still initializing, please try again")) st,
              m))
  /\ (forall inst, web3AuthInstance st = Some inst -> isInitialized st = true ->
       isLoading (fst out) = false
       /\ (exists rest, events (snd out) = events m ++ Connect inst :: rest)
       /\ (forall err w,
             connect sdk inst (world m) = (RejectedWith err, w) ->
             isConnected (fst out) = false /\ provider (fst out) = None
             /\ algorandAccount (fst out) = None
             /\ error (fst out) = Some (messageOr err (lit "Login failed")))
       /\ (forall w,
             connect sdk inst (world m) = (Fulfilled None, w) ->
             isConnected (fst out) = false /\ provider (fst out) = None
             /\ algorandAccount (fst out) = None
             /\ error (fst out) = Some (lit "Failed to connect Web3Auth provider"))
       /\ (forall p w,
             connect sdk inst (world m) = (Fulfilled (Some p), w) ->
             isConnected (fst out) = true /\ provider (fst out) = Some p
             /\ (forall acct w',
                   getAlgorandAccount p w = (Fulfilled acct, w') ->
                   algorandAccount (fst out) = Some acct
                   /\ error (fst out) = None)
             /\ (forall err w',
                   getAlgorandAccount p w = (RejectedWith err, w') ->
                   algorandAccount (fst out) = algorandAccount st
                   /\ error (fst out) =
                      Some (messageOr err (lit "Failed to derive Algorand account"))))).
Proof.
  cbv zeta. split; [|split].
  - intros I. unfold Provider.login. rewrite I. reflexivity.
  - intros inst I N. unfold Provider.login. rewrite I, N. reflexivity.
  - intros inst I Init. unfold Provider.login. rewrite I, Init. cbn [negb].
    destruct (connect sdk inst (world m)) as [[[p|] | err] w] eqn:C.
    + set (st1 := Provider.setError None (setIsLoading true st)).
      set (m1 := logged m w (Connect inst)).
      pose proof (afterConnect_facts p
                    (fun err => messageOr err (lit "Failed to derive Algorand account"))
                    st1 m1) as F.
      cbv zeta in F.
      destruct (afterConnect p _ st1 m1) as [st2 m2] eqn:A.
      cbn [fst snd] in F |- *.
      destruct F as (Fc & Fp & _ & _ & _ & _ & Fok & Ferr).
      split; [reflexivity|]. split.
      { unfold Provider.afterConnect, awaitAccount in A.
        destruct (getAlgorandAccount p (world m1)) as [ra wa].
        destruct (getWeb3AuthUserInfo sdk (logged m1 wa (GetAlgorandAccount p)))
          as [ui m3] eqn:U.
        inversion A; subst m2.
        unfold getWeb3AuthUserInfo in U.
        destruct (web3authInstance (logged m1 wa (GetAlgorandAccount p)));
          [|inversion U; subst; cbn; rewrite <- app_assoc; eexists; reflexivity].
        destruct (negb _);
          [inversion U; subst; cbn; rewrite <- app_assoc; eexists; reflexivity|].
        destruct (getUserInfo sdk _ _) as [[x | e] wu]; inversion U; subst; cbn;
          rewrite <- !app_assoc; eexists; reflexivity. }
      split; [intros ? ? Eq; discriminate|].
      split; [intros ? Eq; discriminate|].
      intros p' w' Eq. inversion Eq; subst p' w'.
      cbn. split; [exact Fc|]. split; [exact Fp|]. split.
      * intros acct w' G. destruct (Fok acct w' G) as [Ha He].
        split; [exact Ha | rewrite He; reflexivity].
      * intros err w' G. destruct (Ferr err w' G) as [Ha He].
        split; [exact Ha | exact He].
    + cbn. split; [reflexivity|]. split; [eexists; reflexivity|].
      split; [intros ? ? Eq; discriminate|].
      split; [intros ? Eq; repeat split; reflexivity|].
      intros ? ? Eq. discriminate.
    + cbn. split; [reflexivity|]. split; [eexists; reflexivity|].
      split; [intros ? ? Eq; inversion Eq; subst; repeat split; reflexivity|].
      split; [intros ? Eq; discriminate|].
      intros ? ? Eq. discriminate.
Qed.

(** The three ways [login] ends, and the two ways start-up ends. *)
Lemma login_shape (st : St) (m : Mod) :
  (exists e, login st m = (Provider.setError (Some e) st, m))
  \/ (exists e m1,
        login st m =
          (setIsLoading false
             (setAlgorandAccount None
                (setProvider None
                   (setIsConnected false
                      (Provider.setError (Some e)
                         (Provider.setError None (setIsLoading true st)))))), m1)
        /\ web3authInstance m1 = web3authInstance m)
  \/ (exists p f m1,
        login st m =
          (setIsLoading false
             (fst (afterConnect p f
                     (Provider.setError None (setIsLoading true st)) m1)),
           snd (afterConnect p f
                  (Provider.setError None (setIsLoading true st)) m1))
        /\ web3authInstance m1 = web3authInstance m).
Proof.
  unfold Provider.login. destruct (web3AuthInstance st) as [inst|]; [|left; eauto].
  destruct (negb (isInitialized st)); [left; eauto|].
  destruct (connect sdk inst (world m)) as [[[p|] | err] w].
  - right; right. exists p.
    exists (fun err => messageOr err (lit "Failed to derive Algorand account")).
    exists (logged m w (Connect inst)).
    split; [|reflexivity].
    destruct (afterConnect p _ _ (logged m w (Connect inst))); reflexivity.
  - right; left. do 2 eexists. split; reflexivity.
  - right; left. do 2 eexists. split; reflexivity.
Qed.

Lemma initialize_shape (clientId : option jsstring) (st : St) (m : Mod) :
  let st0 := Provider.setError None (setIsLoading true st) in
  (exists e,
     fst (initWeb3Auth sdk clientId m) = RejectedWith e
     /\ initializeWeb3Auth clientId st m =
        (setIsLoading false
           (setIsInitialized true
              (Provider.setError
                 (Some (messageOr e (lit "Failed to initialize Web3Auth"))) st0)),
         snd (initWeb3Auth sdk clientId m)))
  \/ (exists i,
        fst (initWeb3Auth sdk clientId m) = Fulfilled i
        /\ (initializeWeb3Auth clientId st m =
              (setIsLoading false
                 (setIsInitialized true (setWeb3AuthInstance (Some i) st0)),
               snd (initWeb3Auth sdk clientId m))
            \/ exists p f,
                 initializeWeb3Auth clientId st m =
                   (setIsLoading false
                      (setIsInitialized true
                         (fst (afterConnect p f (setWeb3AuthInstance (Some i) st0)
                                 (snd (initWeb3Auth sdk clientId m))))),
                    snd (afterConnect p f (setWeb3AuthInstance (Some i) st0)
                           (snd (initWeb3Auth sdk clientId m)))))).
Proof.
  cbv zeta. unfold Provider.initializeWeb3Auth.
  destruct (initWeb3Auth sdk clientId m) as [[i | e] m1]; cbn [fst snd].
  - right. exists i. split; [reflexivity|].
    destruct (if String_eqb (status sdk i (world m1)) (lit "connected")
              then Config.provider sdk i (world m1) else None) as [p|].
    + right. exists p.
      exists (fun _ => lit "Failed to derive Algorand account. Please reconnect.").
      destruct (afterConnect p _ _ m1); reflexivity.
    + left. reflexivity.
  - left. exists e. split; reflexivity.
Qed.

Lemma run_keeps_singleton (a : Action) (st : St) (m : Mod) (i : Inst) :
  web3authInstance m = Some i ->
  web3authInstance (snd (run a st m)) = Some i.
Proof.
  intros I. destruct a as [clientId | | |]; cbn [Provider.run].
  - assert (E : initWeb3Auth sdk clientId m = (Fulfilled i, m))
      by (apply initWeb3Auth_cached; exact I).
    destruct (initialize_shape clientId st m) as [(e & F & _) | (j & F & [R | (p & f & R)])].
    + rewrite E in F. discriminate.
    + rewrite R, E. exact I.
    + rewrite R, E. cbn [fst snd].
      destruct (afterConnect_facts p f
                  (setWeb3AuthInstance (Some j)
                     (Provider.setError None (setIsLoading true st))) m)
        as (_ & _ & _ & _ & _ & K & _).
      rewrite K. exact I.
  - destruct (login_shape st m) as [(e & R) | [(e & m1 & R & K) | (p & f & m1 & R & K)]];
      rewrite R; cbn [snd]; [exact I | rewrite K; exact I |].
    destruct (afterConnect_facts p f
                (Provider.setError None (setIsLoading true st)) m1)
      as (_ & _ & _ & _ & _ & K' & _).
    rewrite K', K. exact I.
  - unfold Provider.logout.
    pose proof (logoutFrom_keeps_instance m) as K.
    destruct (logoutFromWeb3Auth sdk m) as [[u | e] m1]; cbn in K |- *;
      rewrite K; exact I.
  - unfold Provider.refreshUserInfo.
    pose proof (userInfo_keeps_instance m) as K.
    destruct (getWeb3AuthUserInfo sdk m) as [[u|] m1]; cbn in K |- *;
      rewrite K; exact I.
Qed.

Lemma run_keeps_clean (a : Action) (st : St) (m : Mod) :
  disconnectedClean st -> disconnectedClean (fst (run a st m)).
Proof.
  intros C. destruct a as [clientId | | |]; cbn [Provider.run].
  - destruct (initialize_shape clientId st m)
      as [(e & _ & R) | (j & _ & [R | (p & f & R)])]; rewrite R; cbn [fst].
    + exact C.
    + exact C.
    + intros D. exfalso.
      destruct (afterConnect_facts p f
                  (setWeb3AuthInstance (Some j)
                     (Provider.setError None (setIsLoading true st)))
                  (snd (initWeb3Auth sdk clientId m))) as (T & _).
      cbn in D. congruence.
  - destruct (login_shape st m) as [(e & R) | [(e & m1 & R & _) | (p & f & m1 & R & _)]];
      rewrite R; cbn [fst].
    + exact C.
    + intros _. split; reflexivity.
    + intros D. exfalso.
      destruct (afterConnect_facts p f
                  (Provider.setError None (setIsLoading true st)) m1) as (T & _).
      cbn in D. congruence.
  - unfold Provider.logout.
    destruct (logoutFromWeb3Auth sdk m) as [[u | e] m1]; intros _; split; reflexivity.
  - unfold Provider.refreshUserInfo.
    destruct (getWeb3AuthUserInfo sdk m) as [[u|] m1]; exact C.
Qed.

Lemma run_keeps_agreement (a : Action) (st : St) (m : Mod) :
  (forall i, web3AuthInstance st = Some i -> web3authInstance m = Some i) ->
  forall i, web3AuthInstance (fst (run a st m)) = Some i ->
            web3authInstance (snd (run a st m)) = Some i.
Proof.
  intros Agree i.
  assert (Same : web3AuthInstance (fst (run a st m)) = web3AuthInstance st ->
                 web3AuthInstance (fst (run a st m)) = Some i ->
                 web3authInstance (snd (run a st m)) = Some i).
  { intros E H. rewrite E in H. apply run_keeps_singleton, Agree, H. }
  destruct a as [clientId | | |].
  - cbn [Provider.run] in *.
    destruct (initialize_shape clientId st m)
      as [(e & _ & R) | (j & F & [R | (p & f & R)])].
    + apply Same. rewrite R. reflexivity.
    + rewrite R. cbn. intros E. inversion E; subst.
      apply initWeb3Auth_fulfilled. exact F.
    + rewrite R. cbn [fst snd].
      destruct (afterConnect_facts p f
                  (setWeb3AuthInstance (Some j)
                     (Provider.setError None (setIsLoading true st)))
                  (snd (initWeb3Auth sdk clientId m)))
        as (_ & _ & _ & _ & KI & K & _).
      cbn in KI |- *. rewrite KI, K. intros E. inversion E; subst.
      apply initWeb3Auth_fulfilled. exact F.
  - apply Same. cbn [Provider.run].
    destruct (login_shape st m) as [(e & R) | [(e & m1 & R & _) | (p & f & m1 & R & _)]];
      rewrite R; [reflexivity | reflexivity |].
    destruct (afterConnect_facts p f
                (Provider.setError None (setIsLoading true st)) m1)
      as (_ & _ & _ & _ & KI & _).
    cbn in KI |- *. exact KI.
  - apply Same. cbn [Provider.run]. unfold Provider.logout.
    destruct (logoutFromWeb3Auth sdk m) as [[u | e] m1]; reflexivity.
  - apply Same. cbn [Provider.run]. unfold Provider.refreshUserInfo.
    destruct (getWeb3AuthUserInfo sdk m) as [[u|] m1]; reflexivity.
Qed.

Lemma runAll_cons (a : Action) (rest : list Action) (st : St) (m : Mod) :
  runAll (a :: rest) st m = runAll rest (fst (run a st m)) (snd (run a st m)).
Proof. cbn [Provider.runAll]. destruct (run a st m); reflexivity. Qed.

(** X17.  Whatever sequence of start-up, login, logout and refresh runs
    from the initial state, a component that is not connected holds no
    provider and no account. *)
Theorem component_stays_clean (actions : list Action) (m : Mod) :
  disconnectedClean (fst (runAll actions initialState m)).
Proof.
  assert (G : forall st m', disconnectedClean st ->
                            disconnectedClean (fst (runAll actions st m'))).
  { induction actions as [|a rest IH]; intros st m' C; [exact C|].
    rewrite runAll_cons. apply IH, run_keeps_clean, C. }
  apply G. intros _. split; reflexivity.
Qed.

(** X18.  Once the module variable holds an instance it holds the same one
    for ever: no start-up, login, logout or refresh replaces or clears
    it. *)
Theorem singleton_is_kept (actions : list Action) (st : St) (m : Mod) (i : Inst) :
  web3authInstance m = Some i ->
  web3authInstance (snd (runAll actions st m)) = Some i.
Proof.
  revert st m. induction actions as [|a rest IH]; intros st m I; [exact I|].
  rewrite runAll_cons. apply IH, run_keeps_singleton, I.
Qed.

(** X19.  After any sequence of operations from the initial state, the
    instance the component holds (the one [login] connects) is the module's
    singleton (the one user info is read from and logout acts on). *)
Theorem component_instance_is_singleton (actions : list Action) (m : Mod)
    (i : Inst) :
  web3AuthInstance (fst (runAll actions initialState m)) = Some i ->
  web3authInstance (snd (runAll actions initialState m)) = Some i.
Proof.
  assert (G : forall st m',
            (forall j, web3AuthInstance st = Some j -> web3authInstance m' = Some j) ->
            forall j, web3AuthInstance (fst (runAll actions st m')) = Some j ->
                      web3authInstance (snd (runAll actions st m')) = Some j).
  { induction actions as [|a rest IH]; intros st m' A j; [apply A|].
    rewrite runAll_cons. apply IH. apply run_keeps_agreement. exact A. }
  apply G. intros j H. discriminate H.
Qed.

(** X20.  After [logout()], however it went, the unified wallet resolves
    without throwing, never to the social login, is not loading, and
    exposes neither a social account nor user info, whatever the browser
    wallet holds. *)
Theorem logout_then_unified {Ext Wallets W : Type} (st : St) (m : Mod)
    (t : WalletContext.UseWallet Ext Wallets W) :
  exists r,
    useUnifiedWallet (contextValue (fst (logout st m))) t = Normal r
    /\ Unified.walletType r <> Some web3auth
    /\ Unified.isLoading r = false
    /\ Unified.algorandAccount (Unified.web3auth r) = None
    /\ Unified.userInfo (Unified.web3auth r) = None.
Proof.
  unfold Provider.logout.
  destruct (logoutFromWeb3Auth sdk m) as [[u | e] m1]; cbn [fst];
    unfold useUnifiedWallet, contextValue; cbn;
    destruct (truthyAddress (WalletContext.activeAddress t));
    eexists; (split; [reflexivity|]); cbn; repeat split; discriminate.
Qed.

End Facts.

Lemma initWeb3Auth_failed_modal_cached_witness :
  fst (initWeb3Auth demoSdk (Some (lit "client-id")) (demoModule None 3))
    = RejectedWith (ThrownError (lit "modal failed"))
  /\ web3authInstance
       (snd (initWeb3Auth demoSdk (Some (lit "client-id")) (demoModule None 3)))
     = Some 4%N
  /\ events (snd (initWeb3Auth demoSdk (Some (lit "client-id")) (demoModule None 3)))
     = events (demoModule None 3)
       ++ [NewPrivateKeyProvider; NewWeb3Auth (lit "client-id"); InitModal 4%N]
  /\ (forall clientId',
       initWeb3Auth demoSdk clientId'
         (snd (initWeb3Auth demoSdk (Some (lit "client-id")) (demoModule None 3)))
       = (Fulfilled 4%N,
          snd (initWeb3Auth demoSdk (Some (lit "client-id")) (demoModule None 3)))).
Proof.
  apply (initWeb3Auth_failed_modal_cached demoSdk (Some (lit "client-id"))
           (lit "client-id") (demoModule None 3) tt 4%N 5%N 5%N 4%N
           (ThrownError (lit "modal failed")));
    reflexivity.
Defined.

Lemma singleton_is_kept_witness :
  web3authInstance
    (snd (runAll demoSdk demoGetAlgorandAccount
            [DoLogout; DoLogin; DoInitialize None; DoRefresh]
            initialState (demoModule (Some 1%N) 0)))
  = Some 1%N.
Proof.
  apply (singleton_is_kept demoSdk demoGetAlgorandAccount
           [DoLogout; DoLogin; DoInitialize None; DoRefresh]
           initialState (demoModule (Some 1%N) 0) 1%N).
  reflexivity.
Defined.

Lemma component_instance_is_singleton_witness :
  web3authInstance
    (snd (runAll demoSdk demoGetAlgorandAccount
            [DoInitialize (Some (lit "client-id")); DoLogin; DoLogout]
            initialState (demoModule None 0)))
  = Some 1%N.
Proof.
  apply (component_instance_is_singleton demoSdk demoGetAlgorandAccount
           [DoInitialize (Some (lit "client-id")); DoLogin; DoLogout]
           (demoModule None 0) 1%N).
  reflexivity.
Defined.

End ProviderSpec.

(** ** More on the relay and the unified wallet *)

Module RelayMore.
Import Js JsFacts Relay RelaySpec Wallet.

Lemma trimStart_idem_head (s : jsstring) :
  trimStart s = [] \/ exists c x, trimStart s = c :: x /\ isWhiteSpace c = false.
Proof.
  induction s as [|c s IH]; [left; reflexivity|].
  cbn [trimStart]. destruct (isWhiteSpace c) eqn:W; [exact IH|].
  right. exists c, s. auto.
Qed.

(** Trimming twice is trimming once. *)
Lemma trim_idempotent (s : jsstring) : trim (trim s) = trim s.
Proof.
  unfold trim, trimEnd.
  set (a := trimStart s).
  set (b := trimStart (rev a)).
  assert (Pb : trimStart b = b).
  { unfold b.
    destruct (trimStart_idem_head (rev a)) as [E | (c & x & E & W)]; rewrite E;
      [reflexivity | apply trimStart_head; exact W]. }
  assert (Prb : trimStart (rev b) = rev b).
  { destruct (trimStart_idem_head s) as [E | (c & x & E & W)]; fold a in E.
    - unfold b. rewrite E. reflexivity.
    - assert (Y : exists y, b = y ++ [c]).
      { unfold b. rewrite E. cbn [rev]. rewrite AmountMore.trimStart_app.
        destruct (forallb isWhiteSpace (rev x)).
        - exists []. cbn [trimStart app]. rewrite W. reflexivity.
        - eexists. reflexivity. }
      destruct Y as [y Y]. rewrite Y, rev_app_distr. cbn [rev app].
      apply trimStart_head. exact W. }
  rewrite Prb, rev_involutive, Pb. reflexivity.
Qed.

Lemma or_else_trimmed (s d : jsstring) :
  d <> [] -> trim d = d ->
  or_else (trim s) d <> [] /\ trim (or_else (trim s) d) = or_else (trim s) d.
Proof.
  intros NE T. unfold or_else. destruct (is_empty (trim s)) eqn:E.
  - split; assumption.
  - split; [apply is_empty_false; exact E | apply trim_idempotent].
Qed.

Section HandlerMore.
Variable JSON_parse : jsstring -> option Json.
Variable PinataState : Type.
Variable pinFileToIPFS :
  FileStream -> PinOptions -> PinataState -> Outcome PinResult * PinataState.
Variable pinJSONToIPFS :
  Metadata -> PinOptions -> PinataState -> Outcome PinResult * PinataState.

Local Abbreviation servePinImage :=
  (Relay.servePinImage JSON_parse PinataState pinFileToIPFS pinJSONToIPFS).
Local Abbreviation metadataOf := (Relay.metadataOf JSON_parse).

(** X21.  When both pins resolve, the answer is 200 with
    [metadataUrl = "ipfs://" + hash of the document pin]; the document
    pinned has [image = "ipfs://" + hash of the file pin]; the file pinned
    is the uploaded buffer; and the service is left in the state after the
    second pin. *)
Theorem pinImage_success (req : Request) (f : UploadedFile)
    (p p1 p2 : PinataState) (r1 r2 : PinResult) :
  file req = Some f ->
  pinFileToIPFS (streamOf f) (imageOptionsOf req f) p = (Resolved r1, p1) ->
  pinJSONToIPFS (metadataOf req r1) (jsonOptionsOf req) p1 = (Resolved r2, p2) ->
  servePinImage req p =
    (Resolved {| statusCode := 200; headers := [];
                 payload := BodyMetadataUrl (lit "ipfs://" ++ IpfsHash r2) |},
     {| pinata := p2;
        calls := [CallPinFile (streamOf f) (imageOptionsOf req f);
                  CallPinJSON (metadataOf req r1) (jsonOptionsOf req)] |})
  /\ image (metadataOf req r1) = lit "ipfs://" ++ IpfsHash r1
  /\ content (streamOf f) = buffer f.
Proof.
  intros F E1 E2.
  rewrite (serve_with_file _ _ _ _ req f p F), E1, E2.
  repeat split; reflexivity.
Qed.

(** X22.  Every request is answered, with status 400, 500 or 200: 400
    exactly when there is no file, and then nothing is called; 200 exactly
    when the body carries a metadata URL, and then exactly two upstream
    calls were made; never more than two calls, the first always the file
    pin. *)
Theorem pinImage_answers (req : Request) (p : PinataState) :
  exists resp w,
    servePinImage req p = (Resolved resp, w)
    /\ (statusCode resp = 400 \/ statusCode resp = 500 \/ statusCode resp = 200)%Z
    /\ (statusCode resp = 400%Z <-> file req = None)
    /\ (statusCode resp = 400%Z -> calls w = [])
    /\ (statusCode resp = 200%Z <-> exists url, payload resp = BodyMetadataUrl url)
    /\ (statusCode resp = 200%Z -> length (calls w) = 2)
    /\ length (calls w) <= 2
    /\ (forall c rest, calls w = c :: rest -> exists st o, c = CallPinFile st o).
Proof.
  destruct (file req) as [f|] eqn:F.
  - rewrite (serve_with_file _ _ _ _ req f p F).
    destruct (pinFileToIPFS _ _ p) as [[r1 | e] p1].
    + destruct (pinJSONToIPFS _ _ p1) as [[r2 | e] p2]; do 2 eexists;
        (split; [reflexivity|]); cbn;
        repeat split; try (intros; discriminate); try lia; auto;
        try (intros [url E]; discriminate);
        try (intros; eexists; reflexivity);
        try (intros c rest E; inversion E; eauto).
    + do 2 eexists. split; [reflexivity|]. cbn.
      repeat split; try (intros; discriminate); try lia; auto;
        try (intros [url E]; discriminate);
        try (intros c rest E; inversion E; eauto).
  - rewrite (serve_without_file _ _ _ _ req p F). do 2 eexists.
    split; [reflexivity|]. cbn.
    repeat split; try (intros; discriminate); try lia; auto;
      try (intros [url E]; discriminate).
Qed.

(** X24.  Every metadata document the handler pins has a non-empty name
    and description, neither starting nor ending with white space
    (trimming them changes nothing), and is pinned under the name
    [name + " Metadata"]. *)
Theorem pinned_names_are_clean (req : Request) (p : PinataState)
    (doc : Metadata) (o : PinOptions) :
  In (CallPinJSON doc o) (calls (snd (servePinImage req p))) ->
  name doc <> [] /\ trim (name doc) = name doc
  /\ description doc <> [] /\ trim (description doc) = description doc
  /\ pinataMetadata_name o = name doc ++ lit " Metadata".
Proof.
  intros H. apply pinned_document in H. destruct H as (r1 & -> & ->).
  cbn [name description Relay.metadataOf jsonOptionsOf pinataMetadata_name].
  unfold nameOf, descriptionOf.
  assert (T : forall v d, d <> [] -> trim d = d ->
              or_else (safeTrim v) d <> []
              /\ trim (or_else (safeTrim v) d) = or_else (safeTrim v) d).
  { intros v d NE TD. destruct v as [|s|l]; cbn [safeTrim];
      [split; assumption | apply or_else_trimmed; assumption | split; assumption]. }
  destruct (T (bodyField req metaName) (lit "NFT Example")
              ltac:(discriminate) eq_refl) as [N1 N2].
  destruct (T (bodyField req metaDescription) (lit "This is an unchangeable NFT")
              ltac:(discriminate) eq_refl) as [D1 D2].
  repeat split; assumption || reflexivity.
Qed.

End HandlerMore.

Lemma pinImage_success_witness :
  servePinImage tinyJsonParse N demoPinFile demoPinJSON
    (exampleRequest (Some examplePng) (FText (lit " Deed ")) FAbsent
       (FText (lit "{}"))) 0%N =
  (Resolved {| statusCode := 200; headers := [];
               payload := BodyMetadataUrl (lit "ipfs://" ++ lit "Qm1") |},
   {| pinata := 2%N;
      calls := [CallPinFile (streamOf examplePng)
                  (imageOptionsOf
                     (exampleRequest (Some examplePng) (FText (lit " Deed "))
                        FAbsent (FText (lit "{}"))) examplePng);
                CallPinJSON
                  (metadataOf tinyJsonParse
                     (exampleRequest (Some examplePng) (FText (lit " Deed "))
                        FAbsent (FText (lit "{}")))
                     {| IpfsHash := lit "Qm0" |})
                  (jsonOptionsOf
                     (exampleRequest (Some examplePng) (FText (lit " Deed "))
                        FAbsent (FText (lit "{}"))))] |}).
Proof.
  apply (pinImage_success tinyJsonParse N demoPinFile demoPinJSON
           (exampleRequest (Some examplePng) (FText (lit " Deed ")) FAbsent
              (FText (lit "{}")))
           examplePng 0%N 1%N 2%N {| IpfsHash := lit "Qm0" |}
           {| IpfsHash := lit "Qm1" |});
    reflexivity.
Defined.

Lemma pinned_names_are_clean_witness :
  name (metadataOf tinyJsonParse
          (exampleRequest (Some examplePng) (FText (lit " Deed ")) FAbsent FAbsent)
          {| IpfsHash := lit "Qm0" |}) <> [].
Proof.
  apply (pinned_names_are_clean tinyJsonParse N demoPinFile demoPinJSON
           (exampleRequest (Some examplePng) (FText (lit " Deed ")) FAbsent FAbsent)
           0%N
           (metadataOf tinyJsonParse
              (exampleRequest (Some examplePng) (FText (lit " Deed ")) FAbsent
                 FAbsent)
              {| IpfsHash := lit "Qm0" |})
           {| pinataMetadata_name := lit "Deed Metadata" |}).
  right. left. reflexivity.
Defined.

(** X23.  An error body never carries the empty string: the message
    extracted from a caught error is a non-empty string or the upstream
    data object, preferring the upstream [error] string, then the upstream
    data, then the exception's message, then the fixed text. *)
Theorem error_message_never_empty (e : PinError) :
  extractMessage e <> MsgText []
  /\ (forall s, response_data e = Some (DataObject (Some s)) -> s <> [] ->
       extractMessage e = MsgText s)
  /\ (forall s, response_data e = Some (DataText s) -> s <> [] ->
       extractMessage e = MsgText s)
  /\ (forall d, response_data e = Some (DataObject d) ->
       d = None \/ d = Some [] ->
       extractMessage e = MsgData (DataObject d))
  /\ (response_data e = None \/ response_data e = Some (DataText []) ->
      (forall m, message e = Some m -> m <> [] -> extractMessage e = MsgText m)
      /\ (message e = None \/ message e = Some [] ->
          extractMessage e = MsgText (lit "Failed to pin to IPFS."))).
Proof.
  unfold extractMessage. split; [|split; [|split; [|split]]].
  - destruct (response_data e) as [[s | [s|]]|]; try discriminate.
    + destruct s; cbn; [|discriminate].
      destruct (message e) as [[|c m]|]; discriminate.
    + destruct s; discriminate.
    + destruct (message e) as [[|c m]|]; discriminate.
  - intros s -> NE. destruct s; [congruence | reflexivity].
  - intros s -> NE. destruct s; [congruence | reflexivity].
  - intros d -> [-> | ->]; reflexivity.
  - intros [-> | ->]; cbn; split.
    + intros m -> NE. destruct m; [congruence | reflexivity].
    + intros [-> | ->]; reflexivity.
    + intros m -> NE. destruct m; [congruence | reflexivity].
    + intros [-> | ->]; reflexivity.
Qed.

(** X25.  With [ALLOWED_ORIGINS] unset or empty the variant configured by
    it allows every origin.  The variant deployable on Vercel always allows
    the local development origin, and the configured frontend origin once
    trimmed.  For one and the same list, whatever the second variant allows
    the first allows too. *)
Theorem cors_defaults (URL_hostname : jsstring -> option jsstring) :
  (forall env origin,
     ALLOWED_ORIGINS env = None \/ ALLOWED_ORIGINS env = Some [] ->
     corsOriginWildcard URL_hostname (allowedOriginsWildcard env) origin = true)
  /\ (forall env,
       corsOrigin URL_hostname (allowedOrigins env)
         (Some (lit "http://localhost:5173")) = true)
  /\ (forall env s, FRONTEND_ORIGIN env = Some s ->
       corsOrigin URL_hostname (allowedOrigins env) (Some (trim s)) = true)
  /\ (forall allowed origin,
       corsOrigin URL_hostname allowed origin = true ->
       corsOriginWildcard URL_hostname allowed origin = true).
Proof.
  split; [|split; [|split]].
  - intros env origin D.
    assert (L : allowedOriginsWildcard env = [lit "*"]).
    { unfold allowedOriginsWildcard. destruct D as [-> | ->]; reflexivity. }
    rewrite L. unfold corsOriginWildcard.
    destruct origin as [o|]; [|reflexivity].
    destruct (is_empty o); reflexivity.
  - intros env. unfold corsOrigin. cbn [is_empty lit].
    assert (I : includes (allowedOrigins env) (lit "http://localhost:5173") = true).
    { apply includes_In. unfold allowedOrigins. left. reflexivity. }
    change (is_empty (lit "http://localhost:5173")) with false.
    rewrite I. reflexivity.
  - intros env s F. unfold corsOrigin.
    destruct (is_empty (trim s)) eqn:E; [reflexivity|].
    assert (I : includes (allowedOrigins env) (trim s) = true).
    { apply includes_In. unfold allowedOrigins. rewrite F.
      cbn [filter]. change (negb (is_empty (lit "http://localhost:5173"))) with true.
      cbn [map]. right.
      destruct (is_empty s) eqn:Es.
      - apply is_empty_true in Es. subst s. discriminate E.
      - cbn [negb map]. left. reflexivity. }
    rewrite I. reflexivity.
  - intros allowed origin. unfold corsOrigin, corsOriginWildcard.
    destruct origin as [o|]; [|reflexivity].
    destruct (is_empty o); [reflexivity|].
    destruct (includes allowed (lit "*")); [reflexivity|]. tauto.
Qed.

Lemma cors_defaults_witness :
  corsOriginWildcard originHostname
    (allowedOriginsWildcard {| ALLOWED_ORIGINS := Some []; FRONTEND_ORIGIN := None |})
    (Some (lit "https://anything.example")) = true
  /\ corsOrigin originHostname
       (allowedOrigins {| ALLOWED_ORIGINS := None;
                          FRONTEND_ORIGIN := Some (lit " https://rwa.example ") |})
       (Some (trim (lit " https://rwa.example "))) = true.
Proof.
  split.
  - apply (proj1 (cors_defaults originHostname)). right. reflexivity.
  - apply (proj1 (proj2 (proj2 (cors_defaults originHostname)))
             {| ALLOWED_ORIGINS := None;
                FRONTEND_ORIGIN := Some (lit " https://rwa.example ") |}
             (lit " https://rwa.example ")).
    reflexivity.
Defined.

End RelayMore.

(** ** The helper hooks of the unified wallet *)

Module WalletMore.
Import Js Wallet WalletHelpers.

Lemma pick_throws {UserInfo Fn Ext Wallets W A : Type}
    (w : Web3AuthContext.Web3AuthContextType UserInfo Fn)
    (t : WalletContext.UseWallet Ext Wallets W)
    (f : Unified.UnifiedWalletState UserInfo Fn Ext Wallets W -> A)
    (msg : jsstring) :
  useUnifiedWallet w t = Throw msg <-> pick w t f = Throw msg.
Proof.
  unfold pick. destruct (useUnifiedWallet w t) as [r | m]; split;
    intros E; try discriminate; inversion E; reflexivity.
Qed.

(** The invariants of a resolved state. *)
Lemma resolved_invariants {UserInfo Fn Ext Wallets W : Type}
    (w : Web3AuthContext.Web3AuthContextType UserInfo Fn)
    (t : WalletContext.UseWallet Ext Wallets W)
    (r : Unified.UnifiedWalletState UserInfo Fn Ext Wallets W) :
  useUnifiedWallet w t = Normal r ->
  (Unified.isConnected r = true <-> Unified.activeAddress r <> None)
  /\ (Unified.activeAddress r <> None <-> Unified.walletType r <> None)
  /\ (Unified.algorandAccount (Unified.web3auth r) <> None <->
      Unified.walletType r = Some web3auth)
  /\ (forall acc, Unified.algorandAccount (Unified.web3auth r) = Some acc ->
        Unified.activeAddress r = Some (address acc))
  /\ Unified.wallets (Unified.traditional r) = WalletContext.wallets t
  /\ Unified.activeWallet (Unified.traditional r) =
     WalletContext.activeWallet t.
Proof.
  intros E. unfold useUnifiedWallet in E.
  destruct (if Web3AuthContext.isConnected w
            then Web3AuthContext.algorandAccount w else None) as [a|].
  - destruct (createWeb3AuthSigner a) as [sg|]; [|discriminate].
    inversion E; subst r; cbn.
    split; [split; intros; congruence|].
    split; [split; intros; congruence|].
    split; [split; intros; congruence|].
    split; [intros acc H; congruence|].
    split; reflexivity.
  - destruct (truthyAddress (WalletContext.activeAddress t)) as [addr|];
      inversion E; subst r; cbn;
      (split; [split; intros; congruence|]);
      (split; [split; intros; congruence|]);
      (split; [split; intros; congruence|]);
      (split; [intros acc H; congruence|]);
      split; reflexivity.
Qed.

(** X26.  What a component sees through the helper hooks
    [useActiveAddress], [useIsWalletConnected] and [useWalletType].  Each
    throws exactly when [useUnifiedWallet] does, with its message.  When
    they return they never disagree: the connected flag is [true] exactly
    when the address is not [null], exactly when the wallet type is not
    [null].  In the resolved state a social-login account is exposed
    exactly when the type is [web3auth], and the active address is then
    that account's; the browser wallet's list and active wallet are passed
    through in every state. *)
Theorem unified_state_is_consistent
    {UserInfo Fn Ext Wallets W : Type}
    (w : Web3AuthContext.Web3AuthContextType UserInfo Fn)
    (t : WalletContext.UseWallet Ext Wallets W) :
  (forall msg,
     (useUnifiedWallet w t = Throw msg <-> useActiveAddress w t = Throw msg)
     /\ (useUnifiedWallet w t = Throw msg <->
         useIsWalletConnected w t = Throw msg)
     /\ (useUnifiedWallet w t = Throw msg <-> useWalletType w t = Throw msg))
  /\ (forall a c ty,
       useActiveAddress w t = Normal a ->
       useIsWalletConnected w t = Normal c ->
       useWalletType w t = Normal ty ->
       (c = true <-> a <> None) /\ (a <> None <-> ty <> None))
  /\ (forall r, useUnifiedWallet w t = Normal r ->
       useActiveAddress w t = Normal (Unified.activeAddress r)
       /\ useIsWalletConnected w t = Normal (Unified.isConnected r)
       /\ useWalletType w t = Normal (Unified.walletType r)
       /\ (Unified.algorandAccount (Unified.web3auth r) <> None <->
           Unified.walletType r = Some web3auth)
       /\ (forall acc,
             Unified.algorandAccount (Unified.web3auth r) = Some acc ->
             Unified.activeAddress r = Some (address acc))
       /\ Unified.wallets (Unified.traditional r) = WalletContext.wallets t
       /\ Unified.activeWallet (Unified.traditional r) =
          WalletContext.activeWallet t).
Proof.
  split; [|split].
  - intros msg. split; [|split]; apply pick_throws.
  - intros a c ty. unfold useActiveAddress, useIsWalletConnected, useWalletType, pick.
    destruct (useUnifiedWallet w t) as [r | m] eqn:E; [|discriminate].
    intros Ea Ec Et. inversion Ea; inversion Ec; inversion Et; subst.
    destruct (resolved_invariants w t r E) as (A & B & _).
    split; assumption.
  - intros r E.
    destruct (resolved_invariants w t r E) as (_ & _ & C & D & P1 & P2).
    unfold useActiveAddress, useIsWalletConnected, useWalletType, pick.
    rewrite E.
    split; [reflexivity|]. split; [reflexivity|]. split; [reflexivity|].
    split; [exact C|]. split; [exact D|]. split; assumption.
Qed.

End WalletMore.
